(** * mini-manus: the tool execution engine, embedded and verified.

    The Python sources under [src/] are embedded shallowly: pure helpers
    become functions, methods that mutate an object take the object and
    return the updated one, calls that may raise return an [outcome], and
    calls into collaborators outside the repository (database drivers, the
    sandboxed interpreter run, Python's parser and arithmetic) are section
    variables.

    Conventions.
    - A Python [str] is a [string] holding its UTF-8 bytes.  The character
      functions ([lower], [strip], the regex classes [\d], [\w]) are the
      ASCII ones: on text with a code point above 127 Python consults the
      Unicode tables, which are not modelled, so statements that depend on
      them carry the hypothesis [ascii_text].
    - [print] calls and the [asyncio.sleep] pause are not modelled.
    - Only exceptions derived from [Exception] are modelled; an interrupt
      (KeyboardInterrupt, task cancellation) ends the process and is not a
      behaviour of a completed call. *)

From Stdlib Require Import ZArith List String Ascii Lia Bool QArith.
From Stdlib Require Import DecimalString Decimal.
From Stdlib Require Import Floats.SpecFloat.
From stdpp Require Import base option list gmap strings.

Local Open Scope Z_scope.

(* ================================================================== *)
(** * Python values shared by all components *)
(* ================================================================== *)

Module Py.

(** The exception classes the sources raise or catch by name. *)
Inductive exn_class :=
| ZeroDivisionError | ValueError | SyntaxError | NameError | TypeError
| KeyError | OverflowError | TimeoutError | ImportError | OtherException.

(** An exception object: its class and [str(e)]. *)
Record exn := mk_exn { exn_type : exn_class; exn_str : string }.

(** The result of a call that may raise. *)
Inductive outcome (A : Type) :=
| Return (a : A)
| Raise (e : exn).
Arguments Return {A} a.
Arguments Raise {A} e.

(** Sequencing: an exception raised by the first call skips the rest.
    The instances give the notation [x ← m; k]. *)
Global Instance outcome_ret : MRet outcome := fun A a => Return a.
Global Instance outcome_bind : MBind outcome := fun A B k m =>
  match m with
  | Return a => k a
  | Raise e => Raise e
  end.

(** A list comprehension over calls that may raise: left to right, the
    first exception ends it. *)
Section MapOutcome.
Context {A B : Type}.
Variable f : A → outcome B.

Fixpoint map_outcome (l : list A) : outcome (list B) :=
  match l with
  | [] => Return []
  | a :: rest =>
      match f a with
      | Raise e => Raise e
      | Return b =>
          match map_outcome rest with
          | Raise e => Raise e
          | Return bs => Return (b :: bs)
          end
      end
  end.

End MapOutcome.

(** ** Characters *)

Definition code (c : ascii) : N := N_of_ascii c.

Definition in_range (lo hi : N) (c : ascii) : bool :=
  ((lo <=? code c) && (code c <=? hi))%N.

Definition is_upper (c : ascii) : bool := in_range 65 90 c.
Definition is_lower (c : ascii) : bool := in_range 97 122 c.
Definition is_alpha (c : ascii) : bool := is_upper c || is_lower c.
Definition is_digit (c : ascii) : bool := in_range 48 57 c.

(** [\w] on ASCII text: letters, digits and the underscore. *)
Definition is_word (c : ascii) : bool :=
  is_alpha c || is_digit c || (code c =? 95)%N.

(** The characters [str.strip()] removes: TAB, LF, VT, FF, CR, the four
    separators FS, GS, RS, US, and the space. *)
Definition is_space (c : ascii) : bool :=
  in_range 9 13 c || in_range 28 32 c.

Definition newline : ascii := "010"%char.

Definition lower_char (c : ascii) : ascii :=
  if is_upper c then ascii_of_N (code c + 32) else c.

Definition upper_char (c : ascii) : ascii :=
  if is_lower c then ascii_of_N (code c - 32) else c.

Definition is_ascii (c : ascii) : bool := (code c <? 128)%N.

(** ** Strings *)

Fixpoint map_str (f : ascii → ascii) (s : string) : string :=
  match s with
  | EmptyString => EmptyString
  | String c t => String (f c) (map_str f t)
  end.

Fixpoint forall_str (p : ascii → bool) (s : string) : bool :=
  match s with
  | EmptyString => true
  | String c t => p c && forall_str p t
  end.

(** [s.lower()] and [s.upper()]. *)
Definition lower : string → string := map_str lower_char.
Definition upper : string → string := map_str upper_char.

(** Text made of 7-bit characters only. *)
Definition ascii_text (s : string) : Prop := forall_str is_ascii s = true.

(** [s.lstrip()], [s.rstrip()], [s.strip()]. *)
Fixpoint lstrip (s : string) : string :=
  match s with
  | EmptyString => EmptyString
  | String c t => if is_space c then lstrip t else s
  end.

Fixpoint rstrip (s : string) : string :=
  match s with
  | EmptyString => EmptyString
  | String c t =>
      match rstrip t with
      | EmptyString => if is_space c then EmptyString else String c EmptyString
      | t' => String c t'
      end
  end.

Definition strip (s : string) : string := rstrip (lstrip s).

(** [s.startswith(p)]. *)
Fixpoint startswith (p s : string) : bool :=
  match p, s with
  | EmptyString, _ => true
  | String a p', String b s' => Ascii.eqb a b && startswith p' s'
  | String _ _, EmptyString => false
  end.

(** [sub in s]: [sub] occurs in [s] as a substring. *)
Fixpoint str_in (sub s : string) : bool :=
  startswith sub s ||
  match s with
  | EmptyString => false
  | String _ t => str_in sub t
  end.

(** [sep.join(parts)]. *)
Fixpoint join (sep : string) (parts : list string) : string :=
  match parts with
  | [] => ""
  | [p] => p
  | p :: rest => p +:+ sep +:+ join sep rest
  end.

(** [s.replace(old, new)] for a non-empty [old]: the occurrences are
    replaced from the left, without overlap.  [skip] counts the characters
    of an occurrence that is being skipped. *)
Fixpoint replace_from (old new : string) (skip : nat) (s : string) : string :=
  match s with
  | EmptyString => EmptyString
  | String c t =>
      match skip with
      | S k => replace_from old new k t
      | O =>
          if startswith old s
          then new +:+ replace_from old new (Nat.pred (String.length old)) t
          else String c (replace_from old new O t)
      end
  end.

Definition replace (old new s : string) : string := replace_from old new O s.

(** [str(n)] for an integer. *)
Definition str_of_Z (n : Z) : string := NilZero.string_of_int (Z.to_int n).


(** [sub] occurs in [s]: the property [str_in] decides. *)
Definition contains (sub s : string) : Prop :=
  ∃ l r, s = l +:+ sub +:+ r.

End Py.

(** ** Text measured in characters *)

(** A [str] is kept as its UTF-8 bytes; [len], slices and [ljust] count
    characters, that is the bytes that do not continue a character. *)
Module PyText.
Import Py.

(** The bytes [10xxxxxx], which continue a character. *)
Definition is_continuation (c : ascii) : bool := in_range 128 191 c.

(** [len(s)]. *)
Fixpoint len (s : string) : nat :=
  match s with
  | EmptyString => O
  | String c t => if is_continuation c then len t else S (len t)
  end.

(** [s[:n]] for [n ≥ 0]. *)
Fixpoint slice_to (n : nat) (s : string) : string :=
  match s with
  | EmptyString => EmptyString
  | String c t =>
      if is_continuation c then String c (slice_to n t)
      else
        match n with
        | O => EmptyString
        | S k => String c (slice_to k t)
        end
  end.

(** [c * n] for a one-character string. *)
Fixpoint repeat_char (c : ascii) (n : nat) : string :=
  match n with
  | O => EmptyString
  | S k => String c (repeat_char c k)
  end.

(** [s.ljust(width)]. *)
Definition ljust (width : nat) (s : string) : string :=
  s +:+ repeat_char " " (width - len s).

End PyText.

(* ================================================================== *)
(** * The fragment of [re] the sources use *)
(* ================================================================== *)

Module Re.
Import Py.

(** Patterns: character classes, concatenation, alternation, star. *)
Inductive regex :=
| Void
| Eps
| Class (p : ascii → bool)
| Seq (r1 r2 : regex)
| Alt (r1 r2 : regex)
| Star (r : regex).

(** A literal character, [.] (anything but a line feed), [\w] and [\d]. *)
Definition Lit (c : ascii) : regex := Class (Ascii.eqb c).
Definition Dot : regex := Class (fun c => negb (Ascii.eqb c newline)).
Definition Word : regex := Class is_word.

Fixpoint Lits (s : string) : regex :=
  match s with
  | EmptyString => Eps
  | String c t => Seq (Lit c) (Lits t)
  end.

Fixpoint nullable (r : regex) : bool :=
  match r with
  | Void => false
  | Eps => true
  | Class _ => false
  | Seq r1 r2 => nullable r1 && nullable r2
  | Alt r1 r2 => nullable r1 || nullable r2
  | Star _ => true
  end.

(** Brzozowski derivative of [r] by the character [c]. *)
Fixpoint deriv (c : ascii) (r : regex) : regex :=
  match r with
  | Void => Void
  | Eps => Void
  | Class p => if p c then Eps else Void
  | Seq r1 r2 =>
      Alt (Seq (deriv c r1) r2) (if nullable r1 then deriv c r2 else Void)
  | Alt r1 r2 => Alt (deriv c r1) (deriv c r2)
  | Star r1 => Seq (deriv c r1) (Star r1)
  end.

(** [re.match(r, s) is not None]: some prefix of [s] matches [r]. *)
Fixpoint match_prefix (r : regex) (s : string) : bool :=
  nullable r ||
  match s with
  | EmptyString => false
  | String c t => match_prefix (deriv c r) t
  end.

(** [re.search(r, s) is not None]: a match starts at some position. *)
Fixpoint search (r : regex) (s : string) : bool :=
  match_prefix r s ||
  match s with
  | EmptyString => false
  | String _ t => search r t
  end.


(** The strings a pattern denotes. *)
Inductive matches : regex → string → Prop :=
| MEps : matches Eps ""
| MClass p c : p c = true → matches (Class p) (String c "")
| MSeq r1 r2 s1 s2 :
    matches r1 s1 → matches r2 s2 → matches (Seq r1 r2) (s1 +:+ s2)
| MAltL r1 r2 s : matches r1 s → matches (Alt r1 r2) s
| MAltR r1 r2 s : matches r2 s → matches (Alt r1 r2) s
| MStarNil r : matches (Star r) ""
| MStarApp r s1 s2 :
    matches r s1 → matches (Star r) s2 → matches (Star r) (s1 +:+ s2).

End Re.

(* ================================================================== *)
(** * tools/database.py *)
(* ================================================================== *)

Module Database.
Import Py Re.

(** A driver connection object, as far as the tool looks at it: whether it
    has a [close] attribute and whether calling [close()] raises. *)
Record Connection := mk_connection {
  conn_label : string;
  has_close : bool;
  close_raises : option exn
}.

(** The values stored in [self.connection_info]. *)
Inductive InfoValue :=
| InfoStr (s : string)
| InfoTime (t : Q).

(** The calls that reach a database driver. *)
Inductive DriverCall :=
| DriverConnect (db_type connection_string : string)
| DriverClose (c : Connection)
| DriverQuery (db_type : string) (c : Connection) (sql : string).

(** The attributes of a [DatabaseTool] instance.  [supported_databases]
    maps a database type to [true] when its connect function is present
    and to [false] when the entry is [None] (driver not installed). *)
Record DatabaseTool := mk_database_tool {
  name : string;
  description : string;
  max_rows : Z;
  query_timeout : Z;
  current_connection : option Connection;
  current_db_type : option string;
  connection_info : gmap string InfoValue;
  supported_databases : gmap string bool;
  allowed_keywords : list string;
  forbidden_keywords : list string
}.

Definition set_connection (t : DatabaseTool) (c : option Connection)
    (ty : option string) (info : gmap string InfoValue) : DatabaseTool :=
  {| name := name t; description := description t;
     max_rows := max_rows t; query_timeout := query_timeout t;
     current_connection := c; current_db_type := ty;
     connection_info := info;
     supported_databases := supported_databases t;
     allowed_keywords := allowed_keywords t;
     forbidden_keywords := forbidden_keywords t |}.

(** [DatabaseTool.__init__]; the two flags are the module constants
    [MYSQL_AVAILABLE] and [POSTGRESQL_AVAILABLE]. *)
Definition __init__ (config : gmap string Z)
    (MYSQL_AVAILABLE POSTGRESQL_AVAILABLE : bool) : DatabaseTool :=
  {| name := "database";
     description := "数据库查询工具，支持SQLite、MySQL、PostgreSQL的SELECT查询";
     max_rows := default 100 (config !! "max_rows");
     query_timeout := default 30 (config !! "query_timeout");
     current_connection := None;
     current_db_type := None;
     connection_info := ∅;
     supported_databases :=
       <["sqlite" := true]>
         (<["mysql" := MYSQL_AVAILABLE]>
            (<["postgresql" := POSTGRESQL_AVAILABLE]> ∅));
     allowed_keywords :=
       ["select"; "from"; "where"; "join"; "inner"; "left"; "right"; "outer";
        "on"; "and"; "or"; "not"; "in"; "like"; "between"; "is"; "null";
        "order"; "by"; "group"; "having"; "limit"; "offset"; "distinct";
        "as"; "case"; "when"; "then"; "else"; "end"; "union"; "all"];
     forbidden_keywords :=
       ["insert"; "update"; "delete"; "drop"; "create"; "alter"; "truncate";
        "grant"; "revoke"; "commit"; "rollback"; "exec"; "execute"; "sp_";
        "xp_"; "cmdshell"; "bulk"; "openrowset"; "opendatasource"] |}.

(** The four [dangerous_patterns], in source order:
    [--], [/\*], [\*/] and [;.*\w]. *)
Definition dangerous_patterns : list regex :=
  [ Lits "--";
    Lits "/*";
    Lits "*/";
    Seq (Lit ";") (Seq (Star Dot) Word) ].

(** [DatabaseTool._is_safe_sql]. *)
Definition _is_safe_sql (self : DatabaseTool) (sql : string) : bool :=
  let sql_lower := strip (lower sql) in
  if negb (startswith "select" sql_lower) then false
  else if existsb (fun forbidden => str_in forbidden sql_lower)
            (forbidden_keywords self) then false
  else if existsb (fun pattern => search pattern sql_lower)
            dangerous_patterns then false
  else true.

Definition msg_not_connected : string :=
  "❌ 未连接到数据库，请先使用 connect 操作".
Definition msg_unsafe_sql : string :=
  "❌ SQL语句不安全或不被支持，仅允许SELECT查询".
Definition msg_no_active_connection : string :=
  "ℹ️ 当前没有活动的数据库连接".
Definition msg_disconnected : string :=
  "✅ 数据库连接已断开".

Section Handlers.

(** The driver's connect function for a database type and connection
    string ([_connect_sqlite], [_connect_mysql], [_connect_postgresql]). *)
Variable connect_driver : string → string → outcome Connection.

(** The driver round trip of [_execute_sqlite_query] and its two siblings:
    [cursor.execute(sql)], [fetchmany(max_rows)] and the rendering of the
    rows, for a database type, connection, row limit and statement. *)
Variable run_query : string → Connection → Z → string → outcome string.

(** [DatabaseTool._handle_disconnect]. *)
Definition _handle_disconnect (self : DatabaseTool)
    : string * DatabaseTool * list DriverCall :=
  match current_connection self with
  | None => (msg_no_active_connection, self, [])
  | Some conn =>
      if has_close conn then
        match close_raises conn with
        | Some e =>
            ("⚠️ 断开连接时出现警告: " +:+ exn_str e, self, [DriverClose conn])
        | None =>
            (msg_disconnected, set_connection self None None ∅,
             [DriverClose conn])
        end
      else (msg_disconnected, set_connection self None None ∅, [])
  end.

(** [DatabaseTool._handle_connect], with the keyword arguments [db_type]
    and [connection_string] and the event-loop time [now]. *)
Definition _handle_connect (self : DatabaseTool)
    (kw_db_type kw_connection_string : option string) (now : Q)
    : string * DatabaseTool * list DriverCall :=
  let db_type := lower (default "" kw_db_type) in
  let connection_string := default "" kw_connection_string in
  let '(self1, calls1) :=
    match current_connection self with
    | Some _ => let '(_, s, c) := _handle_disconnect self in (s, c)
    | None => (self, [])
    end in
  match supported_databases self1 !! db_type with
  | None => ("❌ 连接失败: '" +:+ db_type +:+ "'", self1, calls1)
  | Some false =>
      ("❌ 连接失败: 'NoneType' object is not callable", self1, calls1)
  | Some true =>
      let calls2 := calls1 ++ [DriverConnect db_type connection_string] in
      match connect_driver db_type connection_string with
      | Raise e => ("❌ 连接失败: " +:+ exn_str e, self1, calls2)
      | Return conn =>
          ("✅ 成功连接到 " +:+ upper db_type +:+ " 数据库",
           set_connection self1 (Some conn) (Some db_type)
             (<["db_type" := InfoStr db_type]>
                (<["connection_string" := InfoStr connection_string]>
                   (<["connected_at" := InfoTime now]> ∅))),
           calls2)
      end
  end.

(** [DatabaseTool._handle_query], with the keyword argument [sql]. *)
Definition _handle_query (self : DatabaseTool) (kw_sql : option string)
    : string * DatabaseTool * list DriverCall :=
  match current_connection self with
  | None => (msg_not_connected, self, [])
  | Some conn =>
      let sql := strip (default "" kw_sql) in
      if negb (_is_safe_sql self sql) then (msg_unsafe_sql, self, [])
      else
        let db := default "None" (current_db_type self) in
        if bool_decide (current_db_type self = Some "sqlite")
           || bool_decide (current_db_type self = Some "mysql")
           || bool_decide (current_db_type self = Some "postgresql")
        then
          match run_query db conn (max_rows self) sql with
          | Return result => (result, self, [DriverQuery db conn sql])
          | Raise e =>
              ("❌ 查询执行失败: " +:+ exn_str e, self,
               [DriverQuery db conn sql])
          end
        else ("❌ 不支持的数据库类型: " +:+ db, self, [])
  end.

(** The operations through which a tool instance changes; the other
    actions ([show_tables], [describe], [status]) assign no attribute. *)
Inductive operation :=
| OpConnect (db_type connection_string : option string) (now : Q)
| OpQuery (sql : option string)
| OpDisconnect.

Definition apply_operation (self : DatabaseTool) (op : operation)
    : string * DatabaseTool * list DriverCall :=
  match op with
  | OpConnect ty cs now => _handle_connect self ty cs now
  | OpQuery sql => _handle_query self sql
  | OpDisconnect => _handle_disconnect self
  end.

(** The tool states an instance can be in: freshly constructed, or one
    operation after such a state. *)
Inductive reachable : DatabaseTool → Prop :=
| reach_init config my pg : reachable (__init__ config my pg)
| reach_step self op :
    reachable self → reachable (apply_operation self op).1.2.

End Handlers.

(** The filter as the specification words it: the read-only prefix, no
    deny-listed keyword, no comment marker, and no semicolon followed by
    further non-blank content. *)
Definition semicolon_then_nonblank (s : string) : Prop :=
  ∃ l r, s = l +:+ ";" +:+ r ∧ forall_str is_space r = false.

Definition spec_safe_sql (self : DatabaseTool) (sql : string) : Prop :=
  let s := strip (lower sql) in
  startswith "select" s = true
  ∧ (∀ kw, In kw (forbidden_keywords self) → ¬ contains kw s)
  ∧ ¬ contains "--" s ∧ ¬ contains "/*" s ∧ ¬ contains "*/" s
  ∧ ¬ semicolon_then_nonblank s.

(** A semicolon followed, later in the text, by a word character. *)
Definition semicolon_then_word (s : string) : Prop :=
  ∃ l mid w r, s = l +:+ ";" +:+ mid +:+ String w r ∧ is_word w = true.

(** The same with no line feed between the two, which is what the
    pattern [;.*\w] finds. *)
Definition semicolon_then_word_on_line (s : string) : Prop :=
  ∃ l mid w r,
    s = l +:+ ";" +:+ mid +:+ String w r
    ∧ forall_str (fun c => negb (Ascii.eqb c newline)) mid = true
    ∧ is_word w = true.

Definition single_line (s : string) : Prop :=
  forall_str (fun c => negb (Ascii.eqb c newline)) s = true.

(** A result "identifies the disallowed keyword" of a statement when it
    mentions, in any letter case, a deny-listed keyword that the statement
    contains. *)
Definition names_disallowed_keyword (self : DatabaseTool)
    (sql result : string) : Prop :=
  ∃ kw, In kw (forbidden_keywords self)
        ∧ contains kw (lower sql) ∧ contains kw (lower result).

(** The repository tells an error result by its cross mark, as
    [query_database] does with [if "❌" in connect_result]. *)
Definition is_error_result (result : string) : bool := str_in "❌" result.

(** With no connection, the type and the info dictionary are empty too. *)
Definition cleared (self : DatabaseTool) : Prop :=
  current_connection self = None →
  current_db_type self = None ∧ connection_info self = ∅.

(** A tool holding a live connection, as left by a successful connect. *)
Definition connected_tool (conn : Connection) (db_type cs : string) (now : Q)
    : DatabaseTool :=
  set_connection (__init__ ∅ false false) (Some conn) (Some db_type)
    (<["db_type" := InfoStr db_type]>
       (<["connection_string" := InfoStr cs]>
          (<["connected_at" := InfoTime now]> ∅))).

Definition memory_connection : Connection :=
  {| conn_label := ":memory:"; has_close := true; close_raises := None |}.

(** A driver whose every query succeeds with an empty result set. *)
Definition empty_result_driver (db_type : string) (c : Connection)
    (limit : Z) (sql : string) : outcome string :=
  Return "📊 查询完成，没有返回数据".

End Database.

(** ** tools/database.py: the actions and the result table *)

Module DatabaseActions.
Import Py PyText Re Database.

(** A fetched row: [str(cell)] for each cell, [None] for SQL NULL. *)
Definition Row : Type := list (option string).

Definition index_error : exn :=
  mk_exn OtherException "list index out of range".

Definition cell_str (cell : option string) : string := default "NULL" cell.

(** The inner loop of the width computation, from cell number [i] on:
    [col_widths[i] = max(col_widths[i], len(cell_str))]. *)
Fixpoint widen_row (col_widths : list nat) (i : nat) (row : Row)
    : outcome (list nat) :=
  match row with
  | [] => Return col_widths
  | cell :: rest =>
      match col_widths !! i with
      | None => Raise index_error
      | Some width =>
          widen_row (<[i := Nat.max width (len (cell_str cell))]> col_widths)
            (S i) rest
      end
  end.

Fixpoint widen_rows (col_widths : list nat) (rows : list Row)
    : outcome (list nat) :=
  match rows with
  | [] => Return col_widths
  | row :: rest =>
      match widen_row col_widths 0 row with
      | Raise e => Raise e
      | Return col_widths' => widen_rows col_widths' rest
      end
  end.

Definition max_col_width : nat := 30.

(** The texts joined into the header, from column number [i] on. *)
Fixpoint header_cells (col_widths : list nat) (i : nat)
    (columns : list string) : outcome (list string) :=
  match columns with
  | [] => Return []
  | col :: rest =>
      match col_widths !! i with
      | None => Raise index_error
      | Some width =>
          match header_cells col_widths (S i) rest with
          | Raise e => Raise e
          | Return cells => Return (ljust width col :: cells)
          end
      end
  end.

(** The texts joined into a data line, from cell number [i] on. *)
Fixpoint row_cells (col_widths : list nat) (i : nat) (row : Row)
    : outcome (list string) :=
  match row with
  | [] => Return []
  | cell :: rest =>
      match col_widths !! i with
      | None => Raise index_error
      | Some width =>
          match row_cells col_widths (S i) rest with
          | Raise e => Raise e
          | Return cells =>
              Return (match cell with
                      | Some s => ljust width (slice_to width s)
                      | None => ljust width "NULL"
                      end :: cells)
          end
      end
  end.

Definition row_line (col_widths : list nat) (row : Row) : outcome string :=
  cells ← row_cells col_widths 0 row; mret (join " | " cells).

(** The [lines] of [_format_query_result]: header, rule, data lines. *)
Definition table_lines (columns : list string) (rows : list Row)
    : outcome (list string) :=
  widths ← widen_rows (map len columns) rows;
  let col_widths := map (fun width => Nat.min width max_col_width) widths in
  cells ← header_cells col_widths 0 columns;
  let header := join " | " cells in
  data ← map_outcome (row_line col_widths) rows;
  mret (header :: repeat_char "-" (len header) :: data).

Definition msg_no_data : string := "📊 查询完成，没有返回数据".

(** The line under the table. *)
Definition footer (self : DatabaseTool) (rows : list Row) : string :=
  if max_rows self <=? Z.of_nat (length rows) then
    "📊 显示前 " +:+ str_of_Z (max_rows self) +:+ " 行结果（可能还有更多数据）"
  else "📊 共 " +:+ str_of_Z (Z.of_nat (length rows)) +:+ " 行结果".

(** [DatabaseTool._format_query_result]. *)
Definition _format_query_result (self : DatabaseTool)
    (columns : list string) (rows : list Row) : outcome string :=
  match rows with
  | [] => Return msg_no_data
  | _ =>
      lines ← table_lines columns rows;
      mret (join (String newline "") lines
              +:+ String newline (String newline "") +:+ footer self rows)
  end.

(** The keyword arguments the tool reads; an absent key is [None]. *)
Record Kwargs := mk_kwargs {
  kw_action : option string;
  kw_db_type : option string;
  kw_connection_string : option string;
  kw_sql : option string;
  kw_table : option string
}.

Definition valid_actions : list string :=
  ["connect"; "query"; "disconnect"; "show_tables"; "describe"; "status"].

(** [DatabaseTool.validate_args]. *)
Definition validate_args (self : DatabaseTool) (kwargs : Kwargs) : bool :=
  match kw_action kwargs with
  | None | Some EmptyString => false
  | Some action =>
      if negb (bool_decide (action ∈ valid_actions)) then false
      else if bool_decide (action = "connect") then
        match kw_db_type kwargs with
        | None => false
        | Some db_type =>
            match supported_databases self !! lower db_type with
            | None => false
            | Some false => false
            | Some true => true
            end
        end
      else if bool_decide (action = "query") then
        match kw_sql kwargs with
        | None => false
        | Some _ => true
        end
      else true
  end.

Definition sql_sqlite_tables : string :=
  "SELECT name FROM sqlite_master WHERE type='table'".
Definition sql_mysql_tables : string := "SHOW TABLES".
Definition sql_postgresql_tables : string :=
  "SELECT tablename FROM pg_tables WHERE schemaname='public'".

Definition msg_no_connection : string := "❌ 未连接到数据库".
Definition msg_unsupported_type (self : DatabaseTool) : string :=
  "❌ 不支持的数据库类型: " +:+ default "None" (current_db_type self).

Section Actions.

Variable connect_driver : string → string → outcome Connection.
Variable run_query : string → Connection → Z → string → outcome string.

(** [cursor.execute] on a PRAGMA statement followed by [fetchall()]. *)
Variable pragma_rows : Connection → string → outcome (list Row).

(** The text of [f"{connected_time:.1f}"], and [str] of a time. *)
Variable format_seconds : Q → string.
Variable str_of_time : Q → string.

(** [DatabaseTool._handle_show_tables]. *)
Definition _handle_show_tables (self : DatabaseTool)
    : string * DatabaseTool * list DriverCall :=
  match current_connection self with
  | None => (msg_no_connection, self, [])
  | Some _ =>
      if bool_decide (current_db_type self = Some "sqlite") then
        _handle_query run_query self (Some sql_sqlite_tables)
      else if bool_decide (current_db_type self = Some "mysql") then
        _handle_query run_query self (Some sql_mysql_tables)
      else if bool_decide (current_db_type self = Some "postgresql") then
        _handle_query run_query self (Some sql_postgresql_tables)
      else (msg_unsupported_type self, self, [])
  end.

Definition pragma_table_info (table : string) : string :=
  "PRAGMA table_info(" +:+ table +:+ ")".
Definition sql_mysql_describe (table : string) : string :=
  "DESCRIBE " +:+ table.
Definition sql_postgresql_describe (table : string) : string :=
  "SELECT column_name, data_type, is_nullable FROM "
    +:+ "information_schema.columns WHERE table_name='" +:+ table +:+ "'".

Definition msg_describe_failed (e : exn) : string :=
  "❌ 获取表结构失败: " +:+ exn_str e.

(** [DatabaseTool._handle_describe]. *)
Definition _handle_describe (self : DatabaseTool) (kwargs : Kwargs)
    : string * DatabaseTool * list DriverCall :=
  match current_connection self with
  | None => (msg_no_connection, self, [])
  | Some conn =>
      match kw_table kwargs with
      | None | Some EmptyString => ("❌ 需要指定表名", self, [])
      | Some table =>
          if bool_decide (current_db_type self = Some "sqlite") then
            let calls := [DriverQuery "sqlite" conn (pragma_table_info table)] in
            match pragma_rows conn (pragma_table_info table) with
            | Raise e => (msg_describe_failed e, self, calls)
            | Return [] =>
                ("❌ 表 '" +:+ table +:+ "' 不存在或无权限访问", self, calls)
            | Return rows =>
                match _format_query_result self
                        ["cid"; "name"; "type"; "notnull"; "dflt_value"; "pk"]
                        rows with
                | Raise e => (msg_describe_failed e, self, calls)
                | Return text => (text, self, calls)
                end
            end
          else if bool_decide (current_db_type self = Some "mysql") then
            _handle_query run_query self (Some (sql_mysql_describe table))
          else if bool_decide (current_db_type self = Some "postgresql") then
            _handle_query run_query self (Some (sql_postgresql_describe table))
          else (msg_unsupported_type self, self, [])
      end
  end.

Definition attribute_error : exn :=
  mk_exn OtherException "'float' object has no attribute 'upper'".

(** [DatabaseTool._handle_status] at event-loop time [now]. *)
Definition _handle_status (self : DatabaseTool) (now : Q) : outcome string :=
  match current_connection self with
  | None => Return "📊 数据库状态: 未连接"
  | Some _ =>
      let info := connection_info self in
      connected_at ←
        match info !! "connected_at" with
        | None => Return 0%Q
        | Some (InfoTime t) => Return t
        | Some (InfoStr _) =>
            Raise (mk_exn TypeError
                     "unsupported operand type(s) for -: 'float' and 'str'")
        end;
      db_type ←
        match info !! "db_type" with
        | None => Return "unknown"
        | Some (InfoStr s) => Return s
        | Some (InfoTime _) => Raise attribute_error
        end;
      connection_string ←
        match info !! "connection_string" with
        | None => Return "unknown"
        | Some (InfoStr s) => Return s
        | Some (InfoTime t) => Return (str_of_time t)
        end;
      mret ("📊 数据库连接状态:" +:+ String newline ""
            +:+ "🔗 数据库类型: " +:+ upper db_type +:+ String newline ""
            +:+ "⏱️ 连接时长: " +:+ format_seconds (now - connected_at)%Q
            +:+ "秒" +:+ String newline ""
            +:+ "📍 连接信息: " +:+ connection_string +:+ String newline ""
            +:+ "✅ 状态: 已连接")
  end.

(** [DatabaseTool.execute] at event-loop time [now]. *)
Definition execute (self : DatabaseTool) (kwargs : Kwargs) (now : Q)
    : string * DatabaseTool * list DriverCall :=
  let action := kw_action kwargs in
  if bool_decide (action = Some "connect") then
    _handle_connect connect_driver self (kw_db_type kwargs)
      (kw_connection_string kwargs) now
  else if bool_decide (action = Some "query") then
    _handle_query run_query self (kw_sql kwargs)
  else if bool_decide (action = Some "disconnect") then
    _handle_disconnect self
  else if bool_decide (action = Some "show_tables") then
    _handle_show_tables self
  else if bool_decide (action = Some "describe") then
    _handle_describe self kwargs
  else if bool_decide (action = Some "status") then
    match _handle_status self now with
    | Return text => (text, self, [])
    | Raise e => ("❌ 数据库操作失败: " +:+ exn_str e, self, [])
    end
  else ("❌ 不支持的操作: " +:+ default "None" action, self, []).

End Actions.

(** The open connection agrees with the recorded type, which is one of
    the three the tool knows. *)
Definition typed_connection (self : DatabaseTool) : Prop :=
  ∀ conn, current_connection self = Some conn →
    current_db_type self = Some "sqlite"
    ∨ current_db_type self = Some "mysql"
    ∨ current_db_type self = Some "postgresql".

(** One step of the width loop, and one cell of a data line. *)
Definition widen (width : nat) (cell : option string) : nat :=
  Nat.max width (len (cell_str cell)).

Definition render (width : nat) (cell : option string) : string :=
  match cell with
  | Some s => ljust width (slice_to width s)
  | None => ljust width "NULL"
  end.

(** The length of a line of [n] cells of the given widths, joined by
    the three characters of the separator. *)
Definition table_width (n : nat) (col_widths : list nat) : nat :=
  (sum_list col_widths + 3 * (n - 1))%nat.

Definition kwargs_of (action : string) : Kwargs :=
  {| kw_action := Some action; kw_db_type := None;
     kw_connection_string := None; kw_sql := None; kw_table := None |}.


(** Drivers for the scenarios: every connect gives the in-memory
    connection, and a PRAGMA finds no row. *)
Definition memory_driver (db_type connection_string : string)
    : outcome Connection :=
  Return memory_connection.

Definition no_pragma_rows (c : Connection) (sql : string)
    : outcome (list Row) :=
  Return [].

Definition table_kwargs (action table : string) : Kwargs :=
  {| kw_action := Some action; kw_db_type := None;
     kw_connection_string := None; kw_sql := None; kw_table := Some table |}.

Definition connect_kwargs (db_type connection_string : string) : Kwargs :=
  {| kw_action := Some "connect"; kw_db_type := Some db_type;
     kw_connection_string := Some connection_string; kw_sql := None;
     kw_table := None |}.


Definition query_kwargs_of (sql : string) : Kwargs :=
  {| kw_action := Some "query"; kw_db_type := None;
     kw_connection_string := None; kw_sql := Some sql; kw_table := None |}.

Section Convenience.

Variable connect_driver : string → string → outcome Connection.
Variable run_query : string → Connection → Z → string → outcome string.
Variable pragma_rows : Connection → string → outcome (list Row).
Variable format_seconds : Q → string.
Variable str_of_time : Q → string.

(** The module function [query_database]: a new tool, then connect,
    query and disconnect through [execute].  It gives the returned text
    and the driver calls made. *)
Definition query_database (MYSQL_AVAILABLE POSTGRESQL_AVAILABLE : bool)
    (db_type connection_string sql : string) (now : Q)
    : string * list DriverCall :=
  let execute :=
    execute connect_driver run_query pragma_rows format_seconds
      str_of_time in
  let db_tool := __init__ ∅ MYSQL_AVAILABLE POSTGRESQL_AVAILABLE in
  let '(connect_result, db_tool, calls1) :=
    execute db_tool (connect_kwargs db_type connection_string) now in
  if str_in "❌" connect_result then (connect_result, calls1)
  else
    let '(query_result, db_tool, calls2) :=
      execute db_tool (query_kwargs_of sql) now in
    let '(_, _, calls3) := execute db_tool (kwargs_of "disconnect") now in
    (query_result, calls1 ++ calls2 ++ calls3).

End Convenience.

End DatabaseActions.

(* ================================================================== *)
(** * Python floats: binary64 values and their rendering *)
(* ================================================================== *)

Module PyFloat.
Import Py.

(** A [float] is a [spec_float]: a zero, an infinity, a NaN, or
    [(-1)^s * m * 2^e].  The functions below work on the exact value, so
    they do not depend on the mantissa being normalised. *)

Definition prec : Z := 53.
Definition emax : Z := 1024.

(** The exact value of [m * 2^e] as a fraction [numerator / denominator]. *)
Definition numerator (m : positive) (e : Z) : Z :=
  if 0 <=? e then Z.pos m * 2 ^ e else Z.pos m.

Definition denominator (e : Z) : Z :=
  if 0 <=? e then 1 else 2 ^ (- e).

(** [x.is_integer()]. *)
Definition is_integer (x : spec_float) : bool :=
  match x with
  | S754_zero _ => true
  | S754_infinity _ | S754_nan => false
  | S754_finite _ m e => numerator m e mod denominator e =? 0
  end.

(** [int(x)] for a finite [x]: truncation towards zero. *)
Definition truncate (x : spec_float) : Z :=
  match x with
  | S754_finite s m e =>
      let q := numerator m e / denominator e in
      if s then - q else q
  | _ => 0
  end.

(** [abs(x) >= n] for an integer [n]; Python compares the exact values,
    and every comparison with a NaN is false. *)
Definition abs_ge (x : spec_float) (n : Z) : bool :=
  match x with
  | S754_nan => false
  | S754_infinity _ => true
  | S754_zero _ => n <=? 0
  | S754_finite _ m e => n * denominator e <=? numerator m e
  end.

(** Rounding [n / d] to the nearest integer, ties to even ([0 < d]). *)
Definition round_half_even (n d : Z) : Z :=
  let q := n / d in
  match 2 * (n mod d) ?= d with
  | Lt => q
  | Gt => q + 1
  | Eq => if Z.even q then q else q + 1
  end.

(** The number of decimal digits of [n >= 1], minus one. *)
Fixpoint ilog10 (fuel : nat) (n : Z) : Z :=
  match fuel with
  | O => 0
  | S fuel' => if n <? 10 then 0 else 1 + ilog10 fuel' (n / 10)
  end.

(** For [0 < n < d]: the least [j >= 1] with [d <= n * 10^j]. *)
Fixpoint first_scale (fuel : nat) (j n d : Z) : Z :=
  match fuel with
  | O => j
  | S fuel' => if d <=? n * 10 ^ j then j else first_scale fuel' (j + 1) n d
  end.

(** The decimal exponent of [n / d > 0]: the [k] with
    [10^k <= n / d < 10^(k+1)]. *)
Definition decimal_exponent (n d : Z) : Z :=
  if d <=? n then ilog10 (S (Z.to_nat (Z.log2 n))) (n / d)
  else - first_scale (S (Z.to_nat (Z.log2 d))) 1 n d.

(** [n / d * 10^j] rounded to an integer. *)
Definition round_scaled (n d j : Z) : Z :=
  if 0 <=? j then round_half_even (n * 10 ^ j) d
  else round_half_even n (d * 10 ^ (- j)).

(** [n / d] rounded to [digits] significant digits: the digits as an
    integer [q] with [10^(digits-1) <= q < 10^digits], and the decimal
    exponent [k] of the rounded value, so that it is
    [q * 10^(k - digits + 1)]. *)
Definition round_significant (digits : Z) (n d : Z) : Z * Z :=
  let k := decimal_exponent n d in
  let q := round_scaled n d (digits - 1 - k) in
  if q =? 10 ^ digits then (10 ^ (digits - 1), k + 1) else (q, k).

Definition sign_string (s : bool) : string := if s then "-" else "".

Fixpoint zeros (n : nat) : string :=
  match n with
  | O => ""
  | S n' => String "0" (zeros n')
  end.

(** [str(n).rjust(width, "0")] for [n >= 0]. *)
Definition pad_left (width : nat) (n : Z) : string :=
  let t := str_of_Z n in
  zeros (width - String.length t) +:+ t.

(** Drop the zeros at the end. *)
Definition strip_zeros (s : string) : string :=
  let fix go (s : string) : string :=
    match s with
    | EmptyString => EmptyString
    | String c t =>
        match go t with
        | EmptyString =>
            if Ascii.eqb c "0" then EmptyString else String c EmptyString
        | t' => String c t'
        end
    end in
  go s.

Definition with_point (int_part frac_part : string) : string :=
  match frac_part with
  | EmptyString => int_part
  | _ => int_part +:+ "." +:+ frac_part
  end.

(** The exponent part: a sign and at least two digits. *)
Definition exponent_string (k : Z) : string :=
  "e" +:+ (if k <? 0 then "-" else "+") +:+ pad_left 2 (Z.abs k).

(** [q], which has [decimals + 1] digits, as [d.ddd]. *)
Definition mantissa_string (q : Z) (strip : bool) : string :=
  match str_of_Z q with
  | EmptyString => EmptyString
  | String c t =>
      with_point (String c "") (if strip then strip_zeros t else t)
  end.

(** [q / 10^decimals] in fixed notation with [decimals] digits after the
    point. *)
Definition fixed_string (q : Z) (decimals : nat) (strip : bool) : string :=
  let scale := 10 ^ Z.of_nat decimals in
  let frac := match decimals with
              | O => ""
              | _ => pad_left decimals (q mod scale)
              end in
  with_point (str_of_Z (q / scale)) (if strip then strip_zeros frac else frac).

(** [format(x, ".<decimals>e")]. *)
Definition format_e (decimals : nat) (x : spec_float) : string :=
  match x with
  | S754_nan => "nan"
  | S754_infinity s => sign_string s +:+ "inf"
  | S754_zero s =>
      sign_string s +:+ with_point "0" (zeros decimals) +:+ exponent_string 0
  | S754_finite s m e =>
      let '(q, k) :=
        round_significant (Z.of_nat decimals + 1)
          (numerator m e) (denominator e) in
      sign_string s +:+ mantissa_string q false +:+ exponent_string k
  end.

(** [format(x, ".<decimals>f")]. *)
Definition format_f (decimals : nat) (x : spec_float) : string :=
  match x with
  | S754_nan => "nan"
  | S754_infinity s => sign_string s +:+ "inf"
  | S754_zero s => sign_string s +:+ with_point "0" (zeros decimals)
  | S754_finite s m e =>
      let q := round_scaled (numerator m e) (denominator e)
                 (Z.of_nat decimals) in
      sign_string s +:+ fixed_string q decimals false
  end.

(** [format(x, ".<digits>g")] for [digits >= 1]: fixed notation when the
    decimal exponent of the rounded value is in [-4, digits), scientific
    otherwise, without trailing zeros. *)
Definition format_g (digits : nat) (x : spec_float) : string :=
  match x with
  | S754_nan => "nan"
  | S754_infinity s => sign_string s +:+ "inf"
  | S754_zero s => sign_string s +:+ "0"
  | S754_finite s m e =>
      let '(q, k) :=
        round_significant (Z.of_nat digits)
          (numerator m e) (denominator e) in
      sign_string s +:+
      (if (-4 <=? k) && (k <? Z.of_nat digits)
       then fixed_string q (Z.to_nat (Z.of_nat digits - 1 - k)) true
       else mantissa_string q true +:+ exponent_string k)
  end.



Definition float_ten_thirds : spec_float :=
  S754_finite false 7505999378950827 (-51).

End PyFloat.

(* ================================================================== *)
(** * tools/calculator.py *)
(* ================================================================== *)

Module Calculator.
Import Py PyFloat.

(** The objects an expression can evaluate to: [int], [bool], [float],
    and any other object (a function of the table, a string, a complex
    number, ...), kept as its [str()]. *)
Inductive value :=
| VInt (n : Z)
| VBool (b : bool)
| VFloat (x : spec_float)
| VObject (text : string).

(** [bool] is a subclass of [int]. *)
Definition isinstance_int (v : value) : bool :=
  match v with VInt _ | VBool _ => true | _ => false end.
Definition isinstance_float (v : value) : bool :=
  match v with VFloat _ => true | _ => false end.
Definition isinstance_bool (v : value) : bool :=
  match v with VBool _ => true | _ => false end.

(** Python's [ast] nodes, under their own names. *)
Module ast.

Local Set Warnings "-register-all".

Inductive operator :=
| Add | Sub | Mult | MatMult | Div | Mod | Pow
| LShift | RShift | BitOr | BitXor | BitAnd | FloorDiv.

Inductive unaryop := Invert | Not | UAdd | USub.

Inductive cmpop := Eq | NotEq | Lt | LtE | Gt | GtE | Is | IsNot | In | NotIn.

(** Expression nodes.  [Compare] carries [zip(ops, comparators)];
    [Call] carries the positional arguments, the only ones the
    calculator reads; [Other] is any node class the calculator does not
    know, by its class name. *)
Inductive expr :=
| Constant (v : value)
| Name (id : string)
| BinOp (left : expr) (op : operator) (right : expr)
| UnaryOp (op : unaryop) (operand : expr)
| Call (func : expr) (args : list expr)
| Compare (left : expr) (rest : list (cmpop * expr))
| Other (class_name : string).

(** [str(type(node))] for a node of class [class_name]. *)
Definition class_text (class_name : string) : string :=
  "<class 'ast." +:+ class_name +:+ "'>".

Definition operator_name (op : operator) : string :=
  match op with
  | Add => "Add" | Sub => "Sub" | Mult => "Mult" | MatMult => "MatMult"
  | Div => "Div" | Mod => "Mod" | Pow => "Pow" | LShift => "LShift"
  | RShift => "RShift" | BitOr => "BitOr" | BitXor => "BitXor"
  | BitAnd => "BitAnd" | FloorDiv => "FloorDiv"
  end.

Definition unaryop_name (op : unaryop) : string :=
  match op with
  | Invert => "Invert" | Not => "Not" | UAdd => "UAdd" | USub => "USub"
  end.

Definition cmpop_name (op : cmpop) : string :=
  match op with
  | Eq => "Eq" | NotEq => "NotEq" | Lt => "Lt" | LtE => "LtE" | Gt => "Gt"
  | GtE => "GtE" | Is => "Is" | IsNot => "IsNot" | In => "In"
  | NotIn => "NotIn"
  end.

End ast.

(** An entry of [self.functions]: a callable, or one of the two float
    constants. *)
Inductive table_entry :=
| Callable
| FloatConstant (x : spec_float).

Definition math_pi : spec_float := S754_finite false 7074237752028440 (-51).
Definition math_e : spec_float := S754_finite false 6121026514868073 (-51).

(** [self.functions]. *)
Definition functions : list (string * table_entry) :=
  [ ("abs", Callable); ("round", Callable); ("max", Callable);
    ("min", Callable); ("sum", Callable); ("sqrt", Callable);
    ("sin", Callable); ("cos", Callable); ("tan", Callable);
    ("log", Callable); ("log10", Callable); ("exp", Callable);
    ("ceil", Callable); ("floor", Callable);
    ("pi", FloatConstant math_pi); ("e", FloatConstant math_e) ].

Fixpoint lookup_function (id : string) (table : list (string * table_entry))
    : option table_entry :=
  match table with
  | [] => None
  | (k, entry) :: rest =>
      if String.eqb id k then Some entry else lookup_function id rest
  end.

(** The keys of [self.operators]. *)
Definition supported_operator (op : ast.operator) : bool :=
  match op with
  | ast.Add | ast.Sub | ast.Mult | ast.Div | ast.FloorDiv | ast.Mod
  | ast.Pow => true
  | _ => false
  end.

Definition supported_unaryop (op : ast.unaryop) : bool :=
  match op with
  | ast.USub | ast.UAdd => true
  | _ => false
  end.

Definition supported_cmpop (op : ast.cmpop) : bool :=
  match op with
  | ast.Lt | ast.LtE | ast.Gt | ast.GtE | ast.Eq | ast.NotEq => true
  | _ => false
  end.

Section Rendering.

(** [repr] of a float, Python's shortest text that reads back as the same
    float, is not modelled; it is a parameter. *)
Variable float_repr : spec_float → string.

(** The [str()] of an object. *)
Definition str (v : value) : string :=
  match v with
  | VInt n => str_of_Z n
  | VBool b => if b then "True" else "False"
  | VFloat x => float_repr x
  | VObject text => text
  end.

(** [int(result)] and the float behind a [float] object. *)
Definition int (v : value) : Z :=
  match v with
  | VInt n => n
  | VBool b => if b then 1 else 0
  | VFloat x => truncate x
  | VObject _ => 0
  end.

Definition float_of (v : value) : spec_float :=
  match v with
  | VFloat x => x
  | _ => S754_nan
  end.

(** [Calculator._format_result].  The first test is
    [isinstance(result, int) or (isinstance(result, float) and
    result.is_integer())]; the float branch always returns; the [bool]
    test comes third. *)
Definition _format_result (result : value) (precision : option Z)
    : outcome string :=
  if isinstance_int result
     || (isinstance_float result && is_integer (float_of result))
  then Return (str_of_Z (int result))
  else if isinstance_float result then
    match precision with
    | Some p =>
        if p <? 0
        then Raise (mk_exn ValueError "Format specifier missing precision")
        else Return (format_f (Z.to_nat p) (float_of result))
    | None =>
        if abs_ge (float_of result) 1000
        then Return (format_e 2 (float_of result))
        else if abs_ge (float_of result) 1
        then Return (format_g 6 (float_of result))
        else Return (format_g 6 (float_of result))
    end
  else if isinstance_bool result
  then Return (if int result =? 0 then "False" else "True")
  else Return (str result).

End Rendering.

(** The first [for] loop of [_preprocess_expression]: the five symbol
    replacements, in source order. *)
Definition replacements : list (string * string) :=
  [ ("×", "*"); ("÷", "/"); ("²", "**2"); ("³", "**3"); ("√", "sqrt") ].

(** [re.sub(r'(\d)<c>', r'\1*<c>', s)] for a one-character class [c]:
    a star goes between a digit and a following character of the class. *)
Fixpoint star_after_digit (follows : ascii → bool) (s : string) : string :=
  match s with
  | String d (String c rest as t) =>
      if is_digit d && follows c
      then String d (String "*" (String c (star_after_digit follows rest)))
      else String d (star_after_digit follows t)
  | _ => s
  end.

(** [Calculator._preprocess_expression]. *)
Definition _preprocess_expression (expression : string) : string :=
  let processed :=
    fold_left (fun acc r => replace r.1 r.2 acc) replacements expression in
  let processed := star_after_digit is_alpha processed in
  let processed := star_after_digit (Ascii.eqb "(") processed in
  processed.

(** The keyword arguments [execute] reads. *)
Record Kwargs := mk_kwargs {
  expression : option string;
  precision : option Z
}.

Section Evaluator.

Variable float_repr : spec_float → string.

(** Python's own arithmetic is outside the repository: the functions of
    the [operator] module, the comparison operators, the callables stored
    in [self.functions], and [ast.parse(_, mode='eval')] (which yields the
    body of the parsed expression, or raises). *)
Variable operator_binary : ast.operator → value → value → outcome value.
Variable operator_unary : ast.unaryop → value → outcome value.
Variable compare : ast.cmpop → value → value → outcome bool.
Variable call_function : string → list value → outcome value.
Variable ast_parse : string → outcome ast.expr.

(** The loop of the [Compare] case, from the link that starts at [left_]. *)
Section Chain.
Variable eval : ast.expr → outcome value.

Fixpoint compare_chain (left_ : value) (rest : list (ast.cmpop * ast.expr))
    : outcome value :=
  match rest with
  | [] => Return (VBool true)
  | (op, comparator) :: rest' =>
      match eval comparator with
      | Raise e => Raise e
      | Return right_ =>
          if supported_cmpop op then
            match compare op left_ right_ with
            | Raise e => Raise e
            | Return result =>
                if negb result then Return (VBool false)
                else compare_chain right_ rest'
            end
          else Raise (mk_exn TypeError
                        ("不支持的比较运算符: "
                           +:+ ast.class_text (ast.cmpop_name op)))
      end
  end.

End Chain.

(** [Calculator._eval_node]. *)
Fixpoint _eval_node (node : ast.expr) : outcome value :=
  match node with
  | ast.Constant v => Return v
  | ast.Name id =>
      match lookup_function id functions with
      | Some Callable =>
          Return (VObject ("<built-in function " +:+ id +:+ ">"))
      | Some (FloatConstant x) => Return (VFloat x)
      | None => Raise (mk_exn NameError ("未知变量: " +:+ id))
      end
  | ast.BinOp l op r =>
      match _eval_node l with
      | Raise e => Raise e
      | Return left_ =>
          match _eval_node r with
          | Raise e => Raise e
          | Return right_ =>
              if supported_operator op then operator_binary op left_ right_
              else Raise (mk_exn TypeError
                            ("不支持的运算符: "
                               +:+ ast.class_text (ast.operator_name op)))
          end
      end
  | ast.UnaryOp op o =>
      match _eval_node o with
      | Raise e => Raise e
      | Return operand =>
          if supported_unaryop op then operator_unary op operand
          else Raise (mk_exn TypeError
                        ("不支持的一元运算符: "
                           +:+ ast.class_text (ast.unaryop_name op)))
      end
  | ast.Call func args =>
      let func_name :=
        match func with ast.Name id => Some id | _ => None end in
      match func_name with
      | None => Raise (mk_exn NameError "未知函数: None")
      | Some id =>
          match lookup_function id functions with
          | None => Raise (mk_exn NameError ("未知函数: " +:+ id))
          | Some entry =>
              match map_outcome _eval_node args with
              | Raise e => Raise e
              | Return values =>
                  match entry with
                  | Callable => call_function id values
                  | FloatConstant _ =>
                      Raise (mk_exn TypeError
                               "'float' object is not callable")
                  end
              end
          end
      end
  | ast.Compare l rest =>
      match _eval_node l with
      | Raise e => Raise e
      | Return left_ => compare_chain _eval_node left_ rest
      end
  | ast.Other class_name =>
      Raise (mk_exn TypeError
               ("不支持的节点类型: " +:+ ast.class_text class_name))
  end.

(** [Calculator._safe_eval]: whatever is raised inside is raised again as
    a [SyntaxError]. *)
Definition _safe_eval (expression : string) : outcome value :=
  match ast_parse expression ≫= _eval_node with
  | Return v => Return v
  | Raise e => Raise (mk_exn SyntaxError ("表达式解析失败: " +:+ exn_str e))
  end.

(** [Calculator.execute]. *)
Definition execute (kwargs : Kwargs) : string :=
  let expression := strip (default "" (expression kwargs)) in
  let precision := precision kwargs in
  let processed_expr := _preprocess_expression expression in
  match _safe_eval processed_expr ≫=
          (fun result => _format_result float_repr result precision) with
  | Return formatted_result =>
      "计算结果: " +:+ expression +:+ " = " +:+ formatted_result
  | Raise e =>
      match exn_type e with
      | ZeroDivisionError => "❌ 除零错误: " +:+ expression
      | ValueError => "❌ 数值错误: " +:+ exn_str e
      | SyntaxError => "❌ 语法错误: " +:+ exn_str e
      | _ => "❌ 计算失败: " +:+ exn_str e
      end
  end.

End Evaluator.





(** IEEE arithmetic for the scenarios: exact integers, binary64 floats
    rounded to nearest even, an integer operand of a float operation
    converted first.  Only the operations the scenarios use are given;
    the rest raise. *)
Definition float_of_int (n : Z) : spec_float :=
  binary_normalize prec emax n 0 false.

Definition as_float (v : value) : option spec_float :=
  match v with
  | VInt n => Some (float_of_int n)
  | VBool b => Some (float_of_int (if b then 1 else 0))
  | VFloat x => Some x
  | VObject _ => None
  end.

Definition unsupported {A} : outcome A :=
  Raise (mk_exn TypeError "unsupported operand").

Definition ieee_binary (op : ast.operator) (a b : value) : outcome value :=
  match op with
  | ast.Add | ast.Sub | ast.Mult =>
      if isinstance_int a && isinstance_int b then
        Return (VInt match op with
                     | ast.Add => int a + int b
                     | ast.Sub => int a - int b
                     | _ => int a * int b
                     end)
      else
        match as_float a, as_float b with
        | Some x, Some y =>
            Return (VFloat match op with
                           | ast.Add => SFadd prec emax x y
                           | ast.Sub => SFsub prec emax x y
                           | _ => SFmul prec emax x y
                           end)
        | _, _ => unsupported
        end
  | ast.Div =>
      match as_float a, as_float b with
      | Some x, Some y =>
          if is_integer y && (truncate y =? 0)
          then Raise (mk_exn ZeroDivisionError "division by zero")
          else Return (VFloat (SFdiv prec emax x y))
      | _, _ => unsupported
      end
  | _ => unsupported
  end.

Definition ieee_unary (op : ast.unaryop) (a : value) : outcome value :=
  match op, a with
  | ast.USub, VInt n => Return (VInt (- n))
  | ast.USub, VFloat x => Return (VFloat (SFopp x))
  | ast.UAdd, VInt n => Return (VInt n)
  | ast.UAdd, VFloat x => Return (VFloat x)
  | _, _ => unsupported
  end.

Definition ieee_compare (op : ast.cmpop) (a b : value) : outcome bool :=
  match as_float a, as_float b with
  | Some x, Some y =>
      match op with
      | ast.Lt => Return (SFltb x y)
      | ast.LtE => Return (SFleb x y)
      | ast.Gt => Return (SFltb y x)
      | ast.GtE => Return (SFleb y x)
      | ast.Eq => Return (SFeqb x y)
      | ast.NotEq => Return (negb (SFeqb x y))
      | _ => unsupported
      end
  | _, _ => unsupported
  end.

Definition ieee_call (id : string) (args : list value) : outcome value :=
  match args with
  | [a] =>
      match as_float a with
      | Some x =>
          if String.eqb id "sqrt" then
            match x with
            | S754_finite true _ _ | S754_infinity true =>
                Raise (mk_exn ValueError "math domain error")
            | _ => Return (VFloat (SFsqrt prec emax x))
            end
          else unsupported
      | None => unsupported
      end
  | _ => unsupported
  end.

(** What [ast.parse] yields for the texts of the scenarios. *)
Definition tree_sqrt16_plus_2 : ast.expr :=
  ast.BinOp (ast.Call (ast.Name "sqrt") [ast.Constant (VInt 16)])
    ast.Add (ast.Constant (VInt 2)).

Definition tree_1_lt_2 : ast.expr :=
  ast.Compare (ast.Constant (VInt 1)) [(ast.Lt, ast.Constant (VInt 2))].

Definition sample_parse (text : string) : outcome ast.expr :=
  if String.eqb text "sqrt(16) + 2" then Return tree_sqrt16_plus_2
  else if String.eqb text "1 < 2" then Return tree_1_lt_2
  else Raise (mk_exn SyntaxError "invalid syntax").


(** Two neighbouring characters, the first in [p] and the second in
    [q], somewhere in the text; [follows_from] starts with the character
    before the text. *)
Fixpoint follows_from (p q : ascii → bool) (a : ascii) (s : string) : bool :=
  match s with
  | EmptyString => false
  | String b t => (p a && q b) || follows_from p q b t
  end.

Definition adjacent (p q : ascii → bool) (s : string) : bool :=
  match s with
  | EmptyString => false
  | String a t => follows_from p q a t
  end.

(** What may follow a digit only with a star in between: a letter or an
    opening bracket. *)
Definition letter_or_bracket (c : ascii) : bool :=
  is_alpha c || Ascii.eqb "(" c.

(** A table of callables that agrees with the IEEE one on the names of
    [functions] and answers 0 for every other name. *)
Definition open_call (id : string) (args : list value) : outcome value :=
  match lookup_function id functions with
  | Some Callable => ieee_call id args
  | _ => Return (VInt 0)
  end.

(** Division by zero, as [ast.parse] gives it for [1/0]. *)
Definition tree_1_div_0 : ast.expr :=
  ast.BinOp (ast.Constant (VInt 1)) ast.Div (ast.Constant (VInt 0)).

Definition parse_1_div_0 (text : string) : outcome ast.expr :=
  if String.eqb text "1/0" then Return tree_1_div_0
  else Raise (mk_exn SyntaxError "invalid syntax").

Definition expression_kwargs (text : string) : Kwargs :=
  {| expression := Some text; precision := None |}.

End Calculator.

(* ================================================================== *)
(** * tools/python_executor.py *)
(* ================================================================== *)

Module PythonExecutor.
Import Py.

(** The keys of the configuration dictionary the constructor reads; an
    absent key is [None]. *)
Record Config := mk_config {
  cfg_timeout : option Z;
  cfg_max_output_length : option Z;
  cfg_allow_imports : option bool
}.

Definition empty_config : Config :=
  {| cfg_timeout := None; cfg_max_output_length := None;
     cfg_allow_imports := None |}.

(** The attributes of a [PythonExecutor]. *)
Record PythonExecutor := mk_executor {
  name : string;
  description : string;
  timeout : Z;
  max_output_length : Z;
  allow_imports : bool;
  execution_count : Z;
  total_execution_time : Q
}.

(** [PythonExecutor.__init__]. *)
Definition __init__ (config : option Config) : PythonExecutor :=
  let config := default empty_config config in
  {| name := "python_executor";
     description := "Python代码执行工具，支持安全执行Python代码片段";
     timeout := default 30 (cfg_timeout config);
     max_output_length := default 10000 (cfg_max_output_length config);
     allow_imports := default true (cfg_allow_imports config);
     execution_count := 0;
     total_execution_time := 0%Q |}.

(** What a run of [exec(code, safe_globals, safe_locals)] under
    [_run_with_timeout] leaves behind: whether it finished, raised or
    timed out, the text written to the two captured streams, and the
    [repr] of [safe_locals['_']] when the code bound that name. *)
Record Run := mk_run {
  finished : outcome ();
  stdout_content : string;
  stderr_content : string;
  underscore : option string
}.

Section Execution.

(** The restricted interpreter run, for a code string and a timeout. *)
Variable sandbox : string → Z → Run.

(** [PythonExecutor._execute_exec]. *)
Definition _execute_exec (self : PythonExecutor) (code : string)
    (timeout : Z) (capture_output : bool) : outcome string :=
  let run := sandbox code timeout in
  if capture_output then
    match finished run with
    | Raise e => Raise e
    | Return _ =>
        let result_parts :=
          (match stdout_content run with
           | EmptyString => []
           | out => ["输出:" +:+ String newline "" +:+ out]
           end)
          ++ (match stderr_content run with
              | EmptyString => []
              | err => ["错误:" +:+ String newline "" +:+ err]
              end)
          ++ (match underscore run with
              | Some r => ["最后表达式结果: " +:+ r]
              | None => []
              end) in
        match result_parts with
        | [] => Return "执行完成，无输出"
        | _ => Return (join (String newline "") result_parts)
        end
    end
  else
    match finished run with
    | Raise e => Raise e
    | Return _ => Return "执行完成"
    end.

End Execution.

(** A run of [print('0123456789')]: ten digits and a line feed on the
    standard output. *)
Definition print_digits_run : Run :=
  {| finished := Return ();
     stdout_content := "0123456789" +:+ String newline "";
     stderr_content := "";
     underscore := None |}.

Definition print_digits_sandbox (code : string) (timeout : Z) : Run :=
  print_digits_run.

Definition short_output_config : Config :=
  {| cfg_timeout := None; cfg_max_output_length := Some 5;
     cfg_allow_imports := None |}.

End PythonExecutor.

(** ** tools/python_executor.py: the checks and [execute] *)

Module PythonExecutorRun.
Import Py PyText PythonExecutor.

(** The [dangerous_keywords] of [_check_code_safety], in source order. *)
Definition dangerous_keywords : list string :=
  ["import os"; "import subprocess"; "import shutil"; "import socket";
   "from os"; "from subprocess"; "from shutil"; "from socket";
   "__import__"; "eval("; "exec("; "compile("; "open(";
   "file("; "input("; "raw_input("].

(** [PythonExecutor._check_code_safety]: the first listed keyword found
    in the lowered code is the one reported. *)
Definition _check_code_safety (self : PythonExecutor) (code : string)
    : bool * string :=
  let code_lower := lower code in
  match List.find (fun keyword => str_in keyword code_lower)
          dangerous_keywords with
  | Some keyword => (false, "包含危险关键词: " +:+ keyword)
  | None =>
      if negb (allow_imports self)
         && (str_in "import " code_lower || str_in "from " code_lower)
      then (false, "不允许使用import语句")
      else if 50000 <? Z.of_nat (len code) then (false, "代码过长")
      else (true, "")
  end.

(** How [ast.parse(code, mode=mode)] can fail: a [SyntaxError] with its
    [lineno] and [msg], or another exception. *)
Inductive ParseError :=
| SyntaxErr (lineno : option Z) (msg : string)
| OtherErr (e : exn).

(** The keyword arguments [execute] reads; an absent key is [None]. *)
Record Kwargs := mk_kwargs {
  kw_code : option string;
  kw_mode : option string;
  kw_timeout : option Z;
  kw_capture_output : option bool
}.

Definition count_execution (self : PythonExecutor) : PythonExecutor :=
  {| name := name self; description := description self;
     timeout := timeout self; max_output_length := max_output_length self;
     allow_imports := allow_imports self;
     execution_count := execution_count self + 1;
     total_execution_time := total_execution_time self |}.

Definition add_execution_time (self : PythonExecutor) (t : Q)
    : PythonExecutor :=
  {| name := name self; description := description self;
     timeout := timeout self; max_output_length := max_output_length self;
     allow_imports := allow_imports self;
     execution_count := execution_count self;
     total_execution_time := (total_execution_time self + t)%Q |}.

Section Execute.

(** The interpreter, outside the repository: [ast.parse]; the run of
    [exec] under [_run_with_timeout]; the run of [eval] under it, giving
    the [repr] of the value; and the text of [f"{t:.3f}"]. *)
Variable ast_parse : string → string → option ParseError.
Variable sandbox : string → Z → Run.
Variable sandbox_eval : string → Z → outcome string.
Variable format_seconds : Q → string.

(** [PythonExecutor._check_syntax]. *)
Definition _check_syntax (code mode : string) : bool * string :=
  match ast_parse code mode with
  | None => (true, "")
  | Some (SyntaxErr lineno msg) =>
      (false,
       "第" +:+ match lineno with
                | Some n => str_of_Z n
                | None => "None"
                end +:+ "行: " +:+ msg)
  | Some (OtherErr e) => (false, exn_str e)
  end.

(** [PythonExecutor._execute_eval]. *)
Definition _execute_eval (code : string) (timeout : Z)
    (capture_output : bool) : outcome string :=
  match sandbox_eval code timeout with
  | Return text => Return ("结果: " +:+ text)
  | Raise e => Raise e
  end.

(** [PythonExecutor.execute]; [start_time] and [end_time] are the two
    readings of [time.time()]. *)
Definition execute (self : PythonExecutor) (kwargs : Kwargs)
    (start_time end_time : Q) : string * PythonExecutor :=
  let code := strip (default "" (kw_code kwargs)) in
  let mode := default "exec" (kw_mode kwargs) in
  let timeout := default (timeout self) (kw_timeout kwargs) in
  let capture_output := default true (kw_capture_output kwargs) in
  let self := count_execution self in
  let safety_check := _check_code_safety self code in
  if negb safety_check.1 then
    ("❌ 代码安全检查失败: " +:+ safety_check.2, self)
  else
    let syntax_check := _check_syntax code mode in
    if negb syntax_check.1 then ("❌ 语法错误: " +:+ syntax_check.2, self)
    else
      let execution_time := (end_time - start_time)%Q in
      match (if String.eqb mode "eval"
             then _execute_eval code timeout capture_output
             else _execute_exec sandbox self code timeout capture_output) with
      | Return result =>
          ("✅ 执行成功 (耗时: " +:+ format_seconds execution_time +:+ "秒)"
             +:+ String newline "" +:+ result,
           add_execution_time self execution_time)
      | Raise e =>
          match exn_type e with
          | TimeoutError =>
              ("❌ 执行超时 (>" +:+ str_of_Z timeout +:+ "秒)", self)
          | _ =>
              ("❌ 执行失败 (耗时: " +:+ format_seconds execution_time
                 +:+ "秒): " +:+ exn_str e,
               add_execution_time self execution_time)
          end
      end.

End Execute.

(** Whether the time of a request was added to [total_execution_time]:
    told from the line the request got. *)
Definition is_timed (result : string) : bool :=
  startswith "✅ 执行成功" result || startswith "❌ 执行失败" result.

(** Interpreters for the scenarios: every text parses; a run that loops
    until the timeout. *)
Definition parses_all (code mode : string) : option ParseError := None.

Definition timeout_error (timeout : Z) : exn :=
  mk_exn TimeoutError ("代码执行超时 (>" +:+ str_of_Z timeout +:+ "秒)").

Definition looping_sandbox (code : string) (timeout : Z) : Run :=
  {| finished := Raise (timeout_error timeout);
     stdout_content := ""; stderr_content := ""; underscore := None |}.

Definition no_eval (code : string) (timeout : Z) : outcome string :=
  Raise (mk_exn OtherException "no value").

Definition code_kwargs (code : string) : Kwargs :=
  {| kw_code := Some code; kw_mode := None; kw_timeout := None;
     kw_capture_output := None |}.

End PythonExecutorRun.

(* ================================================================== *)
(** * tools/__init__.py *)
(* ================================================================== *)

Module Tools.
Import Py.

Section Registry.

(** [World] is the state a tool's methods read and change: the attributes
    of the tool instances and whatever lies behind them (open connections,
    files).  [PyValue] is the type of keyword-argument values. *)
Context {World PyValue : Type}.

Local Abbreviation Kwargs := (gmap string PyValue).

(** [asyncio.get_event_loop().time()]. *)
Variable loop_time : World → Q.

(** A tool object: its three attributes and its two methods.
    [validate_args] only inspects its arguments; [execute] may change the
    world.  Either may raise. *)
Record BaseTool := mk_tool {
  name : string;
  description : string;
  version : string;
  validate_args : Kwargs → World → outcome bool;
  execute : Kwargs → World → outcome string * World
}.

(** One entry of [_tool_stats]. *)
Record ToolStats := mk_stats {
  calls : Z;
  successes : Z;
  failures : Z;
  total_time : Q
}.

Record ToolCollection := mk_collection {
  _tools : gmap string BaseTool;
  _tool_stats : gmap string ToolStats
}.

(** [ToolCollection.__init__]. *)
Definition __init__ : ToolCollection :=
  {| _tools := ∅; _tool_stats := ∅ |}.

(** [ToolCollection.add_tool]. *)
Definition add_tool (self : ToolCollection) (tool : BaseTool)
    : ToolCollection :=
  let tool_name := name tool in
  {| _tools := <[tool_name := tool]> (_tools self);
     _tool_stats :=
       <[tool_name := {| calls := 0; successes := 0; failures := 0;
                         total_time := 0%Q |}]> (_tool_stats self) |}.

(** [ToolCollection.remove_tool]. *)
Definition remove_tool (self : ToolCollection) (tool_name : string)
    : bool * ToolCollection :=
  match _tools self !! tool_name with
  | Some _ =>
      (true, {| _tools := delete tool_name (_tools self);
                _tool_stats := delete tool_name (_tool_stats self) |})
  | None => (false, self)
  end.

(** [ToolCollection.get_tool]. *)
Definition get_tool (self : ToolCollection) (tool_name : string)
    : option BaseTool :=
  _tools self !! tool_name.

(** [create_tool_collection]. *)
Definition create_tool_collection (tools : list BaseTool) : ToolCollection :=
  fold_left add_tool tools __init__.

(** The in-place updates of the [stats] dictionary of one tool. *)
Definition count_call (st : ToolStats) : ToolStats :=
  {| calls := calls st + 1; successes := successes st;
     failures := failures st; total_time := total_time st |}.

Definition count_success (st : ToolStats) (execution_time : Q) : ToolStats :=
  {| calls := calls st; successes := successes st + 1;
     failures := failures st;
     total_time := (total_time st + execution_time)%Q |}.

Definition count_failure (st : ToolStats) (execution_time : option Q)
    : ToolStats :=
  {| calls := calls st; successes := successes st;
     failures := failures st + 1;
     total_time :=
       match execution_time with
       | Some t => (total_time st + t)%Q
       | None => total_time st
       end |}.

Definition set_stats (self : ToolCollection) (tool_name : string)
    (st : ToolStats) : ToolCollection :=
  {| _tools := _tools self;
     _tool_stats := <[tool_name := st]> (_tool_stats self) |}.

(** [ToolCollection.execute_tool].  The statistics entry is looked up
    before the [try], so a missing entry would raise [KeyError] outward;
    everything after it is caught. *)
Definition execute_tool (self : ToolCollection) (tool_name : string)
    (kwargs : Kwargs) (w : World)
    : outcome string * ToolCollection * World :=
  match get_tool self tool_name with
  | None => (Return ("❌ 未找到工具: " +:+ tool_name), self, w)
  | Some tool =>
      match _tool_stats self !! tool_name with
      | None =>
          (Raise (mk_exn KeyError ("'" +:+ tool_name +:+ "'")), self, w)
      | Some stats0 =>
          let stats := count_call stats0 in
          let start_time := loop_time w in
          match validate_args tool kwargs w with
          | Return false =>
              (Return ("❌ 工具 '" +:+ tool_name +:+ "' 参数验证失败"),
               set_stats self tool_name (count_failure stats None), w)
          | Return true =>
              match execute tool kwargs w with
              | (Return result, w') =>
                  let execution_time := (loop_time w' - start_time)%Q in
                  (Return result,
                   set_stats self tool_name
                     (count_success stats execution_time), w')
              | (Raise e, w') =>
                  let execution_time := (loop_time w' - start_time)%Q in
                  (Return ("❌ 工具 '" +:+ tool_name +:+ "' 执行失败: "
                             +:+ exn_str e),
                   set_stats self tool_name
                     (count_failure stats (Some execution_time)), w')
              end
          | Raise e =>
              let execution_time := (loop_time w - start_time)%Q in
              (Return ("❌ 工具 '" +:+ tool_name +:+ "' 执行失败: "
                         +:+ exn_str e),
               set_stats self tool_name
                 (count_failure stats (Some execution_time)), w)
          end
      end
  end.

(** The registry states a program can produce: a new collection, then
    registrations, removals and dispatches in any order. *)
Inductive reachable : ToolCollection → Prop :=
| reach_init : reachable __init__
| reach_add self tool : reachable self → reachable (add_tool self tool)
| reach_remove self tool_name :
    reachable self → reachable (remove_tool self tool_name).2
| reach_execute self tool_name kwargs w :
    reachable self → reachable (execute_tool self tool_name kwargs w).1.2.

(** The registry invariant: the two dictionaries have the same keys and
    every entry satisfies [calls = successes + failures]. *)
Definition balanced (st : ToolStats) : Prop :=
  calls st = successes st + failures st.

Definition stats_ok (self : ToolCollection) : Prop :=
  (∀ tool_name,
     is_Some (_tools self !! tool_name)
     ↔ is_Some (_tool_stats self !! tool_name))
  ∧ (∀ tool_name st, _tool_stats self !! tool_name = Some st → balanced st).

(** [ToolCollection.__len__] and [ToolCollection.__contains__]. *)
Definition __len__ (self : ToolCollection) : nat := size (_tools self).

Definition __contains__ (self : ToolCollection) (tool_name : string) : bool :=
  bool_decide (is_Some (_tools self !! tool_name)).

(** The statistics entry [add_tool] writes. *)
Definition fresh_stats : ToolStats :=
  {| calls := 0; successes := 0; failures := 0; total_time := 0%Q |}.

(** How many of the requests name a tool. *)
Definition times_requested (tool_name : string)
    (requests : list (string * Kwargs)) : Z :=
  Z.of_nat (length (filter (fun r => r.1 = tool_name) requests)).

(** A sequence of dispatches, each on the world the previous one left. *)
Fixpoint dispatch_all (self : ToolCollection)
    (requests : list (string * Kwargs)) (w : World)
    : list (outcome string) * ToolCollection * World :=
  match requests with
  | [] => ([], self, w)
  | (tool_name, kwargs) :: rest =>
      let '(r, self1, w1) := execute_tool self tool_name kwargs w in
      let '(rs, self2, w2) := dispatch_all self1 rest w1 in
      (r :: rs, self2, w2)
  end.

End Registry.

Arguments BaseTool : clear implicits.
Arguments ToolCollection : clear implicits.

End Tools.

(* ================================================================== *)
(** * agent.py *)
(* ================================================================== *)

Module Agent.
Import Py Tools.

Section Orchestrator.

Context {World PyValue : Type}.

Local Abbreviation Kwargs := (gmap string PyValue).

(** One entry of [plan["steps"]]; an absent key is [None]. *)
Record Step := mk_step {
  description : option string;
  tool : option string;
  args : option Kwargs
}.

Record Plan := mk_plan {
  summary : option string;
  analysis : option string;
  steps : option (list Step)
}.

(** The attributes of a [BaseAgent] that plan execution uses. *)
Record BaseAgent := mk_agent {
  tools : ToolCollection World PyValue;
  current_step : Z;
  max_steps : Z
}.

(** [BaseAgent.__init__]: [max_steps_config] is
    [config["agent"]["max_steps"]] when present, and [tools] is the
    collection [_setup_tools] fills. *)
Definition __init__ (max_steps_config : option Z)
    (tools : ToolCollection World PyValue) : BaseAgent :=
  {| tools := tools; current_step := 0;
     max_steps := default 10 max_steps_config |}.

Definition msg_step_limit : string := "⚠️ 达到最大执行步数限制".
Definition msg_missing_tool_name : string := "❌ 步骤缺少工具名称".
Definition msg_tool_not_found (tool_name : string) : string :=
  "❌ 未找到工具: " +:+ tool_name.
Definition msg_tool_failed (tool_name : string) (e : exn) : string :=
  "❌ " +:+ tool_name +:+ " 执行失败: " +:+ exn_str e.

(** [BaseAgent._execute_step].  Next to the result and the new world it
    reports the calls of [tool.execute] it made, as (name, arguments). *)
Definition _execute_step (self : BaseAgent) (step : Step) (w : World)
    : outcome string * World * list (string * Kwargs) :=
  let tool_name := tool step in
  let tool_args := default ∅ (args step) in
  match tool_name with
  | None | Some EmptyString => (Return msg_missing_tool_name, w, [])
  | Some tool_name =>
      match get_tool (tools self) tool_name with
      | None => (Return (msg_tool_not_found tool_name), w, [])
      | Some t =>
          match execute t tool_args w with
          | (Return result, w') =>
              (Return ("✅ " +:+ tool_name +:+ ": " +:+ result), w',
               [(tool_name, tool_args)])
          | (Raise e, w') =>
              (Return (msg_tool_failed tool_name e), w',
               [(tool_name, tool_args)])
          end
      end
  end.

Definition set_current_step (self : BaseAgent) (n : Z) : BaseAgent :=
  {| tools := tools self; current_step := n; max_steps := max_steps self |}.

(** The transcript entry of step number [i] (counted from 0). *)
Definition step_line (i : nat) (step_result : string) : string :=
  "步骤" +:+ str_of_Z (Z.of_nat i + 1) +:+ ": " +:+ step_result.

Definition step_error_line (i : nat) (e : exn) : string :=
  "步骤" +:+ str_of_Z (Z.of_nat i + 1) +:+ "执行失败: " +:+ exn_str e.

(** The [for] loop of [BaseAgent._execute_plan], from step index [i] on:
    [results] is the list built so far and [trace] the tool calls made so
    far. *)
Fixpoint plan_loop (self : BaseAgent) (i : nat) (todo : list Step)
    (results : list string) (w : World) (trace : list (string * Kwargs))
    : list string * BaseAgent * World * list (string * Kwargs) :=
  match todo with
  | [] => (results, self, w, trace)
  | step :: rest =>
      if max_steps self <=? current_step self then
        (results ++ [msg_step_limit], self, w, trace)
      else
        match _execute_step self step w with
        | (Return step_result, w', called) =>
            plan_loop (set_current_step self (current_step self + 1))
              (S i) rest (results ++ [step_line i step_result]) w'
              (trace ++ called)
        | (Raise e, w', called) =>
            plan_loop self (S i) rest (results ++ [step_error_line i e]) w'
              (trace ++ called)
        end
  end.

(** The [results] list at the end of [_execute_plan]. *)
Definition plan_results (self : BaseAgent) (plan : Plan) (w : World)
    : list string * BaseAgent * World * list (string * Kwargs) :=
  plan_loop self 0 (default [] (steps plan)) [] w [].

(** [BaseAgent._execute_plan]: the returned transcript, the agent and the
    world afterwards, and the tool calls made. *)
Definition _execute_plan (self : BaseAgent) (plan : Plan) (w : World)
    : string * BaseAgent * World * list (string * Kwargs) :=
  let '(results, self', w', trace) := plan_results self plan w in
  (join (String newline "") results, self', w', trace).

(** The given steps run one after the other, without budget and whatever
    their results: the transcript entries, the world afterwards and the
    tool calls. *)
Fixpoint run_steps (self : BaseAgent) (i : nat) (todo : list Step)
    (w : World) : list string * World * list (string * Kwargs) :=
  match todo with
  | [] => ([], w, [])
  | step :: rest =>
      let '(o, w', called) := _execute_step self step w in
      let '(lines, w'', calls) := run_steps self (S i) rest w' in
      (match o with
       | Return step_result => step_line i step_result
       | Raise e => step_error_line i e
       end :: lines, w'', called ++ calls)
  end.

(** The steps still allowed: [max_steps - current_step], at least 0. *)
Definition budget (self : BaseAgent) : nat :=
  Z.to_nat (max_steps self - current_step self).

(** The result of a step, by the way it ends.  The three failures are the
    lines [_execute_step] returns for them. *)
Definition step_failed (self : BaseAgent) (step : Step) (w : World)
    : option string :=
  match tool step with
  | None | Some EmptyString => Some msg_missing_tool_name
  | Some tool_name =>
      match get_tool (tools self) tool_name with
      | None => Some (msg_tool_not_found tool_name)
      | Some t =>
          match execute t (default ∅ (args step)) w with
          | (Return _, _) => None
          | (Raise e, _) => Some (msg_tool_failed tool_name e)
          end
      end
  end.

End Orchestrator.

Arguments Step : clear implicits.
Arguments Plan : clear implicits.
Arguments BaseAgent : clear implicits.

(** Sample tools for the scenarios: the world is the log of the tools
    that ran, latest first.  One tool returns, the other raises. *)
Definition returning_tool (tool_name result : string)
    : BaseTool (list string) string :=
  mk_tool tool_name "基础工具" "1.0.0"
    (fun _ _ => Return true)
    (fun _ w => (Return result, tool_name :: w)).

Definition raising_tool (tool_name message : string)
    : BaseTool (list string) string :=
  mk_tool tool_name "基础工具" "1.0.0"
    (fun _ _ => Return true)
    (fun _ w => (Raise (mk_exn OtherException message), tool_name :: w)).

(** A tool that refuses every call at validation; running it would be
    seen in the log. *)
Definition strict_tool : BaseTool (list string) string :=
  mk_tool "strict" "基础工具" "1.0.0"
    (fun _ _ => Return false)
    (fun _ w => (Return "ran", "strict" :: w)).

Definition sample_tools : ToolCollection (list string) string :=
  create_tool_collection
    [returning_tool "calculator" "计算结果: 2 + 3 = 5";
     raising_tool "database" "connection lost"].

Definition sample_clock (w : list string) : Q := 0%Q.

Definition sample_step (tool_name : string) : Step string :=
  {| description := None; tool := Some tool_name; args := None |}.

End Agent.

(** ** [BaseAgent.run] and the execution history *)

Module AgentRun.
Import Py Tools Agent.

Section Run.

Context {World PyValue : Type}.

Local Abbreviation Kwargs := (gmap string PyValue).

(** [asyncio.get_event_loop().time()]. *)
Variable loop_time : World → Q.

(** One entry of [execution_history]. *)
Record ExecutionRecord := mk_record {
  timestamp : Q;
  user_input : string;
  plan : Plan PyValue;
  result : string;
  steps_executed : Z
}.

(** A [BaseAgent] together with its [execution_history]. *)
Record AgentState := mk_state {
  agent : BaseAgent World PyValue;
  execution_history : list ExecutionRecord
}.

(** The state [BaseAgent.__init__] leaves. *)
Definition new_agent (max_steps_config : option Z)
    (tools : ToolCollection World PyValue) : AgentState :=
  {| agent := Agent.__init__ max_steps_config tools;
     execution_history := [] |}.

(** [history[-n:]] for a positive [n]. *)
Definition last_n {A} (n : nat) (history : list A) : list A :=
  drop (length history - n) history.

(** [BaseAgent._record_execution]. *)
Definition _record_execution (self : AgentState) (user_input : string)
    (plan : Plan PyValue) (result : string) (w : World) : AgentState :=
  let record :=
    {| timestamp := loop_time w; user_input := user_input; plan := plan;
       result := result; steps_executed := current_step (agent self) |} in
  let history := execution_history self ++ [record] in
  {| agent := agent self;
     execution_history :=
       if (100 <? length history)%nat then last_n 50 history else history |}.

(** [BaseAgent.get_execution_stats]["total_executions"]. *)
Definition total_executions (self : AgentState) : nat :=
  length (execution_history self).

(** [_generate_plan] is abstract in [BaseAgent]; it is taken here as a
    call that returns a plan or raises and leaves the agent's counters
    alone, as the one of [MiniManus] does. *)
Variable _generate_plan : string → World → outcome (Plan PyValue) * World.

Definition msg_run_failed (e : exn) : string := "执行失败: " +:+ exn_str e.

(** [BaseAgent.run]: the returned text, the agent and the world
    afterwards, and the tool calls made. *)
Definition run (self : AgentState) (user_input : string) (w : World)
    : string * AgentState * World * list (string * Kwargs) :=
  match _generate_plan user_input w with
  | (Return plan, w1) =>
      let '(result, agent', w2, trace) := _execute_plan (agent self) plan w1 in
      (result,
       _record_execution
         {| agent := agent'; execution_history := execution_history self |}
         user_input plan result w2,
       w2, trace)
  | (Raise e, w1) => (msg_run_failed e, self, w1, [])
  end.

(** A session: [run] called on each input in turn, on the same agent. *)
Fixpoint run_all (self : AgentState) (inputs : list string) (w : World)
    : list string * AgentState * World * list (string * Kwargs) :=
  match inputs with
  | [] => ([], self, w, [])
  | user_input :: rest =>
      let '(text, self1, w1, trace1) := run self user_input w in
      let '(texts, self2, w2, trace2) := run_all self1 rest w1 in
      (text :: texts, self2, w2, trace1 ++ trace2)
  end.

End Run.

Arguments ExecutionRecord : clear implicits.
Arguments AgentState : clear implicits.

(** A planner for the scenarios: every request gets the same two-step
    plan on the sample registry. *)
Definition sample_plan : Plan string :=
  {| summary := None; analysis := None;
     steps := Some [sample_step "calculator"; sample_step "database"] |}.

Definition sample_planner (user_input : string) (w : list string)
    : outcome (Plan string) * list string :=
  (Return sample_plan, w).

End AgentRun.

(** ** [MiniManus]: the tools it loads and its planner *)

Module MiniManus.
Import Py Tools Agent.

(** [any(keyword in text for keyword in keywords)]. *)
Definition any_keyword (keywords : list string) (text : string) : bool :=
  existsb (fun keyword => str_in keyword text) keywords.

Definition calculator_keywords : list string :=
  ["计算"; "算"; "+"; "-"; "*"; "/"; "数学"].
Definition file_keywords : list string :=
  ["文件"; "读取"; "写入"; "保存"; "file"].
Definition python_keywords : list string :=
  ["python"; "代码"; "编程"; "print"; "def"].
Definition database_keywords : list string :=
  ["数据库"; "database"; "sqlite"; "mysql"; "postgresql"; "查询"; "sql";
   "select"; "连接"; "employees"; "demo.db"].

Section Planner.

Context {World PyValue : Type}.

Local Abbreviation Kwargs := (gmap string PyValue).

(** A string as an argument value. *)
Variable py_str : string → PyValue.

Definition plan_of (summary analysis : string) (steps : list (Step PyValue))
    : Plan PyValue :=
  {| summary := Some summary; analysis := Some analysis;
     steps := Some steps |}.

Definition step_of (description tool : string) (args : Kwargs)
    : Step PyValue :=
  {| description := Some description; tool := Some tool; args := Some args |}.

Definition connect_demo_args : Kwargs :=
  <["action" := py_str "connect"]>
    (<["db_type" := py_str "sqlite"]>
       {["connection_string" := py_str "demo.db"]}).

Definition query_args (sql : string) : Kwargs :=
  <["action" := py_str "query"]> {["sql" := py_str sql]}.

(** [MiniManus._generate_rule_based_plan].  Text is UTF-8, and [lower]
    folds the letters A to Z, which is [str.lower] on text whose cased
    letters are those. *)
Definition _generate_rule_based_plan (user_input : string) : Plan PyValue :=
  let user_input_lower := lower user_input in
  if any_keyword calculator_keywords user_input_lower then
    plan_of "数学计算任务" "检测到计算相关关键词，使用计算器工具"
      [step_of ("计算表达式: " +:+ user_input) "calculator"
         {["expression" := py_str user_input]}]
  else if any_keyword file_keywords user_input_lower then
    plan_of "文件操作任务" "检测到文件操作相关关键词，使用文件编辑工具"
      [step_of "执行文件操作" "file_editor"
         (<["action" := py_str "info"]> {["content" := py_str user_input]})]
  else if any_keyword python_keywords user_input_lower then
    plan_of "Python代码执行任务" "检测到Python相关关键词，使用Python执行工具"
      [step_of "执行Python代码" "python_executor"
         {["code" := py_str user_input]}]
  else if any_keyword database_keywords user_input_lower then
    if any_keyword ["连接"; "connect"] user_input_lower then
      let db_file := "demo.db" in
      plan_of "数据库连接任务" "检测到数据库连接相关关键词，使用数据库工具连接"
        [step_of ("连接SQLite数据库: " +:+ db_file) "database"
           (<["action" := py_str "connect"]>
              (<["db_type" := py_str "sqlite"]>
                 {["connection_string" := py_str db_file]}));
         step_of "查询employees表中技术部员工信息" "database"
           (query_args "SELECT * FROM employees WHERE department = '技术部'")]
    else if any_keyword ["查询"; "select"; "employees"] user_input_lower then
      plan_of "数据库查询任务" "检测到数据库查询相关关键词，使用数据库工具查询"
        [step_of "连接SQLite数据库demo.db" "database" connect_demo_args;
         step_of "查询employees表数据" "database"
           (query_args "SELECT * FROM employees")]
    else
      plan_of "数据库操作任务" "检测到数据库相关关键词，使用数据库工具"
        [step_of "显示数据库连接状态" "database"
           {["action" := py_str "status"]}]
  else
    plan_of "通用信息处理任务" "未匹配到特定关键词，提供通用响应"
      [step_of "使用计算器进行简单演示" "calculator"
         {["expression" := py_str "2+2"]}].

(** A step that names a registered tool. *)
Definition finds_tool (c : ToolCollection World PyValue)
    (step : Step PyValue) : Prop :=
  ∃ tool_name t,
    tool step = Some tool_name ∧ tool_name ≠ ""
    ∧ get_tool c tool_name = Some t.

(** The language model's part of [_generate_plan]: [llm_client.generate]
    on the two prompts, then [_parse_plan_response] on the answer. *)
Variable llm_plan : string → World → outcome (Plan PyValue) * World.

(** [MiniManus._generate_plan]. *)
Definition _generate_plan (user_input : string) (w : World)
    : outcome (Plan PyValue) * World :=
  let user_input_lower := lower user_input in
  if any_keyword database_keywords user_input_lower then
    (Return (_generate_rule_based_plan user_input), w)
  else
    match llm_plan user_input w with
    | (Return plan, w') => (Return plan, w')
    | (Raise e, w') => (Return (_generate_rule_based_plan user_input), w')
    end.

(** [config["tools"][key]["enabled"]] for the four keys, [True] when
    absent. *)
Record ToolConfig := mk_tool_config {
  calculator_enabled : bool;
  file_editor_enabled : bool;
  python_execute_enabled : bool;
  database_enabled : bool
}.

Definition default_tool_config : ToolConfig :=
  {| calculator_enabled := true; file_editor_enabled := true;
     python_execute_enabled := true; database_enabled := true |}.

(** The four tool objects [_setup_tools] constructs. *)
Variables Calculator FileEditor PythonExecutor DatabaseTool
  : BaseTool World PyValue.

Definition add_if (enabled : bool) (t : BaseTool World PyValue)
    (c : ToolCollection World PyValue) : ToolCollection World PyValue :=
  if enabled then add_tool c t else c.

(** [MiniManus._setup_tools], on the empty collection of [__init__]. *)
Definition _setup_tools (tool_config : ToolConfig)
    : ToolCollection World PyValue :=
  add_if (database_enabled tool_config) DatabaseTool
    (add_if (python_execute_enabled tool_config) PythonExecutor
       (add_if (file_editor_enabled tool_config) FileEditor
          (add_if (calculator_enabled tool_config) Calculator
             Tools.__init__))).

(** The names the four classes give themselves in their [__init__]. *)
Definition named_as_in_source : Prop :=
  name Calculator = "calculator" ∧ name FileEditor = "file_editor"
  ∧ name PythonExecutor = "python_executor" ∧ name DatabaseTool = "database".

End Planner.

Arguments ToolConfig : clear implicits.

End MiniManus.

(* ================================================================== *)
(** * Theorems *)
(* ================================================================== *)

Module PyFacts.
Import Py.

Lemma app_nil_l s : "" +:+ s = s.
Proof. reflexivity. Qed.

Lemma app_cons c s t : String c s +:+ t = String c (s +:+ t).
Proof. reflexivity. Qed.

Lemma app_nil_r s : s +:+ "" = s.
Proof. induction s as [|c s IH]; [done|]. by rewrite app_cons, IH. Qed.

Lemma app_assoc s t u : (s +:+ t) +:+ u = s +:+ t +:+ u.
Proof. induction s as [|c s IH]; [done|]. by rewrite !app_cons, IH. Qed.

Lemma app_eq_nil s t : s +:+ t = "" → s = "" ∧ t = "".
Proof. destruct s; [done|]. rewrite app_cons. discriminate. Qed.

Lemma app_eq_cons s t c u :
  s +:+ t = String c u →
  (s = "" ∧ t = String c u) ∨ (∃ s', s = String c s' ∧ u = s' +:+ t).
Proof.
  destruct s as [|a s]; [by left|].
  rewrite app_cons. intros [= -> <-]. right. by exists s.
Qed.

Lemma forall_str_app p s t :
  forall_str p (s +:+ t) = forall_str p s && forall_str p t.
Proof.
  induction s as [|c s IH]; [done|].
  rewrite app_cons. simpl. rewrite IH. by rewrite andb_assoc.
Qed.

Lemma forall_str_map p f s :
  forall_str p (map_str f s) = forall_str (fun c => p (f c)) s.
Proof. induction s as [|c s IH]; [done|]. simpl. by rewrite IH. Qed.

Lemma forall_str_ext p q s :
  (∀ c, p c = q c) → forall_str p s = forall_str q s.
Proof. intros E. induction s as [|c s IH]; [done|]. simpl. by rewrite E, IH. Qed.

Lemma startswith_spec p s : startswith p s = true ↔ ∃ r, s = p +:+ r.
Proof.
  revert s. induction p as [|a p IH]; intros s.
  - split; [by exists s|done].
  - destruct s as [|b s]; simpl.
    + split; [done|]. intros [r Hr]. rewrite app_cons in Hr. discriminate.
    + rewrite andb_true_iff, IH, Ascii.eqb_eq. split.
      * intros [-> [r ->]]. by exists r.
      * intros [r Hr]. rewrite app_cons in Hr. injection Hr as -> ->.
        split; [done|]. by exists r.
Qed.

Lemma str_in_spec sub s : str_in sub s = true ↔ contains sub s.
Proof.
  unfold contains. induction s as [|c s IH].
  - simpl. rewrite orb_false_r, startswith_spec. split.
    + intros [r Hr]. by exists "", r.
    + intros (l & r & H). symmetry in H.
      apply app_eq_nil in H as [-> H]. by exists r.
  - change (str_in sub (String c s))
      with (startswith sub (String c s) || str_in sub s).
    rewrite orb_true_iff, IH, startswith_spec. split.
    + intros [[r Hr]|(l & r & ->)].
      * by exists "", r.
      * by exists (String c l), r.
    + intros (l & r & H). destruct l as [|a l].
      * left. by exists r.
      * rewrite app_cons in H. injection H as -> ->. right. by exists l, r.
Qed.

Lemma str_in_false sub s : str_in sub s = false ↔ ¬ contains sub s.
Proof. rewrite <- str_in_spec. by destruct (str_in sub s). Qed.

Lemma lstrip_suffix s : ∃ l, s = l +:+ lstrip s.
Proof.
  induction s as [|c s [l IH]]; [by exists ""|]. simpl.
  destruct (is_space c).
  - exists (String c l). by rewrite app_cons, <- IH.
  - by exists "".
Qed.

Lemma rstrip_prefix s : ∃ r, s = rstrip s +:+ r.
Proof.
  induction s as [|c s [r IH]]; [by exists ""|]. simpl.
  destruct (rstrip s) as [|a t] eqn:E.
  - destruct (is_space c).
    + by exists (String c s).
    + exists r. rewrite app_cons. by rewrite app_nil_l in IH; subst.
  - exists r. by rewrite app_cons, <- IH.
Qed.

Lemma forall_str_strip p s : forall_str p s = true → forall_str p (strip s) = true.
Proof.
  unfold strip. intros H.
  destruct (lstrip_suffix s) as [l Hl].
  destruct (rstrip_prefix (lstrip s)) as [r Hr].
  rewrite Hl, Hr, !forall_str_app, !andb_true_iff in H. tauto.
Qed.

Lemma lower_char_newline c :
  Ascii.eqb (lower_char c) newline = Ascii.eqb c newline.
Proof. by destruct c as [[] [] [] [] [] [] [] []]. Qed.

(** ** Decimal text of an integer *)





Lemma contains_refl s : contains s s.
Proof. exists "", "". by rewrite app_nil_l, app_nil_r. Qed.

Lemma contains_app_l sub s t : contains sub s → contains sub (s +:+ t).
Proof.
  intros (l & r & ->). exists l, (r +:+ t). by rewrite !app_assoc.
Qed.

Lemma contains_app_r sub s t : contains sub t → contains sub (s +:+ t).
Proof.
  intros (l & r & ->). exists (s +:+ l), r. by rewrite !app_assoc.
Qed.

(** Every part is found in the joined text. *)
Lemma contains_join sep part parts :
  In part parts → contains part (join sep parts).
Proof.
  induction parts as [|p rest IH]; [done|].
  intros [->|Hin].
  - destruct rest; [apply contains_refl|].
    change (contains part (part +:+ sep +:+ join sep (s :: rest))).
    apply contains_app_l, contains_refl.
  - destruct rest as [|p' rest']; [done|].
    change (contains part (p +:+ sep +:+ join sep (p' :: rest'))).
    by apply contains_app_r, contains_app_r, IH.
Qed.

Lemma length_app s t :
  String.length (s +:+ t) = (String.length s + String.length t)%nat.
Proof.
  induction s as [|c s IH]; [done|]. rewrite app_cons. simpl. by rewrite IH.
Qed.


End PyFacts.

Module ReFacts.
Import Py Re PyFacts.

Lemma matches_Void_inv s : ¬ matches Void s.
Proof. inversion 1. Qed.

Lemma matches_Eps_inv s : matches Eps s → s = "".
Proof. by inversion 1. Qed.

Lemma matches_Class_inv p s :
  matches (Class p) s → ∃ c, s = String c "" ∧ p c = true.
Proof. inversion 1; subst; eauto. Qed.

Lemma matches_Seq_inv r1 r2 s :
  matches (Seq r1 r2) s →
  ∃ s1 s2, s = s1 +:+ s2 ∧ matches r1 s1 ∧ matches r2 s2.
Proof. inversion 1; subst; eauto. Qed.

Lemma matches_Alt_inv r1 r2 s :
  matches (Alt r1 r2) s → matches r1 s ∨ matches r2 s.
Proof. inversion 1; subst; auto. Qed.

Lemma nullable_spec r : nullable r = true ↔ matches r "".
Proof.
  induction r as [| |p|r1 IH1 r2 IH2|r1 IH1 r2 IH2|r IH]; simpl.
  - split; [done|]. intros H. by apply matches_Void_inv in H.
  - split; [constructor|done].
  - split; [done|]. intros H. by apply matches_Class_inv in H as (c & ? & _).
  - rewrite andb_true_iff, IH1, IH2. split.
    + intros [H1 H2]. apply (MSeq _ _ "" ""); done.
    + intros H. apply matches_Seq_inv in H as (s1 & s2 & E & H1 & H2).
      symmetry in E. by apply app_eq_nil in E as [-> ->].
  - rewrite orb_true_iff, IH1, IH2. split.
    + intros [H|H]; [by apply MAltL|by apply MAltR].
    + apply matches_Alt_inv.
  - split; [constructor|done].
Qed.

Lemma deriv_sound c r s : matches (deriv c r) s → matches r (String c s).
Proof.
  revert s.
  induction r as [| |p|r1 IH1 r2 IH2|r1 IH1 r2 IH2|r IH]; intros s; simpl.
  - intros H. by apply matches_Void_inv in H.
  - intros H. by apply matches_Void_inv in H.
  - destruct (p c) eqn:E; intros H.
    + apply matches_Eps_inv in H as ->. by constructor.
    + by apply matches_Void_inv in H.
  - intros H. apply matches_Alt_inv in H as [H|H].
    + apply matches_Seq_inv in H as (s1 & s2 & -> & H1 & H2).
      rewrite <- app_cons. constructor; auto.
    + destruct (nullable r1) eqn:E; [|by apply matches_Void_inv in H].
      apply nullable_spec in E.
      rewrite <- (app_nil_l (String c s)). constructor; auto.
  - intros H. apply matches_Alt_inv in H as [H|H];
      [apply MAltL|apply MAltR]; auto.
  - intros H. apply matches_Seq_inv in H as (s1 & s2 & -> & H1 & H2).
    rewrite <- app_cons. constructor; auto.
Qed.

Lemma deriv_complete c r s' :
  matches r s' → ∀ s, s' = String c s → matches (deriv c r) s.
Proof.
  induction 1 as [|p a Hp|r1 r2 s1 s2 H1 IH1 H2 IH2|r1 r2 s0 H0 IH0
                  |r1 r2 s0 H0 IH0|r|r s1 s2 H1 IH1 H2 IH2]; intros s E.
  - discriminate.
  - injection E as -> <-. simpl. rewrite Hp. constructor.
  - simpl. apply app_eq_cons in E as [[-> ->]|(s1' & -> & ->)].
    + apply MAltR. apply nullable_spec in H1. rewrite H1. by apply IH2.
    + apply MAltL. constructor; auto.
  - simpl. apply MAltL. auto.
  - simpl. apply MAltR. auto.
  - discriminate.
  - apply app_eq_cons in E as [[-> ->]|(s1' & -> & ->)].
    + by apply IH2.
    + simpl. constructor; auto.
Qed.

Lemma deriv_spec c r s : matches (deriv c r) s ↔ matches r (String c s).
Proof. split; [apply deriv_sound|]. intros H. by eapply deriv_complete. Qed.

Lemma match_prefix_spec r s :
  match_prefix r s = true ↔ ∃ m t, s = m +:+ t ∧ matches r m.
Proof.
  revert r. induction s as [|c s IH]; intros r.
  - simpl. rewrite orb_false_r, nullable_spec. split.
    + intros H. by exists "", "".
    + intros (m & t & E & H). symmetry in E.
      by apply app_eq_nil in E as [-> ->].
  - change (match_prefix r (String c s))
      with (nullable r || match_prefix (deriv c r) s).
    rewrite orb_true_iff, nullable_spec, IH. split.
    + intros [H|(m & t & -> & H)].
      * by exists "", (String c s).
      * exists (String c m), t. split; [done|]. by apply deriv_spec.
    + intros (m & t & E & H). symmetry in E.
      apply app_eq_cons in E as [[-> ->]|(m' & -> & ->)]; [by left|].
      right. exists m', t. split; [done|]. by apply deriv_spec.
Qed.

(** [search] finds exactly the substrings the pattern denotes. *)
Lemma search_spec r s :
  search r s = true ↔ ∃ l m t, s = l +:+ m +:+ t ∧ matches r m.
Proof.
  induction s as [|c s IH].
  - simpl. rewrite !orb_false_r, nullable_spec. split.
    + intros H. by exists "", "", "".
    + intros (l & m & t & E & H). symmetry in E.
      apply app_eq_nil in E as [-> E]. by apply app_eq_nil in E as [-> ->].
  - change (search r (String c s))
      with (match_prefix r (String c s) || search r s).
    rewrite orb_true_iff, IH, match_prefix_spec. split.
    + intros [(m & t & E & H)|(l & m & t & -> & H)].
      * by exists "", m, t.
      * by exists (String c l), m, t.
    + intros (l & m & t & E & H). destruct l as [|a l].
      * left. by exists m, t.
      * rewrite app_cons in E. injection E as -> ->. right. by exists l, m, t.
Qed.

Lemma matches_Lit c m : matches (Lit c) m ↔ m = String c "".
Proof.
  split.
  - intros H. apply matches_Class_inv in H as (a & -> & Hp).
    apply Ascii.eqb_eq in Hp. by subst.
  - intros ->. constructor. apply Ascii.eqb_refl.
Qed.

Lemma matches_Lits w m : matches (Lits w) m ↔ m = w.
Proof.
  revert m. induction w as [|c w IH]; intros m; simpl.
  - split; [apply matches_Eps_inv|intros ->; constructor].
  - split.
    + intros H. apply matches_Seq_inv in H as (s1 & s2 & -> & H1 & H2).
      apply matches_Lit in H1 as ->. apply IH in H2 as ->. done.
    + intros ->. change (String c w) with (String c "" +:+ w).
      constructor; [by apply matches_Lit|by apply IH].
Qed.

Lemma search_Lits w s : search (Lits w) s = true ↔ contains w s.
Proof.
  rewrite search_spec. unfold contains. split.
  - intros (l & m & t & -> & H). apply matches_Lits in H as ->. by exists l, t.
  - intros (l & t & ->). exists l, w, t. split; [done|]. by apply matches_Lits.
Qed.

Lemma matches_Star_Class p m :
  matches (Star (Class p)) m ↔ forall_str p m = true.
Proof.
  split.
  - intros H. remember (Star (Class p)) as r eqn:Er.
    induction H as [| | | | | |r0 s1 s2 H1 _ H2 IH2]; try discriminate; [done|].
    injection Er as ->. apply matches_Class_inv in H1 as (c & -> & Hc).
    rewrite app_cons, app_nil_l. simpl. rewrite IH2 by done. by rewrite Hc.
  - induction m as [|c m IH]; [constructor|].
    simpl. rewrite andb_true_iff. intros [Hc Hm].
    change (String c m) with (String c "" +:+ m).
    constructor; [by constructor|by apply IH].
Qed.

End ReFacts.

Module PyFloatFacts.
Import Py PyFacts Re ReFacts PyFloat.

Lemma numerator_pos m e : 0 < numerator m e.
Proof.
  unfold numerator. destruct (0 <=? e) eqn:E; [|lia].
  apply Z.leb_le in E. pose proof (Z.pow_pos_nonneg 2 e). lia.
Qed.















End PyFloatFacts.

Module DatabaseFacts.
Import Py Re PyFacts ReFacts Database.

Lemma existsb_false {A} (f : A → bool) l :
  existsb f l = false ↔ ∀ x, In x l → f x = false.
Proof.
  induction l as [|a l IH]; simpl; [by split|].
  rewrite orb_false_iff, IH. split.
  - intros [Ha Hl] x [<-|Hx]; auto.
  - intros H. split; [|intros x Hx]; apply H; auto.
Qed.

(** What the fourth pattern, [;.*\w], finds. *)
Lemma search_semicolon_word s :
  search (Seq (Lit ";") (Seq (Star Dot) Word)) s = true
  ↔ semicolon_then_word_on_line s.
Proof.
  rewrite search_spec. unfold semicolon_then_word_on_line. split.
  - intros (l & m & t & -> & H).
    apply matches_Seq_inv in H as (s1 & s2 & -> & H1 & H2).
    apply matches_Lit in H1 as ->.
    apply matches_Seq_inv in H2 as (mid & s3 & -> & H2 & H3).
    apply matches_Star_Class in H2.
    apply matches_Class_inv in H3 as (w & -> & Hw).
    exists l, mid, w, t. split; [|done].
    by rewrite !app_assoc.
  - intros (l & mid & w & r & -> & Hmid & Hw).
    exists l, (";" +:+ mid +:+ String w ""), r. split.
    + by rewrite !app_assoc.
    + constructor; [by apply matches_Lit|].
      constructor; [by apply matches_Star_Class|by constructor].
Qed.

(** The filter, condition by condition, for any text. *)
Lemma is_safe_sql_spec self sql :
  _is_safe_sql self sql = true ↔
    let s := strip (lower sql) in
    startswith "select" s = true
    ∧ (∀ kw, In kw (forbidden_keywords self) → ¬ contains kw s)
    ∧ ¬ contains "--" s ∧ ¬ contains "/*" s ∧ ¬ contains "*/" s
    ∧ ¬ semicolon_then_word_on_line s.
Proof.
  unfold _is_safe_sql. cbv zeta. set (s := strip (lower sql)).
  destruct (startswith "select" s) eqn:Hsel; cbn [negb]; [|split; [done|tauto]].
  destruct (existsb _ (forbidden_keywords self)) eqn:Hkw.
  { split; [done|]. intros (_ & Hf & _). exfalso.
    apply existsb_exists in Hkw as (kw & Hin & Hkw).
    apply str_in_spec in Hkw. by apply (Hf kw). }
  rewrite existsb_false in Hkw.
  assert (∀ kw, In kw (forbidden_keywords self) → ¬ contains kw s) as Hkw'.
  { intros kw Hin. apply str_in_false. by apply Hkw. }
  unfold dangerous_patterns. cbn [existsb].
  pose proof (search_Lits "--" s) as P1.
  pose proof (search_Lits "/*" s) as P2.
  pose proof (search_Lits "*/" s) as P3.
  pose proof (search_semicolon_word s) as P4.
  destruct (search (Lits "--") s), (search (Lits "/*") s),
    (search (Lits "*/") s), (search (Seq (Lit ";") (Seq (Star Dot) Word)) s);
    cbn [orb]; (split; [try discriminate|]; intros; intuition congruence).
Qed.

Lemma single_line_strip_lower s : single_line s → single_line (strip (lower s)).
Proof.
  unfold single_line, lower. intros H. apply forall_str_strip.
  rewrite forall_str_map.
  rewrite (forall_str_ext _ (fun c => negb (Ascii.eqb c newline))); [done|].
  intros c. by rewrite lower_char_newline.
Qed.

(** On one line of text the pattern finds every semicolon that is
    followed by a word character. *)
Lemma semicolon_on_line_iff s :
  single_line s → semicolon_then_word_on_line s ↔ semicolon_then_word s.
Proof.
  intros Hs. split.
  - intros (l & mid & w & r & E & _ & Hw). by exists l, mid, w, r.
  - intros (l & mid & w & r & E & Hw). exists l, mid, w, r.
    split; [done|]. split; [|done].
    unfold single_line in Hs.
    rewrite E, !forall_str_app, !andb_true_iff in Hs. tauto.
Qed.

(** The deny list is set at construction and no handler changes it. *)
Lemma forbidden_keywords_disconnect t :
  forbidden_keywords (_handle_disconnect t).1.2 = forbidden_keywords t.
Proof.
  unfold _handle_disconnect.
  destruct (current_connection t) as [c|]; [|done].
  destruct (has_close c); [destruct (close_raises c)|]; done.
Qed.

Lemma forbidden_keywords_operation cd rq self op :
  forbidden_keywords (apply_operation cd rq self op).1.2
  = forbidden_keywords self.
Proof.
  destruct op as [ty cs now|sql|]; simpl.
  - unfold _handle_connect.
    pose proof (forbidden_keywords_disconnect self) as Hd.
    destruct (current_connection self) as [c|].
    + destruct (_handle_disconnect self) as [[m s1] c1]. simpl in Hd.
      destruct (supported_databases s1 !! _) as [[]|]; [|done..].
      by destruct (cd _ _).
    + destruct (supported_databases self !! _) as [[]|]; [|done..].
      by destruct (cd _ _).
  - unfold _handle_query. destruct (current_connection self) as [c|]; [|done].
    destruct (negb _); [done|]. destruct (_ || _); [|done].
    by destruct (rq _ _ _ _).
  - apply forbidden_keywords_disconnect.
Qed.

Lemma forbidden_keywords_reachable cd rq self :
  reachable cd rq self →
  forbidden_keywords self = forbidden_keywords (__init__ ∅ false false).
Proof.
  induction 1 as [|self op _ IH]; [done|].
  by rewrite forbidden_keywords_operation.
Qed.

(** C1 (as amended).  For ASCII text on a single line, the query safety
    filter accepts a SQL string exactly when the trimmed, case-folded
    string begins with [select], contains none of the nineteen deny-listed
    keywords anywhere, contains none of the comment markers [--], [/*],
    [*/], and has no semicolon followed later by a word character (letter,
    digit or underscore); and [select 1; drop table x] is rejected. *)
Theorem is_safe_sql_accepts_iff :
  (∀ self sql,
     forbidden_keywords self =
       ["insert"; "update"; "delete"; "drop"; "create"; "alter"; "truncate";
        "grant"; "revoke"; "commit"; "rollback"; "exec"; "execute"; "sp_";
        "xp_"; "cmdshell"; "bulk"; "openrowset"; "opendatasource"] →
     ascii_text sql → single_line sql →
     (_is_safe_sql self sql = true ↔
        startswith "select" (strip (lower sql)) = true
        ∧ (∀ kw,
             In kw
               ["insert"; "update"; "delete"; "drop"; "create"; "alter";
                "truncate"; "grant"; "revoke"; "commit"; "rollback"; "exec";
                "execute"; "sp_"; "xp_"; "cmdshell"; "bulk"; "openrowset";
                "opendatasource"] →
             ¬ contains kw (strip (lower sql)))
        ∧ ¬ contains "--" (strip (lower sql))
        ∧ ¬ contains "/*" (strip (lower sql))
        ∧ ¬ contains "*/" (strip (lower sql))
        ∧ ¬ semicolon_then_word (strip (lower sql))))
  ∧ (∀ config my pg,
       _is_safe_sql (__init__ config my pg) "select 1; drop table x" = false).
Proof.
  split; [|done].
  intros self sql Hkw _ Hline.
  rewrite is_safe_sql_spec. cbv zeta. rewrite Hkw.
  by rewrite (semicolon_on_line_iff _ (single_line_strip_lower _ Hline)).
Qed.

(** The theorem at the query of the repository's own test. *)
Lemma is_safe_sql_accepts_iff_witness :
  _is_safe_sql (__init__ ∅ false false) "SELECT * FROM employees" = true ↔
    startswith "select" (strip (lower "SELECT * FROM employees")) = true
    ∧ (∀ kw,
         In kw
           ["insert"; "update"; "delete"; "drop"; "create"; "alter";
            "truncate"; "grant"; "revoke"; "commit"; "rollback"; "exec";
            "execute"; "sp_"; "xp_"; "cmdshell"; "bulk"; "openrowset";
            "opendatasource"] →
         ¬ contains kw (strip (lower "SELECT * FROM employees")))
    ∧ ¬ contains "--" (strip (lower "SELECT * FROM employees"))
    ∧ ¬ contains "/*" (strip (lower "SELECT * FROM employees"))
    ∧ ¬ contains "*/" (strip (lower "SELECT * FROM employees"))
    ∧ ¬ semicolon_then_word (strip (lower "SELECT * FROM employees")).
Proof.
  apply (proj1 is_safe_sql_accepts_iff (__init__ ∅ false false)
           "SELECT * FROM employees").
  - reflexivity.
  - reflexivity.
  - reflexivity.
Defined.

(** C1, as the specification words it, fails: the filter accepts
    [select ';'], in which a semicolon is followed by the non-blank
    character ['], because the pattern asks for a word character; and it
    accepts a second statement on the next line, because [.] does not
    cross a line feed. *)
Lemma is_safe_sql_accepts_semicolon_then_quote :
  (_is_safe_sql (__init__ ∅ false false) "select ';'" = true
   ∧ ¬ spec_safe_sql (__init__ ∅ false false) "select ';'")
  ∧ (_is_safe_sql (__init__ ∅ false false)
       ("select 1;" +:+ String newline "select 2") = true
     ∧ ¬ spec_safe_sql (__init__ ∅ false false)
           ("select 1;" +:+ String newline "select 2")).
Proof.
  split; (split; [reflexivity|]); intros (_ & _ & _ & _ & _ & H); apply H.
  - exists "select '", "'". split; reflexivity.
  - exists "select 1", (String newline "select 2"). split; reflexivity.
Qed.

(** C5 (as amended).  Given the query [DROP TABLE users] the tool makes
    no driver call and keeps its state; with a live connection it returns
    the fixed rejection message, which names no keyword, and without one
    the not-connected message. *)
Theorem handle_query_rejects_drop_table :
  ∀ (run_query : string → Connection → Z → string → outcome string) self,
    _handle_query run_query self (Some "DROP TABLE users") =
      (match current_connection self with
       | Some _ => msg_unsafe_sql
       | None => msg_not_connected
       end, self, []).
Proof.
  intros rq self. unfold _handle_query.
  by destruct (current_connection self).
Qed.

Lemma not_names_disallowed_keyword self sql result :
  existsb (fun kw => str_in kw (lower sql) && str_in kw (lower result))
    (forbidden_keywords self) = false →
  ¬ names_disallowed_keyword self sql result.
Proof.
  intros H (kw & Hin & H1 & H2).
  rewrite existsb_false in H. specialize (H kw Hin).
  apply str_in_spec in H1, H2. by rewrite H1, H2 in H.
Qed.

(** C5, as the specification words it, fails: on a connected tool the
    rejection of [DROP TABLE users] is the generic message, which does not
    mention [drop] or any other deny-listed keyword. *)
Lemma drop_table_rejection_names_no_keyword :
  (_handle_query empty_result_driver
     (connected_tool memory_connection "sqlite" ":memory:" 0%Q)
     (Some "DROP TABLE users")).1.1
    = msg_unsafe_sql
  ∧ ¬ names_disallowed_keyword
        (connected_tool memory_connection "sqlite" ":memory:" 0%Q)
        "DROP TABLE users"
        (_handle_query empty_result_driver
           (connected_tool memory_connection "sqlite" ":memory:" 0%Q)
           (Some "DROP TABLE users")).1.1.
Proof.
  split; [reflexivity|].
  apply not_names_disallowed_keyword. by vm_compute.
Qed.

Lemma cleared_disconnect self : cleared self → cleared (_handle_disconnect self).1.2.
Proof.
  unfold cleared, _handle_disconnect. intros H.
  destruct (current_connection self) as [c|] eqn:E;
    [|simpl; intros _; by apply H].
  destruct (has_close c); [destruct (close_raises c)|]; simpl;
    rewrite ?E; done.
Qed.

Lemma cleared_operation cd rq self op :
  cleared self → cleared (apply_operation cd rq self op).1.2.
Proof.
  intros H. destruct op as [ty cs now|sql|]; simpl.
  - unfold _handle_connect.
    assert (cleared (match current_connection self with
                     | Some _ => let '(_, s, c) := _handle_disconnect self in (s, c)
                     | None => (self, [])
                     end).1) as H1.
    { destruct (current_connection self) eqn:E; [|done].
      pose proof (cleared_disconnect self H) as Hd.
      by destruct (_handle_disconnect self) as [[m s1] c1]. }
    destruct (match current_connection self with
              | Some _ => _ | None => _ end) as [s1 c1]. simpl in H1.
    destruct (supported_databases s1 !! _) as [[]|]; [|done..].
    destruct (cd _ _); [|done]. by intros ?.
  - unfold _handle_query. destruct (current_connection self) as [c|]; [|done].
    destruct (negb _); [done|]. destruct (_ || _); [|done].
    by destruct (rq _ _ _ _).
  - by apply cleared_disconnect.
Qed.

Lemma cleared_reachable cd rq self : reachable cd rq self → cleared self.
Proof.
  induction 1 as [|self op _ IH]; [done|]. by apply cleared_operation.
Qed.

(** C9.  Disconnect with no live connection returns the no-op notice,
    which is not an error result, makes no driver call and leaves the tool
    as it was; in every state the tool can reach, no connection also means
    no database type and an empty connection info; so a second disconnect
    right after a first that succeeded is such a no-op. *)
Theorem disconnect_idempotent :
  ∀ (connect_driver : string → string → outcome Connection)
    (run_query : string → Connection → Z → string → outcome string),
  (∀ self,
     reachable connect_driver run_query self →
     current_connection self = None →
     _handle_disconnect self = (msg_no_active_connection, self, [])
     ∧ current_db_type self = None ∧ connection_info self = ∅)
  ∧ (∀ self self1 calls1,
       _handle_disconnect self = (msg_disconnected, self1, calls1) →
       _handle_disconnect self1 = (msg_no_active_connection, self1, [])
       ∧ current_connection self1 = None
       ∧ current_db_type self1 = None ∧ connection_info self1 = ∅)
  ∧ is_error_result msg_no_active_connection = false.
Proof.
  intros cd rq. split; [|split; [|reflexivity]].
  - intros self Hr Hc. split.
    + unfold _handle_disconnect. by rewrite Hc.
    + by apply (cleared_reachable cd rq).
  - intros self self1 calls1. unfold _handle_disconnect at 1.
    destruct (current_connection self) as [c|]; [|intros [=]].
    destruct (has_close c); [destruct (close_raises c)|]; intros E.
    + exfalso. apply (f_equal (fun x => x.1.1)) in E. by vm_compute in E.
    + apply (f_equal (fun x => x.1.2)) in E. simpl in E. by subst self1.
    + apply (f_equal (fun x => x.1.2)) in E. simpl in E. by subst self1.
Qed.

(** The theorem on a fresh tool, and on one that was connected. *)
Lemma disconnect_idempotent_witness :
  (_handle_disconnect (__init__ ∅ false false)
     = (msg_no_active_connection, __init__ ∅ false false, [])
   ∧ current_db_type (__init__ ∅ false false) = None
   ∧ connection_info (__init__ ∅ false false) = ∅)
  ∧ (let self1 :=
       (_handle_disconnect
          (connected_tool memory_connection "sqlite" ":memory:" 0%Q)).1.2 in
     _handle_disconnect self1 = (msg_no_active_connection, self1, [])
     ∧ current_connection self1 = None
     ∧ current_db_type self1 = None ∧ connection_info self1 = ∅).
Proof.
  pose (cd := fun _ _ : string => Return memory_connection).
  pose (rq := fun (_ : string) (_ : Connection) (_ : Z) (_ : string) =>
                Return "").
  split.
  - apply (proj1 (disconnect_idempotent cd rq) (__init__ ∅ false false)).
    + apply reach_init.
    + reflexivity.
  - apply (proj1 (proj2 (disconnect_idempotent cd rq))
             (connected_tool memory_connection "sqlite" ":memory:" 0%Q)
             _ [DriverClose memory_connection]).
    reflexivity.
Defined.

End DatabaseFacts.

Module ToolsFacts.
Import Py Tools.

Section RegistryFacts.

Context {World PyValue : Type}.
Variable loop_time : World → Q.

Local Abbreviation Kwargs := (gmap string PyValue).
Local Abbreviation Collection := (ToolCollection World PyValue).

Lemma stats_ok_init : stats_ok (__init__ : Collection).
Proof.
  split.
  - intros n. simpl. rewrite !lookup_empty. split; intros [? ?]; done.
  - intros n st. simpl. by rewrite lookup_empty.
Qed.

Lemma stats_ok_add (self : Collection) tool :
  stats_ok self → stats_ok (add_tool self tool).
Proof.
  intros [Hdom Hbal]. split.
  - intros n. simpl. destruct (decide (name tool = n)) as [->|Hne].
    + rewrite !lookup_insert_eq. split; eauto.
    + rewrite !lookup_insert_ne by done. apply Hdom.
  - intros n st. simpl. destruct (decide (name tool = n)) as [->|Hne].
    + rewrite lookup_insert_eq. intros [= <-]. reflexivity.
    + rewrite lookup_insert_ne by done. apply Hbal.
Qed.

Lemma stats_ok_remove (self : Collection) tool_name :
  stats_ok self → stats_ok (remove_tool self tool_name).2.
Proof.
  intros [Hdom Hbal]. unfold remove_tool.
  destruct (_tools self !! tool_name) eqn:E; [|done]. split.
  - intros n. simpl. destruct (decide (tool_name = n)) as [->|Hne].
    + rewrite !lookup_delete_eq. split; intros [? ?]; done.
    + rewrite !lookup_delete_ne by done. apply Hdom.
  - intros n st. simpl. destruct (decide (tool_name = n)) as [->|Hne].
    + by rewrite lookup_delete_eq.
    + rewrite lookup_delete_ne by done. apply Hbal.
Qed.

Lemma stats_ok_set (self : Collection) tool_name st0 st :
  stats_ok self → _tool_stats self !! tool_name = Some st0 → balanced st →
  stats_ok (set_stats self tool_name st).
Proof.
  intros [Hdom Hbal] H0 Hst. split.
  - intros n. simpl. destruct (decide (tool_name = n)) as [->|Hne].
    + rewrite lookup_insert_eq. rewrite Hdom, H0. split; eauto.
    + rewrite lookup_insert_ne by done. apply Hdom.
  - intros n st'. simpl. destruct (decide (tool_name = n)) as [->|Hne].
    + rewrite lookup_insert_eq. by intros [= <-].
    + rewrite lookup_insert_ne by done. apply Hbal.
Qed.

Lemma balanced_success st t :
  balanced st → balanced (count_success (count_call st) t).
Proof. unfold balanced. simpl. lia. Qed.

Lemma balanced_failure st t :
  balanced st → balanced (count_failure (count_call st) t).
Proof. unfold balanced. simpl. lia. Qed.

Lemma stats_ok_execute (self : Collection) tool_name kwargs w :
  stats_ok self →
  stats_ok (execute_tool loop_time self tool_name kwargs w).1.2.
Proof.
  intros Hok. unfold execute_tool.
  destruct (get_tool self tool_name) as [tool|]; [|done].
  destruct (_tool_stats self !! tool_name) as [st0|] eqn:E; [|done].
  assert (balanced st0) as Hb by (by apply (proj2 Hok tool_name)).
  destruct (validate_args tool kwargs w) as [[]|e].
  - destruct (execute tool kwargs w) as [[result|e] w']; simpl;
      eapply stats_ok_set; eauto using balanced_success, balanced_failure.
  - simpl. eapply stats_ok_set; eauto using balanced_failure.
  - simpl. eapply stats_ok_set; eauto using balanced_failure.
Qed.

Create HintDb registry.
Local Hint Resolve stats_ok_init stats_ok_add stats_ok_remove
  stats_ok_execute : registry.

Lemma stats_ok_reachable (self : Collection) :
  reachable loop_time self → stats_ok self.
Proof. induction 1; auto with registry. Qed.

Lemma reachable_dispatch_all (self : Collection) requests w :
  reachable loop_time self →
  reachable loop_time (dispatch_all loop_time self requests w).1.2.
Proof.
  revert self w. induction requests as [|[n kw] rest IH]; intros self w Hr.
  - done.
  - simpl.
    pose proof (reach_execute loop_time self n kw w Hr) as H1.
    destruct (execute_tool loop_time self n kw w) as [[r self1] w1].
    simpl in H1. specialize (IH self1 w1 H1).
    by destruct (dispatch_all loop_time self1 rest w1) as [[rs self2] w2].
Qed.

Lemma reachable_create (tools : list (BaseTool World PyValue)) :
  reachable loop_time (create_tool_collection tools).
Proof.
  unfold create_tool_collection.
  assert (∀ tc : Collection, reachable loop_time tc →
            reachable loop_time (fold_left add_tool tools tc)) as H.
  { induction tools as [|t ts IH]; intros tc Htc; [done|].
    simpl. apply IH. by constructor. }
  apply H. constructor.
Qed.

(** Dispatch never raises outward on a registry built by the program. *)
Lemma execute_tool_returns (self : Collection) tool_name kwargs w :
  reachable loop_time self →
  ∃ result, (execute_tool loop_time self tool_name kwargs w).1.1
            = Return result.
Proof.
  intros Hr. apply stats_ok_reachable in Hr as [Hdom _].
  unfold execute_tool, get_tool.
  destruct (_tools self !! tool_name) as [tool|] eqn:Et; [|by eexists].
  destruct (_tool_stats self !! tool_name) as [st0|] eqn:E.
  - destruct (validate_args tool kwargs w) as [[]|e]; [|by eexists..].
    destruct (execute tool kwargs w) as [[result|e] w']; by eexists.
  - exfalso. assert (is_Some (_tool_stats self !! tool_name)) as [? ?].
    { apply Hdom. by rewrite Et. }
    congruence.
Qed.

End RegistryFacts.

(** C2.  On a registry built from registrations, removals and dispatches,
    after any further sequence of dispatches every registered tool has a
    statistics entry with [calls = successes + failures]; and a dispatch
    that names an unregistered tool returns the not-found result and
    leaves the whole registry (hence every counter, and the set of
    entries) and the world as they were. *)
Theorem dispatch_statistics_balanced :
  ∀ (World PyValue : Type) (loop_time : World → Q),
    (∀ (self : ToolCollection World PyValue) requests w tool_name,
       reachable loop_time self →
       is_Some (_tools (dispatch_all loop_time self requests w).1.2
                  !! tool_name) →
       ∃ st,
         _tool_stats (dispatch_all loop_time self requests w).1.2
           !! tool_name = Some st
         ∧ calls st = successes st + failures st)
    ∧ (∀ (self : ToolCollection World PyValue) tool_name kwargs w,
         _tools self !! tool_name = None →
         execute_tool loop_time self tool_name kwargs w
         = (Return ("❌ 未找到工具: " +:+ tool_name), self, w)).
Proof.
  intros World PyValue loop_time. split.
  - intros self requests w n Hr Hreg.
    pose proof (stats_ok_reachable loop_time _
                  (reachable_dispatch_all loop_time self requests w Hr))
      as [Hdom Hbal].
    apply Hdom in Hreg as [st Hst]. exists st. split; [done|].
    by apply (Hbal n).
  - intros self n kw w Hn. unfold execute_tool, get_tool. by rewrite Hn.
Qed.

(** The theorem on a registry with one tool, after a dispatch to it and a
    dispatch to an unknown name. *)
Lemma dispatch_statistics_balanced_witness :
  (∃ st,
     _tool_stats
       (dispatch_all Agent.sample_clock
          (add_tool __init__ (Agent.returning_tool "calculator" "5"))
          [("calculator", ∅); ("nosuch", ∅)] []).1.2 !! "calculator"
     = Some st
     ∧ calls st = successes st + failures st)
  ∧ execute_tool Agent.sample_clock
      (add_tool __init__ (Agent.returning_tool "calculator" "5"))
      "nosuch" ∅ []
    = (Return ("❌ 未找到工具: " +:+ "nosuch"),
       add_tool __init__ (Agent.returning_tool "calculator" "5"), []).
Proof.
  split.
  - apply (proj1 (dispatch_statistics_balanced _ _ Agent.sample_clock)).
    + apply reach_add, reach_init.
    + vm_compute. eexists. reflexivity.
  - apply (proj2 (dispatch_statistics_balanced _ _ Agent.sample_clock)).
    reflexivity.
Defined.

End ToolsFacts.

Module AgentFacts.
Import Py Tools Agent.

Section OrchestratorFacts.

Context {World PyValue : Type}.

Local Abbreviation Kwargs := (gmap string PyValue).
Local Abbreviation AgentT := (BaseAgent World PyValue).

Implicit Types (self : AgentT) (step : Step PyValue) (w : World).

(** The ways a step can go: no tool name, unknown tool, the tool returned,
    the tool raised. *)
Ltac step_cases step w :=
  unfold _execute_step, step_failed;
  destruct (tool step) as [[|? ?]|];
  [ | destruct (get_tool _ _) as [?|];
      [ destruct (execute _ _ w) as [[?|?] ?] | ] | ];
  simpl.

(** [_execute_step] catches what the tool raises: it always returns. *)
Lemma _execute_step_returns self step w :
  ∃ line, (_execute_step self step w).1.1 = Return line.
Proof. step_cases step w; by eexists. Qed.

(** It makes at most one tool call. *)
Lemma _execute_step_calls self step w :
  (length (_execute_step self step w).2 ≤ 1)%nat.
Proof. step_cases step w; lia. Qed.

(** It looks at the agent's tools only. *)
Lemma _execute_step_counter self n step w :
  _execute_step (set_current_step self n) step w = _execute_step self step w.
Proof. reflexivity. Qed.


Lemma budget_zero self :
  (max_steps self <=? current_step self) = true → budget self = 0%nat.
Proof. unfold budget. intros H%Z.leb_le. lia. Qed.

Lemma budget_succ self :
  (max_steps self <=? current_step self) = false →
  budget self = S (budget (set_current_step self (current_step self + 1))).
Proof. unfold budget. simpl. intros H%Z.leb_gt. lia. Qed.

(** The loop, entry by entry: it handles the first [k] steps, where [k]
    is the smaller of the plan length and the budget, whatever their
    results, and adds the notice when steps remain. *)
Lemma plan_loop_spec todo : ∀ self i results w trace,
  let r := plan_loop self i todo results w trace in
  let k := Nat.min (length todo) (budget self) in
  ∃ lines called,
    r.1.1.1 = results ++ lines
                ++ (if (k <? length todo)%nat then [msg_step_limit] else [])
    ∧ r.2 = trace ++ called
    ∧ length lines = k
    ∧ (length called ≤ k)%nat
    ∧ current_step r.1.1.2 = current_step self + Z.of_nat k
    ∧ max_steps r.1.1.2 = max_steps self
    ∧ tools r.1.1.2 = tools self
    ∧ (∀ j step, todo !! j = Some step → (j < k)%nat →
         ∃ wj line,
           (_execute_step self step wj).1.1 = Return line
           ∧ lines !! j = Some (step_line (i + j) line)).
Proof.
  induction todo as [|step rest IH]; intros self i results w trace r k.
  - exists [], []. subst r k. simpl. rewrite !app_nil_r.
    repeat split; try done; try lia.
  - subst r k. simpl plan_loop.
    destruct (max_steps self <=? current_step self) eqn:Hb.
    + rewrite (budget_zero _ Hb), Nat.min_0_r. exists [], []. simpl.
      rewrite app_nil_r. repeat split; try done; try lia.
    + destruct (_execute_step_returns self step w) as [line Hline].
      pose proof (_execute_step_calls self step w) as Hcalls.
      destruct (_execute_step self step w) as [[o w'] called] eqn:Hstep.
      simpl in Hline, Hcalls. subst o.
      rewrite (budget_succ _ Hb). simpl length. rewrite <- Nat.succ_min_distr.
      set (self1 := set_current_step self (current_step self + 1)).
      destruct (IH self1 (S i) (results ++ [step_line i line]) w'
                  (trace ++ called))
        as (lines & called' & Hres & Htr & Hlen & Hclen & Hcur & Hmax
            & Htools & Hlines).
      exists (step_line i line :: lines), (called ++ called').
      rewrite Hres, Htr, Hcur, Hmax, Htools. simpl.
      rewrite <- !app_assoc. simpl.
      repeat split; try done.
      * by rewrite Hlen.
      * rewrite length_app. lia.
      * lia.
      * intros [|j] s Hs Hj.
        -- simpl in Hs. injection Hs as <-. exists w, line.
           rewrite Hstep. split; [done|]. by rewrite Nat.add_0_r.
        -- simpl in Hs. destruct (Hlines j s Hs) as (wj & l & H1 & H2); [lia|].
           exists wj, l. split; [done|]. simpl.
           by rewrite H2, Nat.add_succ_r.
Qed.

Lemma plan_loop_run self i step rest results w trace line w' called :
  (max_steps self <=? current_step self) = false →
  _execute_step self step w = (Return line, w', called) →
  plan_loop self i (step :: rest) results w trace
  = plan_loop (set_current_step self (current_step self + 1)) (S i) rest
      (results ++ [step_line i line]) w' (trace ++ called).
Proof. intros Hb E. simpl. by rewrite Hb, E. Qed.

Lemma plan_loop_halt self i step rest results w trace :
  (max_steps self <=? current_step self) = true →
  plan_loop self i (step :: rest) results w trace
  = (results ++ [msg_step_limit], self, w, trace).
Proof. intros Hb. simpl. by rewrite Hb. Qed.

Lemma set_current_step_same self :
  set_current_step self (current_step self + Z.of_nat 0) = self.
Proof. destruct self. unfold set_current_step. simpl. f_equal. lia. Qed.

Lemma run_steps_counter self n todo : ∀ i w,
  run_steps (set_current_step self n) i todo w = run_steps self i todo w.
Proof.
  induction todo as [|step rest IH]; intros i w; [done|].
  simpl. rewrite _execute_step_counter.
  destruct (_execute_step self step w) as [[o w'] called].
  by rewrite IH.
Qed.

(** The loop is the unconditional run of the first [k] steps, followed by
    the notice when steps remain. *)
Lemma plan_loop_run_steps todo : ∀ self i results w trace,
  plan_loop self i todo results w trace
  = (results
       ++ (run_steps self i
             (take (Nat.min (length todo) (budget self)) todo) w).1.1
       ++ (if (Nat.min (length todo) (budget self) <? length todo)%nat
           then [msg_step_limit] else []),
     set_current_step self
       (current_step self
        + Z.of_nat (Nat.min (length todo) (budget self))),
     (run_steps self i
        (take (Nat.min (length todo) (budget self)) todo) w).1.2,
     trace
       ++ (run_steps self i
             (take (Nat.min (length todo) (budget self)) todo) w).2).
Proof.
  induction todo as [|step rest IH]; intros self i results w trace.
  - simpl. by rewrite !app_nil_r, set_current_step_same.
  - simpl plan_loop.
    destruct (max_steps self <=? current_step self) eqn:Hb.
    + rewrite (budget_zero _ Hb), Nat.min_0_r. simpl.
      by rewrite !app_nil_r, set_current_step_same.
    + destruct (_execute_step_returns self step w) as [line Hline].
      destruct (_execute_step self step w) as [[o w'] called] eqn:Hstep.
      simpl in Hline. subst o.
      rewrite IH, (budget_succ _ Hb). simpl length.
      rewrite <- Nat.succ_min_distr. simpl take. simpl run_steps.
      rewrite Hstep, run_steps_counter.
      set (self1 := set_current_step self (current_step self + 1)).
      set (k := Nat.min (length rest) (budget self1)).
      destruct (run_steps self (S i) (take k rest) w') as [[lines w''] calls].
      simpl. rewrite <- !app_assoc. simpl.
      change (S k <? S (length rest))%nat with (k <? length rest)%nat.
      replace (set_current_step self1 (current_step self + 1 + Z.of_nat k))
        with (set_current_step self (current_step self + Z.of_nat (S k)));
        [done|].
      unfold self1, set_current_step. simpl. f_equal. lia.
Qed.


End OrchestratorFacts.

(** C3.  A run calls at most [budget] tools, advances the step counter by
    the smaller of the plan length and the budget, and never moves it past
    the larger of its old value and [max_steps]; on a newly built agent
    that is at most [max_steps] steps.  With [max_steps = 2] and a
    three-step plan the transcript is the two step lines and the notice,
    and the world and the tool calls are those of the first two steps:
    the third step is never run. *)
Theorem step_budget_respected :
  ∀ (World PyValue : Type),
    (∀ (self : BaseAgent World PyValue) plan w,
       (length (plan_results self plan w).2 ≤ budget self)%nat
       ∧ current_step (plan_results self plan w).1.1.2
         = current_step self
           + Z.of_nat (Nat.min (length (default [] (steps plan)))
                         (budget self))
       ∧ current_step (plan_results self plan w).1.1.2
         ≤ Z.max (current_step self) (max_steps self))
    ∧ (∀ cfg (registry : ToolCollection World PyValue) plan w,
         (length (plan_results (__init__ cfg registry) plan w).2
          ≤ Z.to_nat (max_steps (__init__ cfg registry)))%nat
         ∧ current_step (plan_results (__init__ cfg registry) plan w).1.1.2
           ≤ Z.max 0 (max_steps (__init__ cfg registry)))
    ∧ (∀ (registry : ToolCollection World PyValue) s1 s2 s3 w,
         let self := __init__ (Some 2) registry in
         let o1 := _execute_step self s1 w in
         let o2 := _execute_step self s2 o1.1.2 in
         ∃ r1 r2,
           o1.1.1 = Return r1 ∧ o2.1.1 = Return r2
           ∧ _execute_plan self
               {| summary := None; analysis := None;
                  steps := Some [s1; s2; s3] |} w
             = (join (String newline "")
                  ["步骤1: " +:+ r1; "步骤2: " +:+ r2; msg_step_limit],
                set_current_step self 2, o2.1.2, o1.2 ++ o2.2)).
Proof.
  intros World PyValue. split; [|split].
  - intros self plan w. unfold plan_results.
    destruct (plan_loop_spec (default [] (steps plan)) self 0 [] w [])
      as (lines & called & _ & Htr & _ & Hc & Hcur & _).
    rewrite Htr, Hcur. simpl. unfold budget in *. split; [lia|].
    split; [done|lia].
  - intros cfg registry plan w. unfold plan_results.
    destruct (plan_loop_spec (default [] (steps plan))
                (__init__ cfg registry) 0 [] w [])
      as (lines & called & _ & Htr & _ & Hc & Hcur & _).
    rewrite Htr, Hcur. unfold budget in *. simpl in *. split; lia.
  - intros registry s1 s2 s3 w. cbv zeta.
    set (self := __init__ (Some 2) registry).
    destruct (_execute_step_returns self s1 w) as [r1 H1].
    destruct (_execute_step self s1 w) as [[x1 w1] c1] eqn:E1.
    simpl in H1. subst x1. simpl.
    destruct (_execute_step_returns self s2 w1) as [r2 H2].
    destruct (_execute_step self s2 w1) as [[x2 w2] c2] eqn:E2.
    simpl in H2. subst x2. simpl.
    exists r1, r2. split; [done|]. split; [done|].
    unfold _execute_plan, plan_results.
    change (default [] (steps _)) with [s1; s2; s3].
    rewrite (plan_loop_run self 0 s1 _ _ _ _ r1 w1 c1) by done.
    rewrite (plan_loop_run _ 1 s2 _ _ _ _ r2 w2 c2) by done.
    rewrite plan_loop_halt by done.
    reflexivity.
Qed.

(** The scenario on the sample registry: the third step names a tool that
    would run, and the log shows that it did not. *)
Example step_budget_sample :
  _execute_plan (__init__ (Some 2) sample_tools)
    {| summary := None; analysis := None;
       steps := Some [sample_step "calculator"; sample_step "database";
                      sample_step "calculator"] |} []
  = ("步骤1: ✅ calculator: 计算结果: 2 + 3 = 5" +:+ String newline ""
       +:+ "步骤2: ❌ database 执行失败: connection lost"
       +:+ String newline "" +:+ "⚠️ 达到最大执行步数限制",
     set_current_step (__init__ (Some 2) sample_tools) 2,
     ["database"; "calculator"],
     [("calculator", ∅); ("database", ∅)]).
Proof. reflexivity. Qed.



Example step_failure_sample :
  (_execute_plan (__init__ None sample_tools)
     {| summary := None; analysis := None;
        steps := Some [sample_step "nosuch"; sample_step "database";
                       sample_step "calculator"] |} []).1.1.1
  = "步骤1: ❌ 未找到工具: nosuch" +:+ String newline ""
      +:+ "步骤2: ❌ database 执行失败: connection lost"
      +:+ String newline ""
      +:+ "步骤3: ✅ calculator: 计算结果: 2 + 3 = 5".
Proof. reflexivity. Qed.

End AgentFacts.

Module CalculatorFacts.
Import Py PyFacts PyFloat Calculator.

(** ** The integral branch of [_format_result] *)



(** ** The comparison chain *)

Lemma compare_chain_bool compare eval rest : ∀ left_ v,
  compare_chain compare eval left_ rest = Return v → ∃ b, v = VBool b.
Proof.
  induction rest as [|[op c] rest IH]; intros l v; simpl.
  - intros [= <-]. by eexists.
  - destruct (eval c) as [r|e]; [|done].
    destruct (supported_cmpop op); [|done].
    destruct (compare op l r) as [[]|e]; simpl; [apply IH| |done].
    intros [= <-]. by eexists.
Qed.



(** C10.  A comparison chain that evaluates yields a [bool], and a [bool]
    is rendered as [1] or [0] for any precision: a [bool] passes the first
    test of [_format_result], the [int] test, so the branch that would
    print [True] or [False] is never reached. *)
Theorem comparison_renders_as_digit :
  (∀ float_repr operator_binary operator_unary compare call_function
     left_ rest v precision,
     _eval_node operator_binary operator_unary compare call_function
       (ast.Compare left_ rest) = Return v →
     (∃ b, v = VBool b)
     ∧ (_format_result float_repr v precision = Return "1"
        ∨ _format_result float_repr v precision = Return "0"))
  ∧ (∀ float_repr b precision,
       _format_result float_repr (VBool b) precision
       = Return (if b then "1" else "0"))
  ∧ (∀ v, isinstance_bool v = true → isinstance_int v = true).
Proof.
  split; [|split].
  - intros fr ob ou cmp call l rest v p. simpl.
    destruct (_eval_node ob ou cmp call l) as [lv|e]; [|done].
    intros H. apply compare_chain_bool in H as [b ->].
    split; [by eexists|]. destruct b; [by left|by right].
  - by intros fr [] p.
  - by intros [].
Qed.

(** The theorem on [1 < 2] with IEEE comparison. *)
Lemma comparison_renders_as_digit_witness :
  (∃ b, VBool true = VBool b)
  ∧ (_format_result (format_g 17) (VBool true) None = Return "1"
     ∨ _format_result (format_g 17) (VBool true) None = Return "0").
Proof.
  apply (proj1 comparison_renders_as_digit (format_g 17) ieee_binary
           ieee_unary ieee_compare ieee_call
           (ast.Constant (VInt 1)) [(ast.Lt, ast.Constant (VInt 2))]).
  reflexivity.
Defined.

Example compare_1_lt_2 :
  execute (format_g 17) ieee_binary ieee_unary ieee_compare ieee_call
    sample_parse {| expression := Some "1 < 2"; precision := None |}
  = "计算结果: 1 < 2 = 1".
Proof. reflexivity. Qed.




Example format_ten_thirds :
  _format_result (format_g 17) (VFloat float_ten_thirds) None
  = Return "3.33333".
Proof. reflexivity. Qed.

Example format_ten_thirds_precision :
  _format_result (format_g 17) (VFloat float_ten_thirds) (Some 2)
  = Return "3.33".
Proof. reflexivity. Qed.

End CalculatorFacts.

Module PythonExecutorFacts.
Import Py PyFacts PythonExecutor.

(** The text of a run that finished is returned whole. *)
Lemma _execute_exec_whole_output sandbox self code timeout :
  finished (sandbox code timeout) = Return () →
  ∃ result,
    _execute_exec sandbox self code timeout true = Return result
    ∧ (stdout_content (sandbox code timeout) ≠ "" →
       contains (stdout_content (sandbox code timeout)) result)
    ∧ (stderr_content (sandbox code timeout) ≠ "" →
       contains (stderr_content (sandbox code timeout)) result).
Proof.
  intros Hfin. unfold _execute_exec. rewrite Hfin.
  set (run := sandbox code timeout).
  set (parts := _ ++ _ ++ _).
  assert (stdout_content run ≠ "" →
          In ("输出:" +:+ String newline "" +:+ stdout_content run) parts)
    as Hout.
  { intros Hne. subst parts. apply in_or_app. left.
    destruct (stdout_content run); [done|]. by left. }
  assert (stderr_content run ≠ "" →
          In ("错误:" +:+ String newline "" +:+ stderr_content run) parts)
    as Herr.
  { intros Hne. subst parts. apply in_or_app. right. apply in_or_app. left.
    destruct (stderr_content run); [done|]. by left. }
  exists (match parts with
          | [] => "执行完成，无输出"
          | _ => join (String newline "") parts
          end).
  split; [by destruct parts|].
  split; intros Hne.
  - specialize (Hout Hne). destruct parts as [|p ps] eqn:E; [done|].
    rewrite <- E in *.
    destruct (contains_join (String newline "") _ _ Hout) as (l & r & ->).
    exists (l +:+ "输出:" +:+ String newline ""), r. by rewrite !app_assoc.
  - specialize (Herr Hne). destruct parts as [|p ps] eqn:E; [done|].
    rewrite <- E in *.
    destruct (contains_join (String newline "") _ _ Herr) as (l & r & ->).
    exists (l +:+ "错误:" +:+ String newline ""), r. by rewrite !app_assoc.
Qed.

(** C4 fails on the code.  [_execute_exec] never reads
    [max_output_length]: its result is the same for every executor.  With
    the limit set to 5, a run that printed ten digits returns all eleven
    characters and no mark of a cut. *)
Theorem captured_output_is_not_bounded :
  (∀ sandbox self self' code timeout capture_output,
     _execute_exec sandbox self code timeout capture_output
     = _execute_exec sandbox self' code timeout capture_output)
  ∧ max_output_length (__init__ (Some short_output_config)) = 5
  ∧ _execute_exec print_digits_sandbox (__init__ (Some short_output_config))
      "print('0123456789')" 30 true
    = Return ("输出:" +:+ String newline "" +:+ "0123456789"
                +:+ String newline "")
  ∧ String.length (stdout_content print_digits_run) = 11%nat.
Proof. repeat split. Qed.

End PythonExecutorFacts.

Module ToolsMore.
Import Py Tools ToolsFacts.

Section RegistryMore.

Context {World PyValue : Type}.
Variable loop_time : World → Q.

Local Abbreviation Kwargs := (gmap string PyValue).
Local Abbreviation Collection := (ToolCollection World PyValue).

(** X1.  Registering a tool makes it the tool of its name, with all
    counters at zero, whatever was registered under that name before, and
    leaves the other names alone; the collection grows by one exactly when
    the name is new. *)
Theorem add_tool_replaces :
  ∀ (self : Collection) tool,
    get_tool (add_tool self tool) (name tool) = Some tool
    ∧ _tool_stats (add_tool self tool) !! name tool = Some fresh_stats
    ∧ (∀ other, other ≠ name tool →
         get_tool (add_tool self tool) other = get_tool self other
         ∧ _tool_stats (add_tool self tool) !! other
           = _tool_stats self !! other)
    ∧ __len__ (add_tool self tool)
      = (if __contains__ self (name tool) then __len__ self
         else S (__len__ self)).
Proof.
  intros self tool. unfold get_tool, add_tool, __len__, __contains__. simpl.
  split; [apply lookup_insert_eq|]. split; [apply lookup_insert_eq|].
  split.
  - intros other Hne. by rewrite !lookup_insert_ne.
  - destruct (_tools self !! name tool) as [old|] eqn:E.
    + rewrite bool_decide_eq_true_2 by (by eexists).
      rewrite <- (insert_delete_id (_tools self) (name tool) old E) at 2.
      rewrite <- insert_delete_eq.
      rewrite !map_size_insert_None; [done|apply lookup_delete_eq..].
    + rewrite bool_decide_eq_false_2 by (by intros [? ?]).
      by apply map_size_insert_None.
Qed.

(** X2.  Removing a name answers whether it was registered; afterwards
    neither the tool nor its statistics are there, the other names are
    untouched, and removing an unknown name changes nothing.  On a
    registry the program can build, removing a tool just added under a new
    name gives back the registry as it was. *)
Theorem remove_tool_forgets :
  (∀ (self : Collection) tool_name,
     (remove_tool self tool_name).1 = __contains__ self tool_name
     ∧ get_tool (remove_tool self tool_name).2 tool_name = None
     ∧ (__contains__ self tool_name = true →
        _tool_stats (remove_tool self tool_name).2 !! tool_name = None)
     ∧ (∀ other, other ≠ tool_name →
          get_tool (remove_tool self tool_name).2 other = get_tool self other
          ∧ _tool_stats (remove_tool self tool_name).2 !! other
            = _tool_stats self !! other)
     ∧ (__contains__ self tool_name = false →
        (remove_tool self tool_name).2 = self))
  ∧ (∀ (self : Collection) tool,
       reachable loop_time self →
       __contains__ self (name tool) = false →
       remove_tool (add_tool self tool) (name tool) = (true, self)).
Proof.
  split.
  - intros self n. unfold remove_tool, __contains__, get_tool.
    destruct (_tools self !! n) as [t|] eqn:E; simpl.
    + split; [done|]. split; [apply lookup_delete_eq|].
      split; [intros _; apply lookup_delete_eq|]. split; [|done].
      intros other Hne. by rewrite !lookup_delete_ne.
    + repeat split; try done.
  - intros self tool Hr Hc.
    apply bool_decide_eq_false_1 in Hc.
    assert (_tools self !! name tool = None) as Ht.
    { destruct (_tools self !! name tool) eqn:E; [|done].
      exfalso. apply Hc. by eexists. }
    assert (_tool_stats self !! name tool = None) as Hs.
    { destruct (stats_ok_reachable loop_time self Hr) as [Hdom _].
      destruct (_tool_stats self !! name tool) eqn:E; [|done].
      exfalso. apply Hc. apply Hdom. by eexists. }
    unfold remove_tool, add_tool. simpl. rewrite lookup_insert_eq.
    rewrite !delete_insert_id by done. by destruct self.
Qed.

(** One dispatch, seen from the statistics entry of a tool [n]. *)
Lemma execute_tool_accounting (self : Collection) tool_name kwargs w n st :
  stats_ok self →
  _tool_stats self !! n = Some st →
  ∃ st',
    _tool_stats (execute_tool loop_time self tool_name kwargs w).1.2 !! n
      = Some st'
    ∧ calls st' = calls st + (if bool_decide (tool_name = n) then 1 else 0)
    ∧ successes st ≤ successes st' ∧ failures st ≤ failures st'
    ∧ successes st' + failures st'
      = successes st + failures st
        + (if bool_decide (tool_name = n) then 1 else 0).
Proof.
  intros [Hdom _] Hst. unfold execute_tool, get_tool.
  destruct (_tools self !! tool_name) as [tool|] eqn:Et.
  2:{ exists st. simpl. rewrite Hst. case_bool_decide as Hn.
      - subst. assert (is_Some (_tools self !! n)) as [? ?]; [|congruence].
        apply Hdom. by eexists.
      - split; [done|]. lia. }
  destruct (_tool_stats self !! tool_name) as [st0|] eqn:Es.
  2:{ exists st. simpl. rewrite Hst. case_bool_decide as Hn.
      - subst. congruence.
      - split; [done|]. lia. }
  assert (∀ new,
            (tool_name = n → calls new = calls st0 + 1
                             ∧ successes st0 ≤ successes new
                             ∧ failures st0 ≤ failures new
                             ∧ successes new + failures new
                               = successes st0 + failures st0 + 1) →
            ∃ st',
              _tool_stats (set_stats self tool_name new) !! n = Some st'
              ∧ calls st' = calls st
                            + (if bool_decide (tool_name = n) then 1 else 0)
              ∧ successes st ≤ successes st' ∧ failures st ≤ failures st'
              ∧ successes st' + failures st'
                = successes st + failures st
                  + (if bool_decide (tool_name = n) then 1 else 0)) as Hset.
  { intros new Hnew. simpl. case_bool_decide as Hn.
    - subst n. rewrite lookup_insert_eq. exists new.
      rewrite Es in Hst. injection Hst as <-.
      destruct (Hnew eq_refl) as (? & ? & ? & ?). repeat split; lia.
    - rewrite lookup_insert_ne by done. exists st. split; [done|]. lia. }
  destruct (validate_args tool kwargs w) as [[]|e]; simpl.
  - destruct (execute tool kwargs w) as [[result|e] w']; simpl;
      apply Hset; intros _; simpl; lia.
  - apply Hset. intros _. simpl. lia.
  - apply Hset. intros _. simpl. lia.
Qed.

Lemma execute_tool_keeps_tools (self : Collection) tool_name kwargs w :
  _tools (execute_tool loop_time self tool_name kwargs w).1.2 = _tools self.
Proof.
  unfold execute_tool.
  destruct (get_tool self tool_name) as [tool|]; [|done].
  destruct (_tool_stats self !! tool_name); [|done].
  destruct (validate_args tool kwargs w) as [[]|e]; [|done..].
  by destruct (execute tool kwargs w) as [[result|e] w'].
Qed.

Lemma times_requested_cons n tool_name kwargs (rest : list (string * Kwargs)) :
  times_requested n ((tool_name, kwargs) :: rest)
  = (if bool_decide (tool_name = n) then 1 else 0) + times_requested n rest.
Proof.
  unfold times_requested. rewrite filter_cons. simpl.
  case_bool_decide as Hn.
  - rewrite decide_True by done. simpl length. lia.
  - rewrite decide_False by done. lia.
Qed.

(** X3.  On a registry the program can build, a sequence of dispatches
    changes no registration, and for every tool with a statistics entry
    [calls] grows by the number of requests that name the tool, the other
    two counters never shrink, and together they grow by the same
    number. *)
Theorem dispatch_counts_requests :
  ∀ (self : Collection) requests w n st,
    reachable loop_time self →
    _tool_stats self !! n = Some st →
    _tools (dispatch_all loop_time self requests w).1.2 = _tools self
    ∧ ∃ st',
        _tool_stats (dispatch_all loop_time self requests w).1.2 !! n
          = Some st'
        ∧ calls st' = calls st + times_requested n requests
        ∧ successes st ≤ successes st' ∧ failures st ≤ failures st'
        ∧ successes st' + failures st'
          = successes st + failures st + times_requested n requests.
Proof.
  intros self requests. revert self.
  induction requests as [|[tn kw] rest IH]; intros self w n st Hr Hst.
  - simpl. split; [done|]. exists st. unfold times_requested. simpl.
    split; [done|]. lia.
  - simpl.
    pose proof (reach_execute loop_time self tn kw w Hr) as Hr1.
    pose proof (execute_tool_keeps_tools self tn kw w) as Ht1.
    destruct (execute_tool_accounting self tn kw w n st
                (stats_ok_reachable loop_time self Hr) Hst)
      as (st1 & Hst1 & Hc1 & Hs1 & Hf1 & Hsum1).
    destruct (execute_tool loop_time self tn kw w) as [[r self1] w1].
    simpl in Hr1, Ht1, Hst1.
    destruct (IH self1 w1 n st1 Hr1 Hst1)
      as (Ht2 & st2 & Hst2 & Hc2 & Hs2 & Hf2 & Hsum2).
    destruct (dispatch_all loop_time self1 rest w1) as [[rs self2] w2].
    simpl in *. split; [congruence|]. exists st2.
    rewrite times_requested_cons. split; [done|]. lia.
Qed.

(** One refused dispatch: [execute] is not run. *)
Lemma execute_tool_refused (self : Collection) tool_name kwargs w tool st :
  get_tool self tool_name = Some tool →
  _tool_stats self !! tool_name = Some st →
  validate_args tool kwargs w = Return false →
  execute_tool loop_time self tool_name kwargs w
  = (Return ("❌ 工具 '" +:+ tool_name +:+ "' 参数验证失败"),
     set_stats self tool_name (count_failure (count_call st) None), w).
Proof.
  intros Ht Hs Hv. unfold execute_tool. by rewrite Ht, Hs, Hv.
Qed.

(** X4.  Requests that [validate_args] refuses run no tool.  On a
    registry the program can build, after a sequence of such requests
    the world is the one before; every tool has a call and a failure
    more for each request that names it, and the same successes and the
    same total time as before. *)
Theorem refused_requests_run_nothing :
  ∀ (self : Collection) requests w,
    reachable loop_time self →
    (∀ tool_name kwargs tool w',
       (tool_name, kwargs) ∈ requests →
       get_tool self tool_name = Some tool →
       validate_args tool kwargs w' = Return false) →
    (dispatch_all loop_time self requests w).2 = w
    ∧ ∀ n st,
        _tool_stats self !! n = Some st →
        ∃ st',
          _tool_stats (dispatch_all loop_time self requests w).1.2 !! n
            = Some st'
          ∧ calls st' = calls st + times_requested n requests
          ∧ failures st' = failures st + times_requested n requests
          ∧ successes st' = successes st
          ∧ total_time st' = total_time st.
Proof.
  intros self requests. revert self.
  induction requests as [|[tn kw] rest IH]; intros self w Hr Hrefused.
  { split; [done|]. intros n st Hst. exists st. unfold times_requested.
    simpl. split; [done|]. repeat split; lia. }
  pose proof (stats_ok_reachable loop_time self Hr) as [Hdom _].
  pose proof (reach_execute loop_time self tn kw w Hr) as Hr1.
  simpl dispatch_all.
  destruct (get_tool self tn) as [tool|] eqn:Ht.
  - assert (is_Some (_tool_stats self !! tn)) as [st0 Hst0].
    { apply Hdom. by eexists. }
    assert (validate_args tool kw w = Return false) as Hv.
    { apply (Hrefused tn kw tool w); [apply list_elem_of_here|done]. }
    rewrite (execute_tool_refused self tn kw w tool st0 Ht Hst0 Hv) in *.
    simpl in Hr1.
    set (self1 := set_stats self tn (count_failure (count_call st0) None))
      in *.
    destruct (IH self1 w Hr1) as [Hw Hstats].
    { intros tn' kw' tool' w' Hin Hget.
      apply (Hrefused tn' kw' tool' w');
        [by apply list_elem_of_further|done]. }
    destruct (dispatch_all loop_time self1 rest w) as [[rs self2] w2].
    simpl in *. split; [done|].
    intros n st Hst. rewrite times_requested_cons.
    case_bool_decide as Hn.
    + subst n. rewrite Hst0 in Hst. injection Hst as <-.
      destruct (Hstats tn (count_failure (count_call st0) None))
        as (st' & Hst' & Hc & Hf & Hs & Ht');
        [by rewrite lookup_insert_eq|].
      exists st'. split; [done|]. simpl in *. repeat split; try lia; done.
    + destruct (Hstats n st) as (st' & Hst' & Hc & Hf & Hs & Ht');
        [by rewrite lookup_insert_ne|].
      exists st'. split; [done|]. repeat split; try lia; done.
  - unfold execute_tool. rewrite Ht.
    destruct (IH self w Hr) as [Hw Hstats].
    { intros tn' kw' tool' w' Hin Hget.
      apply (Hrefused tn' kw' tool' w');
        [by apply list_elem_of_further|done]. }
    destruct (dispatch_all loop_time self rest w) as [[rs self2] w2].
    simpl in *. split; [done|].
    intros n st Hst. rewrite times_requested_cons.
    case_bool_decide as Hn.
    + subst n. exfalso.
      assert (is_Some (_tools self !! tn)) as [t Htn];
        [apply Hdom; by eexists|].
      unfold get_tool in Ht. congruence.
    + destruct (Hstats n st Hst) as (st' & Hst' & Hc & Hf & Hs & Ht').
      exists st'. split; [done|]. repeat split; try lia; done.
Qed.

(** X5.  On a registry the program can build, no dispatch of a sequence
    raises: each request gets a result string, also for unknown names
    and for tools that raise. *)
Theorem dispatch_never_raises :
  ∀ (self : Collection) requests w,
    reachable loop_time self →
    length (dispatch_all loop_time self requests w).1.1 = length requests
    ∧ Forall (fun o => ∃ result, o = Return result)
        (dispatch_all loop_time self requests w).1.1.
Proof.
  intros self requests. revert self.
  induction requests as [|[tn kw] rest IH]; intros self w Hr.
  - simpl. split; [done|constructor].
  - simpl.
    pose proof (reach_execute loop_time self tn kw w Hr) as Hr1.
    destruct (execute_tool_returns loop_time self tn kw w Hr) as [res Hres].
    destruct (execute_tool loop_time self tn kw w) as [[r self1] w1].
    simpl in Hr1, Hres. subst r.
    destruct (IH self1 w1 Hr1) as [Hlen Hall].
    destruct (dispatch_all loop_time self1 rest w1) as [[rs self2] w2].
    simpl in *. split; [by rewrite Hlen|].
    constructor; [by eexists|done].
Qed.

Lemma fold_add_tool_lookup (tools : list (BaseTool World PyValue)) :
  ∀ (c : Collection) tool_name,
    get_tool (fold_left add_tool tools c) tool_name
    = match last (filter (fun t => name t = tool_name) tools) with
      | Some t => Some t
      | None => get_tool c tool_name
      end
    ∧ _tool_stats (fold_left add_tool tools c) !! tool_name
      = match last (filter (fun t => name t = tool_name) tools) with
        | Some _ => Some fresh_stats
        | None => _tool_stats c !! tool_name
        end.
Proof.
  induction tools as [|a tools IH]; intros c n; [done|].
  simpl fold_left. destruct (IH (add_tool c a) n) as [-> ->].
  rewrite filter_cons. destruct (decide (name a = n)) as [<-|Hne].
  - rewrite last_cons.
    destruct (last (filter _ tools)); [done|].
    unfold get_tool, add_tool. simpl. by rewrite !lookup_insert_eq.
  - destruct (last (filter _ tools)); [done|].
    unfold get_tool, add_tool. simpl. by rewrite !lookup_insert_ne.
Qed.

Lemma fold_add_tool_size (tools : list (BaseTool World PyValue)) :
  ∀ c : Collection,
    (__len__ (fold_left add_tool tools c) ≤ __len__ c + length tools)%nat
    ∧ (NoDup (name <$> tools) →
       (∀ t, t ∈ tools → get_tool c (name t) = None) →
       __len__ (fold_left add_tool tools c)
       = (__len__ c + length tools)%nat).
Proof.
  induction tools as [|a tools IH]; intros c.
  { simpl. split; [lia|]. intros _ _. lia. }
  simpl fold_left. destruct (IH (add_tool c a)) as [Hle Heq].
  assert (__len__ (add_tool c a) ≤ S (__len__ c))%nat as Hadd.
  { unfold __len__, add_tool. simpl.
    destruct (_tools c !! name a) eqn:Ha.
    - rewrite map_size_insert_Some by done. lia.
    - rewrite map_size_insert_None by done. lia. }
  split; [simpl; lia|].
  intros Hnd Hfresh. rewrite fmap_cons in Hnd.
  apply NoDup_cons in Hnd as [Hnotin Hnd'].
  rewrite Heq; [|done|].
  - unfold __len__ at 1, add_tool. simpl.
    rewrite map_size_insert_None; [unfold __len__; simpl; lia|].
    apply (Hfresh a). apply list_elem_of_here.
  - intros t Ht. unfold get_tool, add_tool. simpl.
    rewrite lookup_insert_ne.
    + apply (Hfresh t). by apply list_elem_of_further.
    + intros Heqn. apply Hnotin. rewrite Heqn.
      by apply list_elem_of_fmap_2.
Qed.

(** X22.  A collection made from a list of tools holds, under each name,
    the last tool of the list with that name, with a statistics entry at
    zero; it has at most as many tools as the list, and exactly as many
    when no two tools of the list share a name. *)
Theorem create_tool_collection_last_wins :
  ∀ (tools : list (BaseTool World PyValue)),
    (∀ tool_name,
       get_tool (create_tool_collection tools) tool_name
       = last (filter (fun t => name t = tool_name) tools)
       ∧ _tool_stats (create_tool_collection tools) !! tool_name
         = (if __contains__ (create_tool_collection tools) tool_name
            then Some fresh_stats else None))
    ∧ (__len__ (create_tool_collection tools) ≤ length tools)%nat
    ∧ (NoDup (name <$> tools) →
       __len__ (create_tool_collection tools) = length tools).
Proof.
  intros tools. unfold create_tool_collection. split; [|split].
  - intros n. destruct (fold_add_tool_lookup tools __init__ n) as [Hg Hs].
    split.
    + rewrite Hg. by destruct (last _).
    + rewrite Hs. unfold __contains__. fold (get_tool (fold_left add_tool
        tools (__init__ : Collection)) n). rewrite Hg.
      by destruct (last _).
  - by destruct (fold_add_tool_size tools __init__) as [Hle _].
  - intros Hnd. destruct (fold_add_tool_size tools __init__) as [_ Heq].
    by rewrite Heq.
Qed.

End RegistryMore.

(** X1 on the sample registry: registering a third tool leaves the
    [database] entry alone. *)
Lemma add_tool_replaces_witness :
  get_tool (add_tool Agent.sample_tools (Agent.returning_tool "extra" "1"))
    "database"
  = get_tool Agent.sample_tools "database"
  ∧ _tool_stats
      (add_tool Agent.sample_tools (Agent.returning_tool "extra" "1"))
      !! "database"
    = _tool_stats Agent.sample_tools !! "database".
Proof.
  apply (proj1 (proj2 (proj2
           (add_tool_replaces Agent.sample_tools
              (Agent.returning_tool "extra" "1"))))).
  discriminate.
Defined.

(** X2 on the sample registry. *)
Lemma remove_tool_forgets_witness :
  remove_tool (add_tool Agent.sample_tools (Agent.returning_tool "extra" "1"))
    "extra"
  = (true, Agent.sample_tools).
Proof.
  apply (proj2 (remove_tool_forgets Agent.sample_clock) Agent.sample_tools
           (Agent.returning_tool "extra" "1")).
  - apply reachable_create.
  - reflexivity.
Defined.


(** X3 on the sample registry: two requests name [calculator]. *)
Lemma dispatch_counts_requests_witness :
  _tools
    (dispatch_all Agent.sample_clock Agent.sample_tools
       [("calculator", ∅); ("nosuch", ∅); ("calculator", ∅)] []).1.2
  = _tools Agent.sample_tools
  ∧ ∃ st',
      _tool_stats
        (dispatch_all Agent.sample_clock Agent.sample_tools
           [("calculator", ∅); ("nosuch", ∅); ("calculator", ∅)] []).1.2
        !! "calculator" = Some st'
      ∧ calls st' = calls fresh_stats + 2
      ∧ successes fresh_stats ≤ successes st'
      ∧ failures fresh_stats ≤ failures st'
      ∧ successes st' + failures st'
        = successes fresh_stats + failures fresh_stats + 2.
Proof.
  apply (dispatch_counts_requests Agent.sample_clock Agent.sample_tools
           [("calculator", ∅); ("nosuch", ∅); ("calculator", ∅)] []
           "calculator" fresh_stats).
  - apply reachable_create.
  - reflexivity.
Defined.

(** X4 on a tool whose [validate_args] refuses every call; the second
    request names no tool. *)
Lemma refused_requests_run_nothing_witness :
  let requests : list (string * gmap string string) :=
    [("strict", ∅); ("nosuch", ∅); ("strict", ∅)] in
  let self := add_tool __init__ Agent.strict_tool in
  (dispatch_all Agent.sample_clock self requests ["before"]).2 = ["before"]
  ∧ ∀ n st,
      _tool_stats self !! n = Some st →
      ∃ st',
        _tool_stats
          (dispatch_all Agent.sample_clock self requests ["before"]).1.2
          !! n = Some st'
        ∧ calls st' = calls st + times_requested n requests
        ∧ failures st' = failures st + times_requested n requests
        ∧ successes st' = successes st
        ∧ total_time st' = total_time st.
Proof.
  intros requests self.
  apply (refused_requests_run_nothing Agent.sample_clock self requests
           ["before"]).
  - apply reach_add, reach_init.
  - intros tool_name kwargs tool w' _ Hget.
    unfold get_tool, self, add_tool in Hget. simpl in Hget.
    apply lookup_insert_Some in Hget as [[_ <-]|[_ Hget]]; [reflexivity|].
    by rewrite lookup_empty in Hget.
Defined.

(** X5 on the sample registry: one tool raises, one name is unknown. *)
Lemma dispatch_never_raises_witness :
  length
    (dispatch_all Agent.sample_clock Agent.sample_tools
       [("database", ∅); ("nosuch", ∅)] []).1.1 = 2%nat
  ∧ Forall (fun o => ∃ result, o = Return result)
      (dispatch_all Agent.sample_clock Agent.sample_tools
         [("database", ∅); ("nosuch", ∅)] []).1.1.
Proof.
  apply (dispatch_never_raises Agent.sample_clock Agent.sample_tools
           [("database", ∅); ("nosuch", ∅)] []).
  apply reachable_create.
Defined.

(** X22 on the sample registry. *)
Lemma create_tool_collection_last_wins_witness :
  __len__ Agent.sample_tools = 2%nat.
Proof.
  apply (proj2 (proj2 (create_tool_collection_last_wins
                         [Agent.returning_tool "calculator"
                            "计算结果: 2 + 3 = 5";
                          Agent.raising_tool "database" "connection lost"]))).
  apply NoDup_cons. split; [|apply NoDup_singleton].
  intros Hin. apply list_elem_of_singleton in Hin. discriminate.
Defined.

(** Two tools under one name: the later one is kept. *)
Example create_tool_collection_same_name :
  get_tool
    (create_tool_collection
       [Agent.returning_tool "calculator" "1";
        Agent.returning_tool "calculator" "2"]) "calculator"
  = Some (Agent.returning_tool "calculator" "2")
  ∧ __len__
      (create_tool_collection
         [Agent.returning_tool "calculator" "1";
          Agent.returning_tool "calculator" "2"]) = 1%nat.
Proof. split; reflexivity. Qed.

End ToolsMore.

Module AgentRunFacts.
Import Py Tools Agent AgentFacts AgentRun.

Section RunFacts.

Context {World PyValue : Type}.
Variable loop_time : World → Q.
Variable _generate_plan : string → World → outcome (Plan PyValue) * World.

Local Abbreviation Kwargs := (gmap string PyValue).
Local Abbreviation State := (AgentState World PyValue).
Local Abbreviation run := (run loop_time _generate_plan).
Local Abbreviation run_all := (run_all loop_time _generate_plan).

Implicit Types (self : State) (w : World).

Lemma _record_execution_length self user_input plan result w :
  (length (execution_history self) ≤ 100)%nat →
  (length (execution_history
             (_record_execution loop_time self user_input plan result w))
   ≤ 100)%nat.
Proof.
  intros Hlen. unfold _record_execution, last_n. simpl.
  destruct (100 <? _)%nat eqn:Hb.
  - rewrite length_drop, length_app. simpl. lia.
  - apply Nat.ltb_ge in Hb. done.
Qed.

Lemma _record_execution_agent self user_input plan result w :
  agent (_record_execution loop_time self user_input plan result w)
  = agent self.
Proof. reflexivity. Qed.

(** One [run]: the tool calls and the budget left afterwards fit in the
    budget before; the counter does not go back. *)
Lemma run_budget self user_input w :
  (length (run self user_input w).2
   + budget (agent (run self user_input w).1.1.2) ≤ budget (agent self))%nat
  ∧ current_step (agent self)
    ≤ current_step (agent (run self user_input w).1.1.2)
  ∧ max_steps (agent (run self user_input w).1.1.2) = max_steps (agent self)
  ∧ tools (agent (run self user_input w).1.1.2) = tools (agent self).
Proof.
  unfold AgentRun.run.
  destruct (_generate_plan user_input w) as [[plan|e] w1]; simpl.
  2:{ repeat split; lia. }
  unfold _execute_plan, plan_results.
  destruct (plan_loop_spec (default [] (steps plan)) (agent self) 0 [] w1 [])
    as (lines & called & _ & Htr & _ & Hc & Hcur & Hmax & Htools & _).
  destruct (plan_loop (agent self) 0 (default [] (steps plan)) [] w1 [])
    as [[[results agent'] w2] trace].
  simpl in *. subst trace. rewrite Htools, Hmax.
  unfold budget in *. rewrite Hcur, Hmax. repeat split; lia.
Qed.

Lemma run_history self user_input w :
  (length (execution_history self) ≤ 100)%nat →
  (length (execution_history (run self user_input w).1.1.2) ≤ 100)%nat.
Proof.
  intros Hlen. unfold AgentRun.run.
  destruct (_generate_plan user_input w) as [[plan|e] w1]; [|done].
  destruct (_execute_plan (agent self) plan w1) as [[[text agent'] w2] trace].
  exact (_record_execution_length
           {| agent := agent'; execution_history := execution_history self |}
           user_input plan text w2 Hlen).
Qed.

(** X6.  The history keeps the newest records only.  Below 100 entries a
    record is appended; the record that would make 101 entries cuts the
    history to its 50 newest entries, the new record last.  So in a
    session of any length that starts with at most 100 entries, the
    history never has more than 100. *)
Theorem execution_history_is_trimmed :
  (∀ self user_input plan result w,
     let record :=
       {| timestamp := loop_time w; user_input := user_input; plan := plan;
          result := result; steps_executed := current_step (agent self) |} in
     let after :=
       execution_history
         (_record_execution loop_time self user_input plan result w) in
     ((length (execution_history self) < 100)%nat →
      after = execution_history self ++ [record])
     ∧ (length (execution_history self) = 100%nat →
        after = drop 51 (execution_history self) ++ [record]
        ∧ length after = 50%nat))
  ∧ (∀ self inputs w,
       (length (execution_history self) ≤ 100)%nat →
       (total_executions (run_all self inputs w).1.1.2 ≤ 100)%nat).
Proof.
  split.
  - intros self user_input plan result w record after. subst after.
    unfold _record_execution, last_n. fold record. simpl.
    rewrite length_app. simpl. split.
    + intros Hlt. destruct (100 <? _)%nat eqn:Hb; [|done].
      apply Nat.ltb_lt in Hb. lia.
    + intros Heq. rewrite Heq. simpl.
      rewrite drop_app_le by lia. split; [done|].
      rewrite length_app, length_drop. simpl. lia.
  - intros self inputs. revert self.
    induction inputs as [|user_input rest IH]; intros self w Hlen; [done|].
    simpl.
    pose proof (run_history self user_input w Hlen) as H1.
    destruct (run self user_input w) as [[[text self1] w1] trace1].
    simpl in H1. specialize (IH self1 w1 H1).
    destruct (run_all self1 rest w1) as [[[texts self2] w2] trace2].
    done.
Qed.

(** With no budget left, a plan runs no tool and yields the notice, or the
    empty text when it has no step. *)
Lemma _execute_plan_exhausted (a : BaseAgent World PyValue) plan w :
  budget a = 0%nat →
  _execute_plan a plan w
  = (match default [] (steps plan) with
     | [] => ""
     | _ => msg_step_limit
     end, a, w, []).
Proof.
  intros Hb. unfold _execute_plan, plan_results.
  destruct (default [] (steps plan)) as [|step rest]; [done|].
  rewrite plan_loop_halt; [done|].
  apply Z.leb_le. unfold budget in Hb. lia.
Qed.

(** X7.  The step counter belongs to the agent, not to a request: it is
    never set back.  Over a whole session the tools are called at most
    [max_steps - current_step] times in total, and when that budget is
    used up every later request calls no tool and answers with the notice
    (the empty text for a plan without steps, or the failure of the
    planner). *)
Theorem step_budget_spans_requests :
  ∀ self inputs w,
    let r := run_all self inputs w in
    ((length r.2 + budget (agent r.1.1.2) ≤ budget (agent self))%nat
     ∧ current_step (agent self) ≤ current_step (agent r.1.1.2)
     ∧ max_steps (agent r.1.1.2) = max_steps (agent self))
    ∧ (budget (agent self) = 0%nat →
       r.2 = []
       ∧ current_step (agent r.1.1.2) = current_step (agent self)
       ∧ Forall (fun text => text = msg_step_limit ∨ text = ""
                             ∨ ∃ e, text = msg_run_failed e) r.1.1.1).
Proof.
  intros self inputs. revert self.
  induction inputs as [|user_input rest IH]; intros self w; cbv zeta.
  - simpl. split; [repeat split; lia|]. intros _. repeat split. constructor.
  - simpl.
    destruct (run_budget self user_input w) as (Hb1 & Hc1 & Hm1 & _).
    assert (budget (agent self) = 0%nat →
            (run self user_input w).2 = []
            ∧ agent (run self user_input w).1.1.2 = agent self
            ∧ ((run self user_input w).1.1.1 = msg_step_limit
               ∨ (run self user_input w).1.1.1 = ""
               ∨ ∃ e, (run self user_input w).1.1.1 = msg_run_failed e))
      as Hex.
    { intros H0. unfold AgentRun.run.
      destruct (_generate_plan user_input w) as [[plan|e] w1]; simpl.
      - rewrite (_execute_plan_exhausted _ plan w1 H0). simpl.
        repeat split. destruct (default [] (steps plan)); auto.
      - repeat split. right. right. by exists e. }
    destruct (run self user_input w) as [[[text self1] w1] trace1].
    simpl in Hb1, Hc1, Hm1, Hex.
    destruct (IH self1 w1) as [(Hb2 & Hc2 & Hm2) Hex2].
    destruct (run_all self1 rest w1) as [[[texts self2] w2] trace2].
    simpl in *. split.
    + rewrite length_app. repeat split; [lia|lia|congruence].
    + intros H0. destruct (Hex H0) as (-> & Ha & Htext).
      rewrite Ha in Hex2. destruct (Hex2 H0) as (-> & Hcur & Hall).
      repeat split; [done|]. by constructor.
Qed.

(** X8.  A step of a plan goes to the tool directly, not through the
    registry's dispatcher: for arguments the tool's [validate_args]
    refuses, the dispatcher leaves the world alone, while the step calls
    [execute] on them; and running a plan changes no registration and no
    statistics entry. *)
Theorem plan_step_bypasses_dispatcher :
  ∀ (a : BaseAgent World PyValue) tool_name t kwargs w,
    tool_name ≠ "" →
    get_tool (tools a) tool_name = Some t →
    validate_args t kwargs w = Return false →
    let step := {| description := None; tool := Some tool_name;
                   args := Some kwargs |} in
    (execute_tool loop_time (tools a) tool_name kwargs w).2 = w
    ∧ (_execute_step a step w).1.2 = (execute t kwargs w).2
    ∧ (_execute_step a step w).2 = [(tool_name, kwargs)]
    ∧ ∀ plan w0, tools (plan_results a plan w0).1.1.2 = tools a.
Proof.
  intros a tool_name t kwargs w Hne Ht Hv step. repeat split.
  - unfold execute_tool. rewrite Ht.
    destruct (_tool_stats (tools a) !! tool_name); [|done].
    by rewrite Hv.
  - unfold _execute_step. simpl.
    destruct tool_name as [|c s]; [done|]. rewrite Ht.
    by destruct (execute t kwargs w) as [[result|e] w'].
  - unfold _execute_step. simpl.
    destruct tool_name as [|c s]; [done|]. rewrite Ht.
    by destruct (execute t kwargs w) as [[result|e] w'].
  - intros plan w0. unfold plan_results.
    by destruct (plan_loop_spec (default [] (steps plan)) a 0 [] w0 [])
      as (lines & called & _ & _ & _ & _ & _ & _ & Htools & _).
Qed.

End RunFacts.

(** X6 on a new agent. *)
Lemma execution_history_is_trimmed_witness :
  (total_executions
     (run_all sample_clock sample_planner
        (new_agent (Some 3%Z) sample_tools) ["1+1"; "2+2"] []).1.1.2
   ≤ 100)%nat.
Proof.
  apply (proj2 (execution_history_is_trimmed sample_clock sample_planner)
           (new_agent (Some 3) sample_tools) ["1+1"; "2+2"] []).
  simpl. lia.
Defined.

(** X7 on an agent whose three steps are used up. *)
Lemma step_budget_spans_requests_witness :
  let self := {| agent := set_current_step (__init__ (Some 3) sample_tools) 3;
                 execution_history := [] |} in
  let r := run_all sample_clock sample_planner self ["1+1"; "2+2"] [] in
  r.2 = []
  ∧ current_step (agent r.1.1.2) = current_step (agent self)
  ∧ Forall (fun text => text = msg_step_limit ∨ text = ""
                        ∨ ∃ e, text = msg_run_failed e) r.1.1.1.
Proof.
  intros self.
  apply (proj2 (step_budget_spans_requests sample_clock sample_planner
                  self ["1+1"; "2+2"] [])).
  reflexivity.
Defined.

(** X8 on a tool that refuses every call. *)
Lemma plan_step_bypasses_dispatcher_witness :
  let a := __init__ None (add_tool Tools.__init__ strict_tool) in
  let step := {| description := None; tool := Some "strict";
                 args := Some ∅ |} in
  (execute_tool sample_clock (tools a) "strict" ∅ ["before"]).2 = ["before"]
  ∧ (_execute_step a step ["before"]).1.2
    = (execute strict_tool ∅ ["before"]).2
  ∧ (_execute_step a step ["before"]).2 = [("strict", ∅)]
  ∧ ∀ plan w0, tools (plan_results a plan w0).1.1.2 = tools a.
Proof.
  intros a.
  apply (plan_step_bypasses_dispatcher sample_clock a "strict" strict_tool
           ∅ ["before"]).
  - discriminate.
  - reflexivity.
  - reflexivity.
Defined.

(** Two requests on an agent with three steps: the second request gets
    one step and the notice. *)
Example step_budget_two_requests :
  (run_all sample_clock sample_planner
     (new_agent (Some 3) sample_tools) ["1+1"; "2+2"] []).1.1.1
  = ["步骤1: ✅ calculator: 计算结果: 2 + 3 = 5" +:+ String newline ""
       +:+ "步骤2: ❌ database 执行失败: connection lost";
     "步骤1: ✅ calculator: 计算结果: 2 + 3 = 5" +:+ String newline ""
       +:+ "⚠️ 达到最大执行步数限制"].
Proof. reflexivity. Qed.

End AgentRunFacts.

Module MiniManusFacts.
Import Py PyFacts Tools Agent AgentFacts MiniManus.

Lemma map_str_app f s t : map_str f (s +:+ t) = map_str f s +:+ map_str f t.
Proof.
  induction s as [|c s IH]; [by rewrite !app_nil_l|].
  rewrite app_cons. simpl. by rewrite app_cons, IH.
Qed.

(** Folding the case keeps a character that is not a letter in place. *)
Lemma lower_keeps_sign c s :
  lower_char c = c → contains (String c "") s →
  str_in (String c "") (lower s) = true.
Proof.
  intros Hc (l & r & ->). apply str_in_spec.
  exists (lower l), (lower r). unfold lower.
  rewrite !map_str_app. simpl. by rewrite Hc.
Qed.

Section PlannerFacts.

Context {World PyValue : Type}.
Variable py_str : string → PyValue.
Variable llm_plan : string → World → outcome (Plan PyValue) * World.

Local Abbreviation Kwargs := (gmap string PyValue).

(** X9.  A request with one of the signs [+ - * /] in it is planned as a
    calculation of the whole request, whatever else it says; when it also
    has a database keyword the plan is made without the language model.
    So [SELECT * FROM employees] is handed to the calculator. *)
Theorem operator_request_is_a_calculation :
  ∀ user_input w,
    contains "+" user_input ∨ contains "-" user_input
    ∨ contains "*" user_input ∨ contains "/" user_input →
    let plan :=
      plan_of "数学计算任务" "检测到计算相关关键词，使用计算器工具"
        [step_of ("计算表达式: " +:+ user_input) "calculator"
           ({["expression" := py_str user_input]} : Kwargs)] in
    _generate_rule_based_plan py_str user_input = plan
    ∧ (any_keyword database_keywords (lower user_input) = true →
       _generate_plan py_str llm_plan user_input w = (Return plan, w)).
Proof.
  intros user_input w Hsign plan.
  assert (any_keyword calculator_keywords (lower user_input) = true) as Hcalc.
  { unfold any_keyword, calculator_keywords. cbn [existsb].
    destruct Hsign as [H|[H|[H|H]]];
      apply lower_keeps_sign in H; try reflexivity; rewrite H;
      by rewrite ?orb_true_r. }
  assert (_generate_rule_based_plan py_str user_input = plan) as Hplan.
  { unfold _generate_rule_based_plan. cbv zeta. by rewrite Hcalc. }
  split; [done|].
  intros Hdb. unfold _generate_plan. cbv zeta. by rewrite Hdb, Hplan.
Qed.

Variables Calculator FileEditor PythonExecutor DatabaseTool
  : BaseTool World PyValue.

Local Abbreviation registry :=
  (_setup_tools Calculator FileEditor PythonExecutor DatabaseTool
     default_tool_config).

Lemma run_steps_registered (self : BaseAgent World PyValue) todo : ∀ i w,
  Forall (finds_tool (tools self)) todo →
  length (run_steps self i todo w).2 = length todo.
Proof.
  induction todo as [|step rest IH]; intros i w Hall; [done|].
  inversion Hall as [|? ? (n & t & Hn & Hne & Ht) Hrest]; subst.
  simpl. unfold _execute_step at 1. rewrite Hn.
  destruct n as [|c s]; [done|]. rewrite Ht.
  destruct (execute t (default ∅ (args step)) w) as [[result|e] w'];
    specialize (IH (S i) w' Hrest);
    destruct (run_steps self (S i) rest w') as [[lines w''] calls];
    simpl in *; by rewrite IH.
Qed.

Lemma run_steps_lines (self : BaseAgent World PyValue) todo : ∀ i w,
  length (run_steps self i todo w).1.1 = length todo.
Proof.
  induction todo as [|step rest IH]; intros i w; [done|].
  simpl. destruct (_execute_step self step w) as [[o w'] called].
  specialize (IH (S i) w').
  destruct (run_steps self (S i) rest w') as [[lines w''] calls].
  simpl in *. by rewrite IH.
Qed.

(** The four names under the default configuration. *)
Lemma registry_names :
  named_as_in_source Calculator FileEditor PythonExecutor DatabaseTool →
  get_tool registry "calculator" = Some Calculator
  ∧ get_tool registry "file_editor" = Some FileEditor
  ∧ get_tool registry "python_executor" = Some PythonExecutor
  ∧ get_tool registry "database" = Some DatabaseTool.
Proof.
  intros (Hc & Hf & Hp & Hd).
  unfold _setup_tools, default_tool_config, add_if, add_tool, get_tool.
  simpl. rewrite Hc, Hf, Hp, Hd. repeat split.
Qed.

(** X10.  The planner's rules and the tool set agree on the names: with
    the default configuration every rule-based plan has one or two steps,
    each naming a tool that is loaded, and a new agent runs all of them,
    calling one tool per step and adding no notice. *)
Theorem rule_based_plan_finds_its_tools :
  named_as_in_source Calculator FileEditor PythonExecutor DatabaseTool →
  ∀ user_input,
    ∃ todo,
      steps (_generate_rule_based_plan py_str user_input) = Some todo
      ∧ (1 ≤ length todo ≤ 2)%nat
      ∧ Forall (finds_tool registry) todo
      ∧ ∀ (cfg : option Z) w,
          (length todo ≤ Z.to_nat (default 10%Z cfg))%nat →
          let r := plan_results (Agent.__init__ cfg registry)
                     (_generate_rule_based_plan py_str user_input) w in
          length r.2 = length todo ∧ length r.1.1.1 = length todo.
Proof.
  intros Hnames user_input.
  destruct (registry_names Hnames) as (Hc & Hf & Hp & Hd).
  assert (∀ d a, finds_tool registry (step_of d "calculator" a)) as Fc.
  { intros. by exists "calculator", Calculator. }
  assert (∀ d a, finds_tool registry (step_of d "file_editor" a)) as Ff.
  { intros. by exists "file_editor", FileEditor. }
  assert (∀ d a, finds_tool registry (step_of d "python_executor" a)) as Fp.
  { intros. by exists "python_executor", PythonExecutor. }
  assert (∀ d a, finds_tool registry (step_of d "database" a)) as Fd.
  { intros. by exists "database", DatabaseTool. }
  set (plan := _generate_rule_based_plan py_str user_input).
  assert (∃ todo, steps plan = Some todo ∧ (1 ≤ length todo ≤ 2)%nat
                  ∧ Forall (finds_tool registry) todo)
    as (todo & Hsteps & Hlen & Hall).
  { subst plan. unfold _generate_rule_based_plan. cbv zeta.
    repeat match goal with
           | |- context [if ?b then _ else _] => destruct b
           end;
      eexists; (split; [reflexivity|]); (split; [simpl; lia|]);
      repeat constructor; auto. }
  exists todo. split; [done|]. split; [done|]. split; [done|].
  intros cfg w Hbudget r. subst r. unfold plan_results.
  rewrite Hsteps. simpl default. rewrite plan_loop_run_steps.
  replace (Nat.min (length todo) (budget (Agent.__init__ cfg registry)))
    with (length todo) by (unfold budget; simpl; lia).
  rewrite firstn_all, Nat.ltb_irrefl. simpl. split.
  - by apply run_steps_registered.
  - by rewrite List.app_nil_r, run_steps_lines.
Qed.

End PlannerFacts.

(** X9 on a database request. *)
Lemma operator_request_is_a_calculation_witness :
  let plan :=
    plan_of "数学计算任务" "检测到计算相关关键词，使用计算器工具"
      [step_of ("计算表达式: " +:+ "SELECT * FROM employees") "calculator"
         ({["expression" := "SELECT * FROM employees"]} : gmap string string)]
  in
  _generate_rule_based_plan id "SELECT * FROM employees" = plan
  ∧ (any_keyword database_keywords (lower "SELECT * FROM employees") = true →
     _generate_plan id (fun _ w => (Raise (mk_exn OtherException "offline"), w))
       "SELECT * FROM employees" ([] : list string)
     = (Return plan, [])).
Proof.
  apply (operator_request_is_a_calculation id
           (fun _ w => (Raise (mk_exn OtherException "offline"), w))
           "SELECT * FROM employees" []).
  right. right. left. by exists "SELECT ", " FROM employees".
Defined.

(** X10 with four tools that carry the names of the source. *)
Lemma rule_based_plan_finds_its_tools_witness :
  ∃ todo,
    steps (_generate_rule_based_plan id "读取文件 notes.txt") = Some todo
    ∧ (1 ≤ length todo ≤ 2)%nat
    ∧ Forall
        (finds_tool
           (_setup_tools (returning_tool "calculator" "4")
              (returning_tool "file_editor" "ok")
              (returning_tool "python_executor" "ok")
              (raising_tool "database" "connection lost")
              default_tool_config)) todo
    ∧ ∀ (cfg : option Z) w,
        (length todo ≤ Z.to_nat (default 10%Z cfg))%nat →
        let r := plan_results
                   (Agent.__init__ cfg
                      (_setup_tools (returning_tool "calculator" "4")
                         (returning_tool "file_editor" "ok")
                         (returning_tool "python_executor" "ok")
                         (raising_tool "database" "connection lost")
                         default_tool_config))
                   (_generate_rule_based_plan id "读取文件 notes.txt") w in
        length r.2 = length todo ∧ length r.1.1.1 = length todo.
Proof.
  apply (rule_based_plan_finds_its_tools id
           (returning_tool "calculator" "4")
           (returning_tool "file_editor" "ok")
           (returning_tool "python_executor" "ok")
           (raising_tool "database" "connection lost")).
  repeat split.
Defined.

End MiniManusFacts.

Module PyTextFacts.
Import Py PyFacts PyText.

Lemma len_app s t : len (s +:+ t) = (len s + len t)%nat.
Proof.
  induction s as [|c s IH]; [by rewrite app_nil_l|].
  rewrite app_cons. simpl. rewrite IH. by destruct (is_continuation c).
Qed.

Lemma len_repeat_char c n :
  is_continuation c = false → len (repeat_char c n) = n.
Proof. intros Hc. induction n as [|n IH]; simpl; [done|]. by rewrite Hc, IH. Qed.

Lemma len_slice_to s : ∀ n, len (slice_to n s) = Nat.min n (len s).
Proof.
  induction s as [|c s IH]; intros n; simpl; [lia|].
  destruct (is_continuation c) eqn:Hc; simpl.
  - by rewrite Hc, IH.
  - destruct n as [|n]; simpl; [done|]. by rewrite Hc, IH.
Qed.

Lemma len_ljust width s : len (ljust width s) = Nat.max width (len s).
Proof. unfold ljust. rewrite len_app, len_repeat_char by done. lia. Qed.

Lemma len_join sep parts :
  len (join sep parts)
  = (sum_list (map len parts) + len sep * (length parts - 1))%nat.
Proof.
  induction parts as [|p [|q rest] IH]; simpl; [lia|lia|].
  simpl in IH. rewrite !len_app, IH. lia.
Qed.

End PyTextFacts.

Module DatabaseActionsFacts.
Import Py PyFacts PyText PyTextFacts Re Database DatabaseFacts DatabaseActions.

(** ** The result table *)

Lemma widen_row_zip row : ∀ col_widths i,
  (i + length row = length col_widths)%nat →
  widen_row col_widths i row
  = Return (take i col_widths ++ zip_with widen (drop i col_widths) row).
Proof.
  induction row as [|cell rest IH]; intros ws i Hlen; simpl in *.
  - rewrite drop_ge by lia. by rewrite take_ge, List.app_nil_r by lia.
  - destruct (ws !! i) as [w|] eqn:Hw.
    2:{ apply lookup_ge_None in Hw. lia. }
    rewrite IH by (rewrite length_insert; lia).
    f_equal. rewrite (drop_S ws w i Hw). simpl.
    rewrite drop_insert_lt by lia.
    rewrite (take_S_r (<[i:=_]> ws) i (widen w cell)).
    2:{ apply list_lookup_insert_eq. apply lookup_lt_Some in Hw. lia. }
    rewrite take_insert_ge by lia. by rewrite <- List.app_assoc.
Qed.

Lemma widen_rows_fold rows : ∀ col_widths,
  Forall (fun row : Row => length row = length col_widths) rows →
  widen_rows col_widths rows
  = Return (foldl (zip_with widen) col_widths rows).
Proof.
  induction rows as [|row rest IH]; intros ws Hall; [done|].
  inversion Hall as [|? ? Hrow Hrest]; subst. simpl.
  rewrite widen_row_zip by (simpl; lia). simpl. rewrite drop_0.
  apply IH. rewrite length_zip_with, Hrow, Nat.min_id.
  done.
Qed.

(** What the folded widths satisfy: as many as before, none smaller, and
    wide enough for every cell. *)
Lemma foldl_widen rows : ∀ col_widths,
  Forall (fun row : Row => length row = length col_widths) rows →
  let widths := foldl (zip_with widen) col_widths rows in
  length widths = length col_widths
  ∧ Forall2 le col_widths widths
  ∧ Forall (Forall2 (fun width cell => len (cell_str cell) ≤ width)%nat widths)
      rows.
Proof.
  induction rows as [|row rest IH]; intros ws Hall; simpl.
  - split; [done|]. split; [|constructor].
    apply Forall2_same_length_lookup_2; [done|].
    intros i a b Ha Hb. rewrite Ha in Hb. injection Hb as <-. lia.
  - inversion Hall as [|? ? Hrow Hrest]; subst.
    assert (length (zip_with widen ws row) = length ws) as Hlen.
    { rewrite length_zip_with. lia. }
    destruct (IH (zip_with widen ws row)) as (Hl & Hle & Hcells).
    { eapply Forall_impl; [exact Hrest|]. simpl. intros r Hr. congruence. }
    assert (Forall2 le ws (zip_with widen ws row)) as Hstep.
    { apply Forall2_same_length_lookup_2; [done|].
      intros i a b Ha Hb. apply lookup_zip_with_Some in Hb.
      destruct Hb as (a' & c & -> & Ha' & _). unfold widen.
      rewrite Ha in Ha'. injection Ha' as <-. lia. }
    assert (Forall2 (fun width cell => len (cell_str cell) ≤ width)%nat
              (zip_with widen ws row) row) as Hrow_ok.
    { apply Forall2_same_length_lookup_2; [lia|].
      intros i a c Ha Hc. apply lookup_zip_with_Some in Ha.
      destruct Ha as (a' & c' & -> & _ & Hc'). unfold widen.
      rewrite Hc in Hc'. injection Hc' as <-. lia. }
    split; [lia|]. split.
    + eapply Forall2_trans; [|exact Hstep|exact Hle].
      intros; lia.
    + constructor; [|done].
      apply Forall2_same_length_lookup_2.
      { apply Forall2_length in Hrow_ok. lia. }
      intros i a c Ha Hc.
      destruct (Forall2_lookup_r _ _ _ _ _ Hle Ha) as (a0 & Ha0 & Hle0).
      pose proof (Forall2_lookup_lr _ _ _ _ _ _ Hrow_ok Ha0 Hc). simpl in *.
      lia.
Qed.

Lemma header_cells_zip columns : ∀ col_widths i,
  (i + length columns ≤ length col_widths)%nat →
  header_cells col_widths i columns
  = Return (zip_with ljust (drop i col_widths) columns).
Proof.
  induction columns as [|col rest IH]; intros cw i Hlen; simpl in *.
  - by rewrite zip_with_nil_r.
  - destruct (cw !! i) as [w|] eqn:Hw.
    2:{ apply lookup_ge_None in Hw. lia. }
    rewrite IH by lia. by rewrite (drop_S cw w i Hw).
Qed.

Lemma row_cells_zip row : ∀ col_widths i,
  (i + length row ≤ length col_widths)%nat →
  row_cells col_widths i row
  = Return (zip_with render (drop i col_widths) row).
Proof.
  induction row as [|cell rest IH]; intros cw i Hlen; simpl in *.
  - by rewrite zip_with_nil_r.
  - destruct (cw !! i) as [w|] eqn:Hw.
    2:{ apply lookup_ge_None in Hw. lia. }
    rewrite IH by lia. by rewrite (drop_S cw w i Hw).
Qed.

Lemma map_outcome_total {A B} (f : A → outcome B) (g : A → B) l :
  Forall (fun a => f a = Return (g a)) l →
  map_outcome f l = Return (map g l).
Proof.
  induction 1 as [|a l Ha _ IH]; simpl; [done|]. by rewrite Ha, IH.
Qed.

(** Cells padded to their column make a line of the table's width. *)
Lemma len_line {A} (draw : nat → A → string) col_widths (xs : list A) :
  Forall2 (fun width x => len (draw width x) = width) col_widths xs →
  len (join " | " (zip_with draw col_widths xs))
  = table_width (length xs) col_widths.
Proof.
  intros Hall. rewrite len_join. unfold table_width.
  rewrite length_zip_with, (Forall2_length _ _ _ Hall), Nat.min_id.
  change (len " | ") with 3%nat. f_equal.
  induction Hall as [|w x ws xs' Hw _ IH]; simpl; [done|].
  by rewrite Hw, IH.
Qed.

(** X11.  The result table is aligned when every row has one cell per
    column and no column name is longer than 30 characters: header, rule
    and data lines all have the same length, the sum of the column widths
    and of the separators, and no column is wider than 30. *)
Theorem query_result_table_is_aligned :
  ∀ columns (rows : list Row),
    Forall (fun row => length row = length columns) rows →
    Forall (fun col => len col ≤ max_col_width)%nat columns →
    ∃ col_widths lines,
      table_lines columns rows = Return lines
      ∧ length lines = (2 + length rows)%nat
      ∧ length col_widths = length columns
      ∧ Forall (fun width => width ≤ max_col_width)%nat col_widths
      ∧ Forall (fun line =>
                  len line = table_width (length columns) col_widths) lines.
Proof.
  intros columns rows Hrows Hcols. unfold table_lines.
  assert (Forall (fun row : Row => length row = length (map len columns)) rows)
    as Hrows'.
  { eapply Forall_impl; [exact Hrows|]. intros r Hr. by rewrite length_map. }
  rewrite (widen_rows_fold rows _ Hrows').
  destruct (foldl_widen rows _ Hrows') as (Hlen & Hle & Hcells).
  set (widths := foldl (zip_with widen) (map len columns) rows) in *.
  set (cw := map (fun width => Nat.min width max_col_width) widths).
  assert (length cw = length columns) as Hcw.
  { unfold cw. by rewrite length_map, Hlen, length_map. }
  unfold mbind, outcome_bind, mret, outcome_ret. fold cw.
  rewrite (header_cells_zip columns cw 0) by (simpl; lia). rewrite drop_0.
  rewrite (map_outcome_total (row_line cw)
             (fun row => join " | " (zip_with render cw row))).
  2:{ eapply Forall_impl; [exact Hrows|]. intros r Hr. simpl in Hr.
      unfold row_line, mbind, outcome_bind, mret, outcome_ret.
      rewrite (row_cells_zip r cw 0) by (simpl; lia). by rewrite drop_0. }
  exists cw. eexists. split; [reflexivity|].
  assert (len (join " | " (zip_with ljust cw columns))
          = table_width (length columns) cw) as Hheader.
  { apply len_line. apply Forall2_same_length_lookup_2; [done|].
    intros i w col Hw Hcol. rewrite len_ljust.
    unfold cw in Hw. rewrite list_lookup_fmap in Hw.
    destruct (widths !! i) as [b|] eqn:Hb; [|done]. injection Hw as <-.
    assert (map len columns !! i = Some (len col)) as Ha.
    { by rewrite list_lookup_fmap, Hcol. }
    pose proof (Forall2_lookup_lr _ _ _ _ _ _ Hle Ha Hb) as Hab.
    pose proof (proj1 (Forall_lookup _ _) Hcols i col Hcol) as H30.
    simpl in *. unfold max_col_width in *. lia. }
  split; [simpl; by rewrite length_map|].
  split; [done|]. split.
  { unfold cw. apply Forall_fmap, Forall_forall. intros w _. simpl. lia. }
  constructor; [done|]. constructor.
  { by rewrite len_repeat_char. }
  apply Forall_fmap, Forall_forall. intros row Hin. simpl.
  pose proof (proj1 (Forall_forall _ _) Hrows row Hin) as Hr.
  pose proof (proj1 (Forall_forall _ _) Hcells row Hin) as Hc.
  simpl in Hr. rewrite <- Hr. apply len_line.
  apply Forall2_same_length_lookup_2; [lia|].
  intros i w cell Hw Hcell.
  unfold cw in Hw. rewrite list_lookup_fmap in Hw.
  destruct (widths !! i) as [b|] eqn:Hb; [|done]. injection Hw as <-.
  pose proof (Forall2_lookup_lr _ _ _ _ _ _ Hc Hb Hcell) as Hfit.
  unfold cell_str in Hfit. destruct cell as [s|]; unfold render.
  - rewrite len_ljust, len_slice_to. lia.
  - rewrite len_ljust. simpl in Hfit. change (len "NULL") with 4%nat in *.
    unfold max_col_width. lia.
Qed.

(** X11 on a table of two columns; the second row has a NULL. *)
Lemma query_result_table_is_aligned_witness :
  ∃ col_widths lines,
    table_lines ["id"; "name"] [[Some "1"; Some "张伟"]; [Some "2"; None]]
    = Return lines
    ∧ length lines = (2 + 2)%nat
    ∧ length col_widths = 2%nat
    ∧ Forall (fun width => width ≤ max_col_width)%nat col_widths
    ∧ Forall (fun line => len line = table_width 2 col_widths) lines.
Proof.
  apply (query_result_table_is_aligned ["id"; "name"]
           [[Some "1"; Some "张伟"]; [Some "2"; None]]).
  - repeat constructor.
  - repeat (constructor; [vm_compute; lia|]). constructor.
Defined.

Example format_query_result_sample :
  _format_query_result (__init__ ∅ false false) ["id"; "name"]
    [[Some "1"; Some "张伟"]; [Some "2"; None]]
  = Return ("id | name" +:+ String newline ""
            +:+ "---------" +:+ String newline ""
            +:+ "1  | 张伟  " +:+ String newline ""
            +:+ "2  | NULL" +:+ String newline (String newline "")
            +:+ "📊 共 2 行结果").
Proof. reflexivity. Qed.

(** A row with more cells than columns: the width loop raises. *)
Example format_query_result_long_row :
  _format_query_result (__init__ ∅ false false) ["id"]
    [[Some "1"; Some "x"]]
  = Raise index_error.
Proof. reflexivity. Qed.

(** ** The actions *)

Lemma rstrip_head c t :
  is_space c = false → ∃ t', rstrip (String c t) = String c t'.
Proof. intros Hc. simpl. destruct (rstrip t); rewrite ?Hc; eauto. Qed.

Lemma strip_head c t :
  is_space c = false → ∃ t', strip (String c t) = String c t'.
Proof.
  intros Hc. unfold strip. simpl lstrip. rewrite Hc. by apply rstrip_head.
Qed.

(** A statement whose first character is not blank and not an [s] is
    refused, whatever follows. *)
Lemma unsafe_by_head self c t :
  is_space (lower_char c) = false →
  Ascii.eqb "s" (lower_char c) = false →
  _is_safe_sql self (String c t) = false.
Proof.
  intros Hsp Hs. unfold _is_safe_sql. cbv zeta.
  change (lower (String c t)) with (String (lower_char c) (lower t)).
  destruct (strip_head _ (lower t) Hsp) as [t' ->].
  change (startswith "select" (String (lower_char c) t'))
    with (Ascii.eqb "s" (lower_char c) && startswith "elect" t').
  by rewrite Hs.
Qed.

Lemma handle_query_unsafe rq self conn sql :
  current_connection self = Some conn →
  _is_safe_sql self (strip sql) = false →
  _handle_query rq self (Some sql) = (msg_unsafe_sql, self, []).
Proof.
  intros Hc Hs. unfold _handle_query. rewrite Hc. simpl default.
  by rewrite Hs.
Qed.

Lemma handle_query_safe rq self conn ty sql :
  current_connection self = Some conn →
  current_db_type self = Some ty →
  ty = "sqlite" ∨ ty = "mysql" ∨ ty = "postgresql" →
  _is_safe_sql self (strip sql) = true →
  (_handle_query rq self (Some sql)).2 = [DriverQuery ty conn (strip sql)]
  ∧ (_handle_query rq self (Some sql)).1.2 = self.
Proof.
  intros Hc Hty Hin Hs. unfold _handle_query. rewrite Hc. simpl default.
  rewrite Hs, Hty. simpl negb. cbv iota.
  assert (bool_decide (Some ty = Some "sqlite")
          || bool_decide (Some ty = Some "mysql")
          || bool_decide (Some ty = Some "postgresql") = true) as ->.
  { destruct Hin as [-> | [-> | ->]]; reflexivity. }
  simpl. by destruct (rq ty conn (max_rows self) (strip sql)).
Qed.

Lemma handle_query_state rq self sql : (_handle_query rq self sql).1.2 = self.
Proof.
  unfold _handle_query. destruct (current_connection self); [|done].
  destruct (negb _); [done|]. destruct (_ || _); [|done].
  by destruct (rq _ _ _ _).
Qed.

Lemma handle_disconnect_state self :
  (_handle_disconnect self).1.2 = self
  ∨ current_connection (_handle_disconnect self).1.2 = None.
Proof.
  unfold _handle_disconnect. destruct (current_connection self) as [c|];
    [|by left].
  destruct (has_close c); [destruct (close_raises c)|]; simpl; auto.
Qed.

Lemma supported_databases_disconnect self :
  supported_databases (_handle_disconnect self).1.2
  = supported_databases self.
Proof.
  unfold _handle_disconnect. destruct (current_connection self) as [c|];
    [|done].
  destruct (has_close c); [destruct (close_raises c)|]; done.
Qed.

(** A connect for a type whose driver is present: what was open is
    closed, then the driver is asked. *)
Lemma handle_connect_supported cd self kw_ty kw_cs now :
  supported_databases self !! lower (default "" kw_ty) = Some true →
  ∃ self1 calls1,
    supported_databases self1 = supported_databases self
    ∧ _handle_connect cd self kw_ty kw_cs now
      = match cd (lower (default "" kw_ty)) (default "" kw_cs) with
        | Return conn =>
            ("✅ 成功连接到 " +:+ upper (lower (default "" kw_ty))
               +:+ " 数据库",
             set_connection self1 (Some conn)
               (Some (lower (default "" kw_ty)))
               (<["db_type" := InfoStr (lower (default "" kw_ty))]>
                  (<["connection_string" := InfoStr (default "" kw_cs)]>
                     (<["connected_at" := InfoTime now]> ∅))),
             calls1 ++ [DriverConnect (lower (default "" kw_ty))
                          (default "" kw_cs)])
        | Raise e =>
            ("❌ 连接失败: " +:+ exn_str e, self1,
             calls1 ++ [DriverConnect (lower (default "" kw_ty))
                          (default "" kw_cs)])
        end.
Proof.
  intros Hs. unfold _handle_connect.
  destruct (current_connection self) as [c|].
  - pose proof (supported_databases_disconnect self) as Hsame.
    destruct (_handle_disconnect self) as [[m self1] calls1].
    simpl in Hsame. exists self1, calls1. split; [done|].
    cbv zeta. rewrite Hsame, Hs. by destruct (cd _ _).
  - exists self, []. split; [done|]. cbv zeta. rewrite Hs.
    by destruct (cd _ _).
Qed.

Section ActionFacts.

Variable connect_driver : string → string → outcome Connection.
Variable run_query : string → Connection → Z → string → outcome string.
Variable pragma_rows : Connection → string → outcome (list Row).
Variable format_seconds : Q → string.
Variable str_of_time : Q → string.

Local Abbreviation reachable := (reachable connect_driver run_query).
Local Abbreviation execute :=
  (execute connect_driver run_query pragma_rows format_seconds str_of_time).

(** X12.  On a MySQL connection the two catalogue actions never reach the
    driver: [show_tables] sends [SHOW TABLES] and [describe] sends
    [DESCRIBE <table>] through the filter of [query], which refuses both
    because they do not begin with [select]. *)
Theorem mysql_catalogue_actions_are_refused :
  ∀ self conn,
    current_connection self = Some conn →
    current_db_type self = Some "mysql" →
    _handle_show_tables run_query self = (msg_unsafe_sql, self, [])
    ∧ ∀ kwargs table,
        kw_table kwargs = Some table → table ≠ "" →
        _handle_describe run_query pragma_rows self kwargs
        = (msg_unsafe_sql, self, []).
Proof.
  intros self conn Hc Hty. split.
  - unfold _handle_show_tables. rewrite Hc, Hty. simpl.
    by apply (handle_query_unsafe _ _ conn).
  - intros kwargs table Ht Hne. unfold _handle_describe.
    rewrite Hc, Ht, Hty. destruct table as [|c t]; [done|]. simpl.
    apply (handle_query_unsafe _ _ conn); [done|].
    unfold sql_mysql_describe. rewrite app_cons.
    destruct (strip_head "D" (("ESCRIBE " +:+ String c t)) eq_refl)
      as [t' ->].
    by apply unsafe_by_head.
Qed.

(** X13.  On a SQLite connection [describe] goes round the filter: for
    every table text it hands [PRAGMA table_info(<table>)] to the driver,
    a statement the filter of [query] refuses; the tool itself is left as
    it was. *)
Theorem describe_sqlite_skips_the_filter :
  ∀ self conn kwargs table,
    current_connection self = Some conn →
    current_db_type self = Some "sqlite" →
    kw_table kwargs = Some table → table ≠ "" →
    (_handle_describe run_query pragma_rows self kwargs).2
      = [DriverQuery "sqlite" conn (pragma_table_info table)]
    ∧ (_handle_describe run_query pragma_rows self kwargs).1.2 = self
    ∧ _is_safe_sql self (pragma_table_info table) = false.
Proof.
  intros self conn kwargs table Hc Hty Ht Hne. unfold _handle_describe.
  rewrite Hc, Ht, Hty. destruct table as [|c t]; [done|]. simpl.
  split; [|split].
  - destruct (pragma_rows conn _) as [[|row rows]|e]; try done.
    by destruct (_format_query_result _ _ _).
  - destruct (pragma_rows conn _) as [[|row rows]|e]; try done.
    by destruct (_format_query_result _ _ _).
  - unfold pragma_table_info. rewrite app_cons. by apply unsafe_by_head.
Qed.

Lemma supported_databases_operation self op :
  supported_databases (apply_operation connect_driver run_query self op).1.2
  = supported_databases self.
Proof.
  destruct op as [ty cs now|sql|]; simpl.
  - unfold _handle_connect, _handle_disconnect.
    destruct (current_connection self) as [c|];
      [destruct (has_close c); [destruct (close_raises c)|]|];
      simpl;
      (destruct (_ !! lower (default "" ty)) as [[]|]; [|done..]);
      by destruct (connect_driver _ _).
  - unfold _handle_query. destruct (current_connection self); [|done].
    destruct (negb _); [done|]. destruct (_ || _); [|done].
    by destruct (run_query _ _ _ _).
  - unfold _handle_disconnect. destruct (current_connection self) as [c|];
      [|done]. destruct (has_close c); [destruct (close_raises c)|]; done.
Qed.

Lemma supported_init config my pg ty :
  supported_databases (__init__ config my pg) !! ty = Some true →
  ty = "sqlite" ∨ ty = "mysql" ∨ ty = "postgresql".
Proof.
  simpl. intros H.
  apply lookup_insert_Some in H as [[<- _]|[_ H]]; [by left|].
  apply lookup_insert_Some in H as [[<- _]|[_ H]]; [by right; left|].
  apply lookup_insert_Some in H as [[<- _]|[_ H]]; [by right; right|].
  done.
Qed.

(** What every state of a tool satisfies: the types it can connect to
    are the three of [__init__], and an open connection has one of them
    as its recorded type. *)
Lemma reachable_typed self :
  reachable self →
  (∀ ty, supported_databases self !! ty = Some true →
         ty = "sqlite" ∨ ty = "mysql" ∨ ty = "postgresql")
  ∧ typed_connection self.
Proof.
  induction 1 as [config my pg|self op _ [IHs IHt]].
  - split; [apply supported_init|]. by intros conn.
  - split. { by rewrite supported_databases_operation. }
    unfold typed_connection in *.
    destruct op as [ty cs now|sql|]; simpl.
    + unfold _handle_connect, _handle_disconnect.
      destruct (current_connection self) as [c|] eqn:Hc;
        [destruct (has_close c); [destruct (close_raises c)|]|];
        simpl;
        (destruct (_ !! lower (default "" ty)) as [[]|] eqn:Hs;
         [destruct (connect_driver _ _)|..]);
        simpl; intros conn' Hconn'; try done;
        first [ by destruct (IHs _ Hs) as [H|[H|H]]; rewrite H; auto
              | by apply (IHt _ eq_refl)
              | congruence ].
    + by rewrite handle_query_state.
    + destruct (handle_disconnect_state self) as [-> | Hnone]; [done|].
      intros conn'. by rewrite Hnone.
Qed.

(** X14.  In every state of the tool an open connection has a type the
    query action knows, so a statement that passes the filter always
    reaches the driver, once, trimmed, on that connection; on SQLite and
    PostgreSQL this holds for the statement of [show_tables]. *)
Theorem accepted_query_reaches_driver :
  ∀ self conn,
    reachable self →
    current_connection self = Some conn →
    ∃ ty,
      current_db_type self = Some ty
      ∧ (∀ sql, _is_safe_sql self (strip sql) = true →
           (_handle_query run_query self (Some sql)).2
             = [DriverQuery ty conn (strip sql)]
           ∧ (_handle_query run_query self (Some sql)).1.2 = self)
      ∧ (ty = "sqlite" →
         (_handle_show_tables run_query self).2
           = [DriverQuery ty conn sql_sqlite_tables])
      ∧ (ty = "postgresql" →
         (_handle_show_tables run_query self).2
           = [DriverQuery ty conn sql_postgresql_tables]).
Proof.
  intros self conn Hr Hc.
  destruct (reachable_typed self Hr) as [_ Ht].
  pose proof (forbidden_keywords_reachable _ _ _ Hr) as Hkw.
  assert (∃ ty, current_db_type self = Some ty
                ∧ (ty = "sqlite" ∨ ty = "mysql" ∨ ty = "postgresql"))
    as (ty & Hty & Hin).
  { destruct (Ht conn Hc) as [H|[H|H]]; eexists; split; eauto. }
  exists ty. split; [done|]. split; [|split].
  - intros sql Hs. by apply handle_query_safe.
  - intros ->. unfold _handle_show_tables. rewrite Hc, Hty. simpl.
    apply (handle_query_safe _ _ conn "sqlite"); try done.
    unfold _is_safe_sql. rewrite Hkw. reflexivity.
  - intros ->. unfold _handle_show_tables. rewrite Hc, Hty. simpl.
    apply (handle_query_safe _ _ conn "postgresql"); try done.
    unfold _is_safe_sql. rewrite Hkw. reflexivity.
Qed.

(** X15.  Connecting while a connection is open closes that one first.
    When the old connection closes cleanly and the new one cannot be made
    (unknown type, missing driver, or the driver raises), the tool is left
    without any connection; otherwise it holds the new one. *)
Theorem connect_replaces_connection :
  ∀ self conn kw_ty kw_cs now,
    current_connection self = Some conn →
    has_close conn = true →
    close_raises conn = None →
    let db_type := lower (default "" kw_ty) in
    let r := _handle_connect connect_driver self kw_ty kw_cs now in
    head r.2 = Some (DriverClose conn)
    ∧ match supported_databases self !! db_type,
            connect_driver db_type (default "" kw_cs) with
      | Some true, Return conn' =>
          current_connection r.1.2 = Some conn'
          ∧ current_db_type r.1.2 = Some db_type
          ∧ r.2 = [DriverClose conn;
                   DriverConnect db_type (default "" kw_cs)]
      | _, _ =>
          current_connection r.1.2 = None
          ∧ current_db_type r.1.2 = None
          ∧ connection_info r.1.2 = ∅
          ∧ startswith "❌ 连接失败: " r.1.1 = true
      end.
Proof.
  intros self conn kw_ty kw_cs now Hc Hclose Hraise db_type r.
  subst r db_type. unfold _handle_connect, _handle_disconnect.
  rewrite Hc, Hclose, Hraise. cbn [fst snd].
  assert (∀ r, startswith "❌ 连接失败: " ("❌ 连接失败: " +:+ r) = true)
    as Hprefix.
  { intros r. apply startswith_spec. by exists r. }
  change (supported_databases (set_connection self None None ∅))
    with (supported_databases self).
  destruct (supported_databases self !! lower (default "" kw_ty))
    as [[]|]; cbn [fst snd].
  - destruct (connect_driver _ _); cbn [fst snd]; repeat split;
      try apply Hprefix.
  - repeat split; try apply Hprefix.
  - repeat split; try apply Hprefix.
Qed.

(** X16.  A connect request that [validate_args] accepts gets as far as
    the driver: [execute] asks the driver for a connection of a known
    type, and its answer is the success line or the driver's own error,
    never a lookup failure of the type. *)
Theorem validated_connect_reaches_driver :
  ∀ self kwargs now,
    kw_action kwargs = Some "connect" →
    validate_args self kwargs = true →
    let db_type := lower (default "" (kw_db_type kwargs)) in
    let cs := default "" (kw_connection_string kwargs) in
    let r := execute self kwargs now in
    supported_databases self !! db_type = Some true
    ∧ last r.2 = Some (DriverConnect db_type cs)
    ∧ match connect_driver db_type cs with
      | Return conn =>
          r.1.1 = "✅ 成功连接到 " +:+ upper db_type +:+ " 数据库"
          ∧ current_connection r.1.2 = Some conn
      | Raise e => r.1.1 = "❌ 连接失败: " +:+ exn_str e
      end.
Proof.
  intros self kwargs now Ha Hv db_type cs r. subst r db_type cs.
  unfold validate_args in Hv. rewrite Ha in Hv. simpl in Hv.
  destruct (kw_db_type kwargs) as [ty|] eqn:Hty; [|done].
  simpl default in *.
  destruct (supported_databases self !! lower ty) as [[]|] eqn:Hs;
    try done.
  split; [done|].
  unfold DatabaseActions.execute. rewrite Ha, ?Hty.
  change (bool_decide (Some "connect" = Some "connect")) with true.
  cbv iota.
  destruct (handle_connect_supported connect_driver self (Some ty)
              (kw_connection_string kwargs) now Hs)
    as (self1 & calls1 & _ & ->).
  simpl default.
  destruct (connect_driver _ _); cbn [fst snd]; by rewrite last_snoc.
Qed.

End ActionFacts.

(** X12 on a MySQL connection. *)
Lemma mysql_catalogue_actions_are_refused_witness :
  _handle_show_tables empty_result_driver
    (connected_tool memory_connection "mysql" "shop" 0%Q)
  = (msg_unsafe_sql, connected_tool memory_connection "mysql" "shop" 0%Q, [])
  ∧ ∀ kwargs table,
      kw_table kwargs = Some table → table ≠ "" →
      _handle_describe empty_result_driver no_pragma_rows
        (connected_tool memory_connection "mysql" "shop" 0%Q) kwargs
      = (msg_unsafe_sql,
         connected_tool memory_connection "mysql" "shop" 0%Q, []).
Proof.
  apply (mysql_catalogue_actions_are_refused empty_result_driver
           no_pragma_rows
           (connected_tool memory_connection "mysql" "shop" 0%Q)
           memory_connection).
  - reflexivity.
  - reflexivity.
Defined.

(** X13 on a SQLite connection, with a table text that is no name. *)
Lemma describe_sqlite_skips_the_filter_witness :
  let self := connected_tool memory_connection "sqlite" ":memory:" 0%Q in
  let kwargs := table_kwargs "describe" "x); DROP TABLE users; --" in
  (_handle_describe empty_result_driver no_pragma_rows self kwargs).2
    = [DriverQuery "sqlite" memory_connection
         (pragma_table_info "x); DROP TABLE users; --")]
  ∧ (_handle_describe empty_result_driver no_pragma_rows self kwargs).1.2
    = self
  ∧ _is_safe_sql self (pragma_table_info "x); DROP TABLE users; --") = false.
Proof.
  intros self kwargs.
  apply (describe_sqlite_skips_the_filter empty_result_driver no_pragma_rows
           self memory_connection kwargs "x); DROP TABLE users; --").
  - reflexivity.
  - reflexivity.
  - reflexivity.
  - discriminate.
Defined.

(** X14 on the state after a connect to SQLite. *)
Lemma accepted_query_reaches_driver_witness :
  let self :=
    (apply_operation memory_driver empty_result_driver
       (__init__ ∅ false false)
       (OpConnect (Some "sqlite") (Some ":memory:") 0%Q)).1.2 in
  ∃ ty,
    current_db_type self = Some ty
    ∧ (∀ sql, _is_safe_sql self (strip sql) = true →
         (_handle_query empty_result_driver self (Some sql)).2
           = [DriverQuery ty memory_connection (strip sql)]
         ∧ (_handle_query empty_result_driver self (Some sql)).1.2 = self)
    ∧ (ty = "sqlite" →
       (_handle_show_tables empty_result_driver self).2
         = [DriverQuery ty memory_connection sql_sqlite_tables])
    ∧ (ty = "postgresql" →
       (_handle_show_tables empty_result_driver self).2
         = [DriverQuery ty memory_connection sql_postgresql_tables]).
Proof.
  intros self.
  apply (accepted_query_reaches_driver memory_driver empty_result_driver
           self memory_connection).
  - apply reach_step, reach_init.
  - reflexivity.
Defined.

(** X15: a connect to an unknown type while SQLite is open. *)
Lemma connect_replaces_connection_witness :
  let self := connected_tool memory_connection "sqlite" ":memory:" 0%Q in
  let r := _handle_connect memory_driver self (Some "oracle") (Some "db")
             1%Q in
  head r.2 = Some (DriverClose memory_connection)
  ∧ current_connection r.1.2 = None
  ∧ current_db_type r.1.2 = None
  ∧ connection_info r.1.2 = ∅
  ∧ startswith "❌ 连接失败: " r.1.1 = true.
Proof.
  intros self.
  apply (connect_replaces_connection memory_driver self memory_connection
           (Some "oracle") (Some "db") 1%Q).
  - reflexivity.
  - reflexivity.
  - reflexivity.
Defined.

(** X16 on a new tool. *)
Lemma validated_connect_reaches_driver_witness :
  let self := __init__ ∅ false false in
  let r := execute memory_driver empty_result_driver no_pragma_rows
             (fun _ => "0.0") (fun _ => "0.0") self
             (connect_kwargs "SQLite" ":memory:") 0%Q in
  supported_databases self !! "sqlite" = Some true
  ∧ last r.2 = Some (DriverConnect "sqlite" ":memory:")
  ∧ r.1.1 = "✅ 成功连接到 " +:+ upper "sqlite" +:+ " 数据库"
    ∧ current_connection r.1.2 = Some memory_connection.
Proof.
  intros self.
  apply (validated_connect_reaches_driver memory_driver empty_result_driver
           no_pragma_rows (fun _ => "0.0") (fun _ => "0.0") self
           (connect_kwargs "SQLite" ":memory:") 0%Q).
  - reflexivity.
  - reflexivity.
Defined.

(** [show_tables] after a connect to SQLite and after one to MySQL. *)
Example show_tables_sample :
  (_handle_show_tables empty_result_driver
     (connected_tool memory_connection "sqlite" ":memory:" 0%Q)).2
  = [DriverQuery "sqlite" memory_connection
       "SELECT name FROM sqlite_master WHERE type='table'"]
  ∧ (_handle_show_tables empty_result_driver
       (connected_tool memory_connection "mysql" "shop" 0%Q)).1.1
    = "❌ SQL语句不安全或不被支持，仅允许SELECT查询".
Proof. split; reflexivity. Qed.


Section ConvenienceFacts.

Variable connect_driver : string → string → outcome Connection.
Variable run_query : string → Connection → Z → string → outcome string.
Variable pragma_rows : Connection → string → outcome (list Row).
Variable format_seconds : Q → string.
Variable str_of_time : Q → string.

Local Abbreviation query_database :=
  (query_database connect_driver run_query pragma_rows format_seconds
     str_of_time).

(** X23.  [query_database] closes what it opens.  When the driver gives
    a connection, the driver calls are the connect, then the statement
    (once, trimmed, and only when it passes the filter), then the close
    of that connection, whether the statement was refused, failed or
    succeeded; a refused statement is answered with the refusal.  When
    the driver raises, its error is returned and nothing else is asked
    of it. *)
Theorem query_database_closes_its_connection :
  ∀ my pg db_type cs sql now,
    supported_databases (__init__ ∅ my pg) !! lower db_type = Some true →
    match connect_driver (lower db_type) cs with
    | Return conn =>
        (query_database my pg db_type cs sql now).2
        = [DriverConnect (lower db_type) cs]
            ++ (if _is_safe_sql (__init__ ∅ my pg) (strip sql)
                then [DriverQuery (lower db_type) conn (strip sql)]
                else [])
            ++ (if has_close conn then [DriverClose conn] else [])
        ∧ (_is_safe_sql (__init__ ∅ my pg) (strip sql) = false →
           (query_database my pg db_type cs sql now).1 = msg_unsafe_sql)
    | Raise e =>
        query_database my pg db_type cs sql now
        = ("❌ 连接失败: " +:+ exn_str e,
           [DriverConnect (lower db_type) cs])
    end.
Proof.
  intros my pg db_type cs sql now Hs.
  pose proof (supported_init ∅ my pg _ Hs) as Hty.
  unfold DatabaseActions.query_database, execute. simpl kw_action.
  change (bool_decide (Some "connect" = Some "connect")) with true.
  cbv iota. unfold _handle_connect.
  change (current_connection (__init__ ∅ my pg)) with (@None Connection).
  cbv iota zeta. simpl default. rewrite Hs.
  destruct (connect_driver (lower db_type) cs) as [conn|e]; [|reflexivity].
  assert (str_in "❌" ("✅ 成功连接到 " +:+ upper (lower db_type) +:+ " 数据库")
          = false) as ->.
  { destruct Hty as [-> | [-> | ->]]; reflexivity. }
  change (bool_decide (Some "query" = Some "connect")) with false.
  change (bool_decide (Some "query" = Some "query")) with true.
  change (bool_decide (Some "disconnect" = Some "connect")) with false.
  change (bool_decide (Some "disconnect" = Some "query")) with false.
  change (bool_decide (Some "disconnect" = Some "disconnect")) with true.
  cbv iota. unfold _handle_query.
  cbn [current_connection set_connection current_db_type max_rows
       kw_sql query_kwargs_of]. simpl default.
  change (_is_safe_sql (set_connection _ _ _ _) (strip sql))
    with (_is_safe_sql (__init__ ∅ my pg) (strip sql)).
  destruct (_is_safe_sql (__init__ ∅ my pg) (strip sql)) eqn:Hsafe;
    cbn [negb].
  - assert (bool_decide (Some (lower db_type) = Some "sqlite")
            || bool_decide (Some (lower db_type) = Some "mysql")
            || bool_decide (Some (lower db_type) = Some "postgresql") = true)
      as ->.
    { destruct Hty as [-> | [-> | ->]]; reflexivity. }
    split; [|done].
    destruct (run_query _ _ _ _); unfold _handle_disconnect;
      cbn [current_connection set_connection];
      destruct (has_close conn); [destruct (close_raises conn)| |
                                  destruct (close_raises conn)|];
      reflexivity.
  - unfold _handle_disconnect. cbn [current_connection set_connection].
    destruct (has_close conn); [destruct (close_raises conn)|];
      (split; [reflexivity|intros _; reflexivity]).
Qed.

End ConvenienceFacts.

(** X23 on a statement the filter refuses. *)
Lemma query_database_closes_its_connection_witness :
  (query_database memory_driver empty_result_driver no_pragma_rows
     (fun _ => "0.0") (fun _ => "0.0") false false "sqlite" ":memory:"
     "DROP TABLE users" 0%Q).2
  = [DriverConnect "sqlite" ":memory:"; DriverClose memory_connection]
  ∧ (_is_safe_sql (__init__ ∅ false false) (strip "DROP TABLE users") = false →
     (query_database memory_driver empty_result_driver no_pragma_rows
        (fun _ => "0.0") (fun _ => "0.0") false false "sqlite" ":memory:"
        "DROP TABLE users" 0%Q).1 = msg_unsafe_sql).
Proof.
  apply (query_database_closes_its_connection memory_driver
           empty_result_driver no_pragma_rows (fun _ => "0.0")
           (fun _ => "0.0") false false "sqlite" ":memory:"
           "DROP TABLE users" 0%Q).
  reflexivity.
Defined.

Example query_database_sample :
  query_database memory_driver empty_result_driver no_pragma_rows
    (fun _ => "0.0") (fun _ => "0.0") false false "SQLite" ":memory:"
    "  SELECT 1  " 0%Q
  = ("📊 查询完成，没有返回数据",
     [DriverConnect "sqlite" ":memory:";
      DriverQuery "sqlite" memory_connection "SELECT 1";
      DriverClose memory_connection]).
Proof. reflexivity. Qed.

End DatabaseActionsFacts.

Module CalculatorMore.
Import Py PyFacts PyFloat Calculator.

(** ** Preprocessing *)

Lemma adjacent_from p q x s :
  p x = false → adjacent p q s = follows_from p q x s.
Proof. intros Hx. destruct s as [|a t]; [done|]. simpl. by rewrite Hx. Qed.

Lemma follows_from_or p q1 q2 s : ∀ a,
  follows_from p (fun c => q1 c || q2 c) a s
  = follows_from p q1 a s || follows_from p q2 a s.
Proof.
  induction s as [|b t IH]; intros a; simpl; [done|]. rewrite IH.
  destruct (p a), (q1 b), (q2 b), (follows_from p q1 b t),
    (follows_from p q2 b t); reflexivity.
Qed.

Lemma star_after_digit_eq follows d c rest :
  star_after_digit follows (String d (String c rest))
  = if is_digit d && follows c
    then String d (String "*" (String c (star_after_digit follows rest)))
    else String d (star_after_digit follows (String c rest)).
Proof. reflexivity. Qed.

(** [star_after_digit] brings in no digit before a character of a class
    that the star is not in. *)
Lemma star_after_digit_keeps follows q n :
  q "*"%char = false →
  ∀ s a, (String.length s ≤ n)%nat →
    follows_from is_digit q a s = false →
    follows_from is_digit q a (star_after_digit follows s) = false.
Proof.
  intros Hstar. induction n as [|n IH]; intros s a Hlen Hs.
  { destruct s; simpl in Hlen; [done|lia]. }
  destruct s as [|d [|c rest]]; [done|done|].
  simpl in Hlen. cbn [follows_from] in Hs.
  apply orb_false_iff in Hs as [Had Hs].
  apply orb_false_iff in Hs as [Hdc Hs].
  rewrite star_after_digit_eq. destruct (is_digit d && follows c).
  - cbn [follows_from]. rewrite Had, Hstar, andb_false_r.
    change (is_digit "*") with false. cbn [andb orb].
    apply IH; [lia|done].
  - cbn [follows_from]. rewrite Had. cbn [orb]. apply IH; [simpl; lia|].
    cbn [follows_from]. by rewrite Hdc.
Qed.

(** After [star_after_digit] no digit stands before a character of its
    own class. *)
Lemma star_after_digit_separates follows n :
  follows "*"%char = false →
  (∀ c, follows c = true → is_digit c = false) →
  ∀ s a, (String.length s ≤ n)%nat →
    match s with
    | EmptyString => True
    | String b _ => is_digit a && follows b = false
    end →
    follows_from is_digit follows a (star_after_digit follows s) = false.
Proof.
  intros Hstar Hclass. induction n as [|n IH]; intros s a Hlen Hs.
  { destruct s; simpl in Hlen; [done|lia]. }
  destruct s as [|d [|c rest]]; [done| |].
  { simpl. by rewrite Hs. }
  simpl in Hlen. rewrite star_after_digit_eq.
  destruct (is_digit d && follows c) eqn:Hdc.
  - cbn [follows_from]. rewrite Hs, Hstar, andb_false_r.
    change (is_digit "*") with false. cbn [andb orb].
    apply IH; [lia|].
    apply andb_true_iff in Hdc as [_ Hc].
    destruct rest; [done|]. by rewrite (Hclass c Hc).
  - cbn [follows_from]. rewrite Hs. cbn [orb].
    apply IH; [simpl; lia|done].
Qed.

Lemma follows_from_contains p q a b s : ∀ x,
  p a = true → q b = true →
  contains (String a (String b "")) s →
  follows_from p q x s = true.
Proof.
  intros x Ha Hb (l & r & ->). revert x.
  induction l as [|c l IH]; intros x.
  - rewrite app_nil_l, !app_cons, app_nil_l. simpl.
    rewrite Ha, Hb. simpl. by rewrite orb_true_r.
  - rewrite app_cons. simpl. rewrite IH. by rewrite orb_true_r.
Qed.

(** X17.  In the text [_preprocess_expression] hands to the parser no
    digit is directly followed by a letter or by an opening bracket: a
    star stands between them.  So the text never has [log10(] in it: a
    call of [log10], the one function of the table whose name ends in a
    digit, reaches the parser as the product [log10*(...)]. *)
Theorem preprocessing_separates_digits :
  ∀ expression,
    adjacent is_digit letter_or_bracket (_preprocess_expression expression)
    = false
    ∧ ¬ contains "log10(" (_preprocess_expression expression).
Proof.
  intros expression. unfold _preprocess_expression. cbv zeta.
  set (s0 := fold_left _ replacements expression).
  set (s1 := star_after_digit is_alpha s0).
  set (s2 := star_after_digit (Ascii.eqb "(") s1).
  assert (follows_from is_digit is_alpha "*" s1 = false) as H1.
  { apply (star_after_digit_separates is_alpha (String.length s0));
      [done| |done|by destruct s0].
    intros c Hc. by destruct c as [[] [] [] [] [] [] [] []]. }
  assert (follows_from is_digit is_alpha "*" s2 = false) as H2.
  { by apply (star_after_digit_keeps _ is_alpha (String.length s1)). }
  assert (follows_from is_digit (Ascii.eqb "(") "*" s2 = false) as H3.
  { apply (star_after_digit_separates _ (String.length s1));
      [done| |done|by destruct s1].
    intros c Hc. apply Ascii.eqb_eq in Hc. by subst c. }
  assert (follows_from is_digit letter_or_bracket "*" s2 = false) as H.
  { unfold letter_or_bracket. by rewrite follows_from_or, H2, H3. }
  split.
  - by rewrite (adjacent_from _ _ "*").
  - intros (l & r & Hs2).
    assert (follows_from is_digit letter_or_bracket "*" s2 = true) as Ht;
      [|congruence].
    apply (follows_from_contains _ _ "0" "("); [done|done|].
    exists (l +:+ "log1"), r. rewrite Hs2.
    by rewrite !app_assoc, !app_cons, !app_nil_l.
Qed.

Example preprocess_log10 :
  _preprocess_expression "2**3 + log10(100)" = "2**3 + log10*(100)"
  ∧ _preprocess_expression "1e5" = "1*e5".
Proof. split; reflexivity. Qed.

(** ** Errors *)

Section ErrorFacts.

Variable float_repr : spec_float → string.
Variable operator_binary : ast.operator → value → value → outcome value.
Variable operator_unary : ast.unaryop → value → outcome value.
Variable compare : ast.cmpop → value → value → outcome bool.
Variable call_function : string → list value → outcome value.
Variable ast_parse : string → outcome ast.expr.

Local Abbreviation _eval_node :=
  (_eval_node operator_binary operator_unary compare call_function).
Local Abbreviation execute :=
  (execute float_repr operator_binary operator_unary compare call_function
     ast_parse).

Lemma _format_result_raises result precision e :
  _format_result float_repr result precision = Raise e →
  exn_type e = ValueError.
Proof.
  unfold _format_result.
  repeat match goal with
         | |- context [if ?b then _ else _] => destruct b
         | |- context [match ?p with Some _ => _ | None => _ end] =>
             destruct p
         end; intros [= <-] || discriminate; done.
Qed.

(** X18.  Whatever goes wrong while an expression is parsed or evaluated
    (a division by zero, an unknown name, a domain error of [sqrt]) is
    reported as a syntax error carrying the message of the exception;
    the line for a division by zero is never produced. *)
Theorem evaluation_failures_are_syntax_errors :
  ∀ kwargs,
    let text := strip (default "" (expression kwargs)) in
    (∀ e,
       ast_parse (_preprocess_expression text) ≫= _eval_node = Raise e →
       execute kwargs = "❌ 语法错误: 表达式解析失败: " +:+ exn_str e)
    ∧ startswith "❌ 除零错误" (execute kwargs) = false.
Proof.
  intros kwargs text. unfold Calculator.execute, _safe_eval. fold text.
  cbv zeta. split.
  - intros e He. rewrite He. reflexivity.
  - destruct (ast_parse (_preprocess_expression text) ≫= _eval_node)
      as [v|e]; [|reflexivity].
    change (Return v ≫= (fun result =>
              _format_result float_repr result (precision kwargs)))
      with (_format_result float_repr v (precision kwargs)).
    destruct (_format_result float_repr v (precision kwargs)) as [r|e]
      eqn:Hf; [reflexivity|].
    rewrite (_format_result_raises _ _ _ Hf). reflexivity.
Qed.

End ErrorFacts.

(** X18 on a division by zero. *)
Lemma evaluation_failures_are_syntax_errors_witness :
  execute (fun _ => "") ieee_binary ieee_unary ieee_compare ieee_call
    parse_1_div_0 (expression_kwargs "1/0")
  = "❌ 语法错误: 表达式解析失败: "
      +:+ exn_str (mk_exn ZeroDivisionError "division by zero").
Proof.
  apply (proj1 (evaluation_failures_are_syntax_errors (fun _ => "")
                  ieee_binary ieee_unary ieee_compare ieee_call
                  parse_1_div_0 (expression_kwargs "1/0"))).
  reflexivity.
Defined.

(** ** The tables *)

Lemma expr_nested_ind (P : ast.expr → Prop) :
  (∀ v, P (ast.Constant v)) →
  (∀ id, P (ast.Name id)) →
  (∀ l op r, P l → P r → P (ast.BinOp l op r)) →
  (∀ op o, P o → P (ast.UnaryOp op o)) →
  (∀ func args, Forall P args → P (ast.Call func args)) →
  (∀ l rest, P l → Forall (fun x => P x.2) rest → P (ast.Compare l rest)) →
  (∀ class_name, P (ast.Other class_name)) →
  ∀ node, P node.
Proof.
  intros Hconst Hname Hbin Hun Hcall Hcmp Hother.
  fix IH 1. intros [v|id|l op r|op o|func args|l rest|class_name].
  - apply Hconst.
  - apply Hname.
  - apply Hbin; apply IH.
  - apply Hun; apply IH.
  - apply Hcall. revert args. fix IHl 1. intros [|a args].
    + constructor.
    + constructor; [apply IH|apply IHl].
  - apply Hcmp; [apply IH|]. revert rest. fix IHl 1. intros [|[op a] rest].
    + constructor.
    + constructor; [apply IH|apply IHl].
  - apply Hother.
Qed.

Lemma map_outcome_ext {A B} (f g : A → outcome B) l :
  Forall (fun a => f a = g a) l → map_outcome f l = map_outcome g l.
Proof. induction 1 as [|a l Ha _ IH]; simpl; [done|]. by rewrite Ha, IH. Qed.

Section TableFacts.

Variable float_repr : spec_float → string.
Variables ob1 ob2 : ast.operator → value → value → outcome value.
Variables ou1 ou2 : ast.unaryop → value → outcome value.
Variables cmp1 cmp2 : ast.cmpop → value → value → outcome bool.
Variables cf1 cf2 : string → list value → outcome value.
Variable ast_parse : string → outcome ast.expr.

(** Two versions of Python's arithmetic that agree on the entries of
    the calculator's tables. *)
Hypothesis ob_agree : ∀ op a b,
  supported_operator op = true → ob1 op a b = ob2 op a b.
Hypothesis ou_agree : ∀ op a,
  supported_unaryop op = true → ou1 op a = ou2 op a.
Hypothesis cmp_agree : ∀ op a b,
  supported_cmpop op = true → cmp1 op a b = cmp2 op a b.
Hypothesis cf_agree : ∀ id args,
  lookup_function id functions = Some Callable → cf1 id args = cf2 id args.

Local Arguments lookup_function : simpl never.

Lemma compare_chain_agree eval1 eval2 rest :
  Forall (fun x : ast.cmpop * ast.expr => eval1 x.2 = eval2 x.2) rest →
  ∀ left_,
    compare_chain cmp1 eval1 left_ rest = compare_chain cmp2 eval2 left_ rest.
Proof.
  induction 1 as [|[op a] rest Ha _ IH]; intros left_; simpl; [done|].
  simpl in Ha. rewrite Ha. destruct (eval2 a) as [right_|e]; [|done].
  destruct (supported_cmpop op) eqn:Hop; [|done].
  rewrite (cmp_agree op left_ right_ Hop).
  destruct (cmp2 op left_ right_) as [[]|e]; simpl; [apply IH|done|done].
Qed.

Lemma _eval_node_agree node :
  _eval_node ob1 ou1 cmp1 cf1 node = _eval_node ob2 ou2 cmp2 cf2 node.
Proof.
  induction node as [v|id|l op r IHl IHr|op o IHo|func args IHargs
                     |l rest IHl IHrest|class_name] using expr_nested_ind;
    simpl.
  - done.
  - done.
  - rewrite IHl, IHr.
    destruct (_eval_node ob2 ou2 cmp2 cf2 l) as [left_|e]; [|done].
    destruct (_eval_node ob2 ou2 cmp2 cf2 r) as [right_|e]; [|done].
    destruct (supported_operator op) eqn:Hop; [|done]. by apply ob_agree.
  - rewrite IHo.
    destruct (_eval_node ob2 ou2 cmp2 cf2 o) as [operand|e]; [|done].
    destruct (supported_unaryop op) eqn:Hop; [|done]. by apply ou_agree.
  - destruct func as [| id | | | | |]; try done.
    destruct (lookup_function id functions) as [entry|] eqn:Hid; [|done].
    rewrite (map_outcome_ext _ _ _ IHargs).
    destruct (map_outcome _ args) as [values|e]; [|done].
    destruct entry; [|done]. by apply cf_agree.
  - rewrite IHl.
    destruct (_eval_node ob2 ou2 cmp2 cf2 l) as [left_|e]; [|done].
    by apply compare_chain_agree.
  - done.
Qed.

(** X19.  A calculation uses Python's arithmetic only through the
    calculator's tables: the seven binary and two unary operators, the
    six comparisons and the fourteen functions.  Two versions of the
    arithmetic that agree there give the same answer to every request,
    so nothing outside the tables is ever called. *)
Theorem calculator_uses_only_its_tables :
  ∀ kwargs,
    execute float_repr ob1 ou1 cmp1 cf1 ast_parse kwargs
    = execute float_repr ob2 ou2 cmp2 cf2 ast_parse kwargs.
Proof.
  intros kwargs. unfold execute, _safe_eval.
  assert (∀ text,
            ast_parse text ≫= _eval_node ob1 ou1 cmp1 cf1
            = ast_parse text ≫= _eval_node ob2 ou2 cmp2 cf2) as Hsame.
  { intros text. destruct (ast_parse text) as [node|e]; [|done].
    apply _eval_node_agree. }
  by rewrite Hsame.
Qed.

End TableFacts.

(** X19 for the IEEE functions and a table that answers for every
    name. *)
Lemma calculator_uses_only_its_tables_witness :
  execute (fun _ => "") ieee_binary ieee_unary ieee_compare ieee_call
    sample_parse (expression_kwargs "sqrt(16) + 2")
  = execute (fun _ => "") ieee_binary ieee_unary ieee_compare open_call
      sample_parse (expression_kwargs "sqrt(16) + 2").
Proof.
  apply (calculator_uses_only_its_tables (fun _ => "")
           ieee_binary ieee_binary ieee_unary ieee_unary
           ieee_compare ieee_compare ieee_call open_call sample_parse).
  - reflexivity.
  - reflexivity.
  - reflexivity.
  - intros id args Hid. unfold open_call. by rewrite Hid.
Defined.

End CalculatorMore.

Module PythonExecutorRunFacts.
Import Py PyFacts PyText PythonExecutor PythonExecutorRun.

Lemma find_listed {A} (f : A → bool) l x :
  In x l → f x = true →
  ∃ y, List.find f l = Some y ∧ In y l ∧ f y = true.
Proof.
  induction l as [|a l IH]; intros Hin Hx; [done|]. simpl.
  destruct (f a) eqn:Ha.
  - exists a. repeat split; [by left|done].
  - destruct Hin as [->|Hin]; [congruence|].
    destruct (IH Hin Hx) as (y & Hy & Hiny & Hfy).
    exists y. repeat split; [done|by right|done].
Qed.

Section ExecuteFacts.

Variable ast_parse : string → string → option ParseError.
Variable sandbox : string → Z → Run.
Variable sandbox_eval : string → Z → outcome string.
Variable format_seconds : Q → string.

(** X20.  Code with one of the sixteen listed keywords in it, in any
    letter case and anywhere in the text, is never run: the answer names
    the first listed keyword that occurs, it is the same whatever the
    interpreter would do, the request is counted, and no time is added. *)
Theorem dangerous_code_is_never_run :
  ∀ self kwargs start_time end_time keyword,
    let code := strip (default "" (kw_code kwargs)) in
    In keyword dangerous_keywords →
    contains keyword (lower code) →
    ∃ first,
      In first dangerous_keywords
      ∧ contains first (lower code)
      ∧ (∀ ast_parse' sandbox' sandbox_eval' format_seconds',
           execute ast_parse' sandbox' sandbox_eval' format_seconds'
             self kwargs start_time end_time
           = ("❌ 代码安全检查失败: 包含危险关键词: " +:+ first,
              count_execution self)).
Proof.
  intros self kwargs start_time end_time keyword code Hin Hc.
  destruct (find_listed (fun k => str_in k (lower code)) dangerous_keywords
              keyword Hin (proj2 (str_in_spec _ _) Hc))
    as (first & Hfind & Hfirst & Hocc).
  exists first. split; [done|]. split; [by apply str_in_spec|].
  intros ap sb se fs. unfold execute. fold code. cbv zeta.
  unfold _check_code_safety at 1. cbv zeta. rewrite Hfind.
  cbn [fst negb]. unfold _check_code_safety. cbv zeta. rewrite Hfind.
  cbn [snd]. reflexivity.
Qed.

(** X21.  Every request is counted once.  Its time is added to
    [total_execution_time] exactly when the code got as far as the
    interpreter and did not time out, that is when the answer is the
    success line or the failure line; a refusal by one of the two checks
    and a timeout add nothing.  The other attributes stay as they are. *)
Theorem execution_time_accounting :
  ∀ self kwargs start_time end_time,
    let r := execute ast_parse sandbox sandbox_eval format_seconds
               self kwargs start_time end_time in
    execution_count r.2 = execution_count self + 1
    ∧ total_execution_time r.2
      = (if is_timed r.1
         then (total_execution_time self + (end_time - start_time))%Q
         else total_execution_time self)
    ∧ timeout r.2 = timeout self
    ∧ allow_imports r.2 = allow_imports self
    ∧ max_output_length r.2 = max_output_length self.
Proof.
  intros self kwargs start_time end_time r. subst r. unfold execute.
  cbv zeta.
  destruct (negb (_check_code_safety _ _).1); [by repeat split|].
  destruct (negb (_check_syntax _ _ _).1); [by repeat split|].
  destruct (if String.eqb _ "eval" then _ else _) as [result|e].
  - by repeat split.
  - destruct (exn_type e); by repeat split.
Qed.

End ExecuteFacts.

(** X20 on a call of [open] inside a longer word. *)
Lemma dangerous_code_is_never_run_witness :
  ∃ first,
    In first dangerous_keywords
    ∧ contains first (lower (strip "print(reOpen('a'))"))
    ∧ (∀ ast_parse' sandbox' sandbox_eval' format_seconds',
         execute ast_parse' sandbox' sandbox_eval' format_seconds'
           (__init__ None) (code_kwargs "print(reOpen('a'))") 0%Q 1%Q
         = ("❌ 代码安全检查失败: 包含危险关键词: " +:+ first,
            count_execution (__init__ None))).
Proof.
  apply (dangerous_code_is_never_run (__init__ None)
           (code_kwargs "print(reOpen('a'))") 0%Q 1%Q "open(").
  - unfold dangerous_keywords. simpl. tauto.
  - by exists "print(re", "'a'))".
Defined.

(** A run that times out is counted and adds no time. *)
Example timeout_adds_no_time :
  execute parses_all looping_sandbox no_eval (fun _ => "1.000")
    (__init__ None) (code_kwargs "while True: pass") 0%Q 30%Q
  = ("❌ 执行超时 (>30秒)", count_execution (__init__ None)).
Proof. reflexivity. Qed.

End PythonExecutorRunFacts.

Module Examples.
Import Py Re Database.

(** The query of the repository's database test is accepted. *)
Example safe_select :
  _is_safe_sql (__init__ ∅ false false) "SELECT * FROM employees" = true.
Proof. reflexivity. Qed.

Example unsafe_drop :
  _is_safe_sql (__init__ ∅ false false) "select 1; drop table x" = false.
Proof. reflexivity. Qed.

Example unsafe_second_statement :
  _is_safe_sql (__init__ ∅ false false) "select 1; select 2" = false.
Proof. reflexivity. Qed.

(** A column name that contains a keyword is rejected too. *)
Example unsafe_updated_at :
  _is_safe_sql (__init__ ∅ false false) "SELECT updated_at FROM t" = false.
Proof. reflexivity. Qed.

(** A successful connect leaves the tool as [connected_tool] describes,
    and two disconnects in a row end with the notice. *)
Example connect_gives_connected_tool :
  (_handle_connect (fun _ _ => Return memory_connection)
     (__init__ ∅ false false) (Some "SQLite") (Some ":memory:") 0%Q).1.2
  = connected_tool memory_connection "sqlite" ":memory:" 0%Q.
Proof. reflexivity. Qed.

Example disconnect_twice :
  let tool := connected_tool memory_connection "sqlite" ":memory:" 0%Q in
  (_handle_disconnect tool).1.1 = msg_disconnected
  ∧ (_handle_disconnect (_handle_disconnect tool).1.2).1.1
    = msg_no_active_connection.
Proof. split; reflexivity. Qed.

Example strip_spaces : strip "  ab c  " = "ab c".
Proof. reflexivity. Qed.

Example replace_all : replace "ab" "x" "cababcaab" = "cxxcax".
Proof. reflexivity. Qed.

(** Implicit multiplication, as [_preprocess_expression] writes it. *)
Example preprocess_symbols :
  Calculator._preprocess_expression "3×4÷2" = "3*4/2".
Proof. reflexivity. Qed.

Example preprocess_letter :
  Calculator._preprocess_expression "2x + 12ab" = "2*x + 12*ab".
Proof. reflexivity. Qed.

Example preprocess_bracket :
  Calculator._preprocess_expression "2(3+4)" = "2*(3+4)".
Proof. reflexivity. Qed.

(** A dispatch that succeeds, one that raises and one to an unknown
    name. *)
Example dispatch_counts :
  let registry :=
    (Tools.dispatch_all Agent.sample_clock Agent.sample_tools
       [("calculator", ∅); ("database", ∅); ("nosuch", ∅)] []).1.2 in
  Tools._tool_stats registry !! "calculator"
    = Some (Tools.mk_stats 1 1 0 (0 + (0 - 0))%Q)
  ∧ Tools._tool_stats registry !! "database"
    = Some (Tools.mk_stats 1 0 1 (0 + (0 - 0))%Q)
  ∧ Tools._tool_stats registry !! "nosuch" = None.
Proof. by vm_compute. Qed.

(** The float renderings on values whose Python text is known:
    1234.5678, 999999.5 and 99999.95 with [.2e]; 0.1, 999.9999,
    0.00001234 and the smallest positive float with [.6g]; 2.675 and
    -0.5 with [.3f] and [.0f]. *)
Example format_e_1234 :
  PyFloat.format_e 2 (S754_finite false 5429686605511341 (-42)) = "1.23e+03".
Proof. by vm_compute. Qed.

Example format_e_round_up :
  PyFloat.format_e 2 (S754_finite false 8589930297032704 (-33)) = "1.00e+06"
  ∧ PyFloat.format_e 2 (S754_finite false 6871944237626163 (-36))
    = "1.00e+05".
Proof. by vm_compute. Qed.

Example format_g_small :
  PyFloat.format_g 6 (S754_finite false 7205759403792794 (-56)) = "0.1"
  ∧ PyFloat.format_g 6 (S754_finite false 8796092142598698 (-43)) = "1000"
  ∧ PyFloat.format_g 6 (S754_finite false 7284250299826428 (-69))
    = "1.234e-05"
  ∧ PyFloat.format_g 6 (S754_finite false 4503599627370496 (-1126))
    = "4.94066e-324".
Proof. by vm_compute. Qed.

Example format_f_fixed :
  PyFloat.format_f 3 (S754_finite false 6023564501608038 (-51)) = "2.675"
  ∧ PyFloat.format_f 0 (S754_finite true 4503599627370496 (-53)) = "-0".
Proof. by vm_compute. Qed.

End Examples.
